(** * Sale transaction engine of blcm-sales-and-inventory

    A shallow embedding of the backend code that creates and voids sales,
    numbers them and reports the top selling products:

    - [src/backend/controllers/sales.controller.js]  ([createSale], [voidSale])
    - [src/backend/utils/generateSaleNumber.js]      ([generateSaleNumber])
    - [src/backend/routes/sales.routes.js]           (request validation)
    - [src/backend/controllers/report.controller.js] ([getTopProducts])
    - the product controller's [deleteProduct]

    and, after these, of the code around them: the paged list of sales
    ([getSales]), the sales report, the revenue trends and the inventory
    report ([getSalesReport], [getRevenueTrends], [getInventoryReport]), the
    inventory controller ([getInventory], [updateStock],
    [getLowStockAlerts]) and the cart of the sales page
    ([src/frontend/src/pages/Sales.jsx]).

    Conventions of the embedding.

    - A MongoDB collection keyed by [_id] is a finite map.  Products are a
      [gmap string Product] (the key is [_id.toString()]).  Sales are never
      deleted, so the sales collection is the list of sale documents in
      creation order and a sale's [_id] is its position in that list.
    - A JavaScript [Number] holding a quantity is an integer ([Z]); one
      holding money is an exact rational ([Qc]).  Binary floating point
      rounding is not modelled.  The reports, which add up money in an order
      of their own, take their arithmetic as a parameter ([Arith]) of which
      nothing is assumed.
    - An [async] handler runs to completion before the next one starts; a
      handler is a function from the store to a response and a new store.
    - A [Date] is its number of milliseconds since the epoch (UTC).  The
      server's local time zone is a fixed offset [tz] in milliseconds east of
      UTC (daylight saving changes are outside the model).  A handler reads
      the clock once: the sale it creates is stamped with the time at which
      its number was generated. *)

From Stdlib Require Import ZArith QArith Qcanon Qround Permutation Sorted Ascii String.
From stdpp Require Import gmap strings list fin_maps numbers pretty sorting.

Open Scope Z_scope.

(** ** Numbers and dates *)

Definition money (q : Q) : Qc := Q2Qc q.

Definition ofInt (z : Z) : Qc := Q2Qc (inject_Z z).

(** [String.prototype.padStart(n, c)] for a one character pad. *)
Definition padStart (n : nat) (c : ascii) (s : string) : string :=
  String.concat "" (replicate (n - String.length s) (String c "")) +:+ s.

Definition msPerDay : Z := 86400000.

(** Year, month and day of the proleptic Gregorian calendar for a number of
    days since 1970-01-01: what [Date] does for the UTC fields. *)
Definition civilFromDays (days : Z) : Z * Z * Z :=
  let z := days + 719468 in
  let era := z / 146097 in
  let doe := z - era * 146097 in
  let yoe := (doe - doe / 1460 + doe / 36524 - doe / 146096) / 365 in
  let doy := doe - (365 * yoe + yoe / 4 - yoe / 100) in
  let mp := (5 * doy + 2) / 153 in
  let d := doy - (153 * mp + 2) / 5 + 1 in
  let m := if mp <? 10 then mp + 3 else mp - 9 in
  let y := yoe + era * 400 + (if m <=? 2 then 1 else 0) in
  (y, m, d).

(** [date.toISOString().slice(0, 10).replace(/-/g, '')], for the years 0000
    to 9999 in which the ISO string starts with a four digit year. *)
Definition isoDateStr (now : Z) : string :=
  let '(y, m, d) := civilFromDays (now / msPerDay) in
  padStart 4 "0" (pretty y) +:+ padStart 2 "0" (pretty m) +:+ padStart 2 "0" (pretty d).

(** [date.setHours(0, 0, 0, 0)]: midnight of the local day that contains
    [now]. *)
Definition startOfLocalDay (tz now : Z) : Z :=
  (now + tz) / msPerDay * msPerDay - tz.

(** [date.setHours(23, 59, 59, 999)] on that same local day. *)
Definition endOfLocalDay (tz now : Z) : Z :=
  startOfLocalDay tz now + (msPerDay - 1).

(** ** Documents *)

Record Product := mkProduct {
  name : string;
  price : Qc;
  stockQuantity : Z;
  isActive : bool
}.

(** One element of [req.body.items]. *)
Record CartItem := mkCartItem {
  item_product : string;
  item_quantity : Z
}.

(** One element of [sale.items]. *)
Record SaleItem := mkSaleItem {
  product : string;
  quantity : Z;
  line_price : Qc;
  line_subtotal : Qc
}.

(** Modelled from the spec: [models/Sale.model.js] is not among the
    sources.  A sale has the fields of the spec's persisted sale layout, under
    the names the controllers read and write; [createdAt] is the time at
    which the document was created. *)
Record Sale := mkSale {
  saleNumber : string;
  customerName : option string;
  customerEmail : option string;
  customerPhone : option string;
  items : list SaleItem;
  subtotal : Qc;
  discount : Qc;
  tax : Qc;
  total : Qc;
  paymentMethod : string;
  cashier : string;
  isVoid : bool;
  voidedAt : option Z;
  voidedBy : option string;
  receiptGenerated : bool;
  createdAt : Z
}.

Record Store := mkStore {
  products : gmap string Product;
  sales : list Sale
}.

(** [req.body] of [POST /api/sales]. *)
Record SaleBody := mkSaleBody {
  body_items : list CartItem;
  body_paymentMethod : string;
  body_customerName : option string;
  body_customerEmail : option string;
  body_customerPhone : option string;
  body_discount : option Qc;
  body_tax : option Qc
}.

(** What a handler needs besides the body: the clock and [req.user._id]. *)
Record Ctx := mkCtx {
  now : Z;
  user : string
}.

(** ** Responses *)

Inductive ApiError :=
  | ProductNotFound (missingId : option string)
  | InsufficientStock (productName : string) (available requested : Z)
  | SaleNotFound
  | AlreadyVoided
  | ProductsNotFound
  | NoSuchProduct
  | ValidationFailed.

Inductive JsError :=
  | TypeErrorNullProperty (property : string).

Inductive Response :=
  | Created (s : Sale)                   (* res.status(201).json({ success: true, data }) *)
  | Voided (s : Sale)                    (* res.json({ success: true, message, data }) *)
  | Deleted                              (* res.json({ success: true, message }) *)
  | Rejected (status : Z) (e : ApiError) (* res.status(status).json({ success: false, message }) *)
  | Thrown (e : JsError).                (* catch (error) { next(error) } *)

Definition isCreated (r : Response) : bool :=
  match r with Created _ => true | _ => false end.

(** ** Product queries *)

(** [Product.find({ _id: { $in: ids } })]: every stored product whose key is
    one of [ids], each once. *)
Definition findProducts (db : gmap string Product) (ids : list string)
  : list (string * Product) :=
  filter (λ kp, kp.1 ∈ ids) (map_to_list db).

(** [Promise.all(products.map(product => product.save()))] for the documents
    held in memory in [docs]: each overwrites the stored document of its key. *)
Definition saveAll (docs db : gmap string Product) : gmap string Product :=
  docs ∪ db.

(** ** generateSaleNumber *)

(** [Sale.countDocuments({ createdAt: { $gte: lo, $lt: hi } })] *)
Definition countDocuments (lo hi : Z) (ss : list Sale) : nat :=
  length (filter (λ s, lo ≤ createdAt s ∧ createdAt s < hi) ss).

Definition generateSaleNumber (tz now : Z) (ss : list Sale) : string :=
  let dateStr := isoDateStr now in
  let count := countDocuments (startOfLocalDay tz now) (endOfLocalDay tz now) ss in
  "SALE-" +:+ dateStr +:+ "-" +:+ padStart 4 "0" (pretty (count + 1)%nat).

(** ** createSale *)

Definition vatRate : Qc := money (12 # 100).

Definition setStock (p : Product) (q : Z) : Product :=
  mkProduct (name p) (price p) q (isActive p).

(** State of the [for (const item of items)] loop: the product documents in
    memory (the values of [productMap], which are the elements of
    [products]), [subtotal] and [saleItems]. *)
Record LoopState := mkLoop {
  docs : gmap string Product;
  acc_subtotal : Qc;
  saleItems : list SaleItem
}.

Fixpoint saleLoop (cart : list CartItem) (ls : LoopState) : Response + LoopState :=
  match cart with
  | [] => inr ls
  | item :: rest =>
    match docs ls !! item_product item with
    | None => inl (Rejected 404 (ProductNotFound (Some (item_product item))))
    | Some p =>
      if stockQuantity p <? item_quantity item
      then inl (Rejected 400
                  (InsufficientStock (name p) (stockQuantity p) (item_quantity item)))
      else
        let itemSubtotal := (price p * ofInt (item_quantity item))%Qc in
        saleLoop rest
          {| docs := <[item_product item :=
                         setStock p (stockQuantity p - item_quantity item)]> (docs ls);
             acc_subtotal := (acc_subtotal ls + itemSubtotal)%Qc;
             saleItems := saleItems ls ++
                            [mkSaleItem (item_product item) (item_quantity item)
                                        (price p) itemSubtotal] |}
    end
  end.

Definition createSale (tz : Z) (ctx : Ctx) (body : SaleBody) (st : Store)
  : Response * Store :=
  let cart := body_items body in
  let productIds := item_product <$> cart in
  let found := findProducts (products st) productIds in
  if negb (length found =? length cart)%nat then
    let foundIds := found.*1 in
    let missingId := List.find (λ id, bool_decide (id ∉ foundIds)) productIds in
    (Rejected 404 (ProductNotFound missingId), st)
  else
    let productMap : gmap string Product := list_to_map found in
    match saleLoop cart (mkLoop productMap 0%Qc []) with
    | inl failure => (failure, st)
    | inr final =>
      let saved := saveAll (docs final) (products st) in
      let subtotal := acc_subtotal final in
      let tax := (subtotal * vatRate)%Qc in
      let total := (subtotal + tax)%Qc in
      let saleNumber := generateSaleNumber tz (now ctx) (sales st) in
      let sale :=
        {| saleNumber := saleNumber;
           customerName := body_customerName body;
           customerEmail := body_customerEmail body;
           customerPhone := body_customerPhone body;
           items := saleItems final;
           subtotal := subtotal;
           discount := 0%Qc;
           tax := tax;
           total := total;
           paymentMethod := body_paymentMethod body;
           cashier := user ctx;
           isVoid := false;
           voidedAt := None;
           voidedBy := None;
           receiptGenerated := true;
           createdAt := now ctx |} in
      (Created sale, mkStore saved (sales st ++ [sale]))
    end.

(** ** voidSale *)

(** [.populate('items.product', 'name stockQuantity')] replaces the reference
    held by a line item with the referenced product document, and with [null]
    ([None]) when no such product is stored any more. *)
Definition populate (db : gmap string Product) (it : SaleItem)
  : option (string * Product) :=
  (λ p, (product it, p)) <$> db !! product it.

(** [sale.items.map(item => item.product._id || item.product)]: the key of
    every populated line item.  Reading [_id] from a [null] product throws a
    [TypeError], which is [None] here. *)
Definition populatedIds (db : gmap string Product) (its : list SaleItem)
  : option (list string) :=
  mapM (λ it, fst <$> populate db it) its.

(** The [for (const item of sale.items)] loop of [voidSale] over the
    documents in memory. *)
Definition restoreLoop (its : list SaleItem) (ds : gmap string Product)
  : gmap string Product :=
  fold_left
    (λ ds it,
       match ds !! product it with
       | Some p => <[product it := setStock p (stockQuantity p + quantity it)]> ds
       | None => ds
       end)
    its ds.

Definition markVoid (ctx : Ctx) (s : Sale) : Sale :=
  {| saleNumber := saleNumber s;
     customerName := customerName s;
     customerEmail := customerEmail s;
     customerPhone := customerPhone s;
     items := items s;
     subtotal := subtotal s;
     discount := discount s;
     tax := tax s;
     total := total s;
     paymentMethod := paymentMethod s;
     cashier := cashier s;
     isVoid := true;
     voidedAt := Some (now ctx);
     voidedBy := Some (user ctx);
     receiptGenerated := receiptGenerated s;
     createdAt := createdAt s |}.

Definition voidSale (ctx : Ctx) (id : nat) (st : Store) : Response * Store :=
  match sales st !! id with
  | None => (Rejected 404 SaleNotFound, st)
  | Some sale =>
    if isVoid sale then (Rejected 400 AlreadyVoided, st)
    else
      match populatedIds (products st) (items sale) with
      | None => (Thrown (TypeErrorNullProperty "_id"), st)
      | Some productIds =>
        let found := findProducts (products st) productIds in
        if negb (length found =? length productIds)%nat then
          (Rejected 404 ProductsNotFound, st)
        else
          let productMap : gmap string Product := list_to_map found in
          let restored := restoreLoop (items sale) productMap in
          let saved := saveAll restored (products st) in
          let sale' := markVoid ctx sale in
          (Voided sale', mkStore saved (<[id := sale']> (sales st)))
      end
  end.

(** ** deleteProduct (product controller) *)

Definition deleteProduct (id : string) (st : Store) : Response * Store :=
  match products st !! id with
  | None => (Rejected 404 NoSuchProduct, st)
  | Some _ => (Deleted, mkStore (delete id (products st)) (sales st))
  end.

(** ** The sales routes *)

Definition paymentMethods : list string := ["cash"; "card"; "mobile_payment"; "other"].

(** The validators of [router.post('/')] that constrain what [createSale]
    computes with: [items] is an array of at least one element, every
    [quantity] is an integer of at least 1, [paymentMethod] is one of the
    four methods, [discount] and [tax] are absent or not negative.  The
    format checks ([isMongoId], [isEmail]) are left out: they only reject
    more bodies. *)
Definition validSaleBody (body : SaleBody) : bool :=
  bool_decide (body_items body ≠ [])
  && forallb (λ it, 1 <=? item_quantity it) (body_items body)
  && bool_decide (body_paymentMethod body ∈ paymentMethods)
  && from_option (λ d, bool_decide (0 ≤ d)%Qc) true (body_discount body)
  && from_option (λ t, bool_decide (0 ≤ t)%Qc) true (body_tax body).

(** Modelled from the spec: [handleValidationErrors] of
    [utils/validationHandler.js] is not among the sources.  The spec has a
    validation error answer the caller without any side effect; the handler
    is reached only by a body that passes every validator. *)
Definition handleValidationErrors (ok : bool) (handler : Store → Response * Store)
  (st : Store) : Response * Store :=
  if ok then handler st else (Rejected 400 ValidationFailed, st).

(** [POST /api/sales] *)
Definition postSale (tz : Z) (ctx : Ctx) (body : SaleBody) : Store → Response * Store :=
  handleValidationErrors (validSaleBody body) (createSale tz ctx body).

(** [PATCH /api/sales/:id/void] *)
Definition patchVoid (ctx : Ctx) (id : nat) : Store → Response * Store :=
  voidSale ctx id.

Inductive Op :=
  | PostSale (ctx : Ctx) (body : SaleBody)
  | PatchVoid (ctx : Ctx) (id : nat).

Definition step (tz : Z) (op : Op) (st : Store) : Response * Store :=
  match op with
  | PostSale ctx body => postSale tz ctx body st
  | PatchVoid ctx id => patchVoid ctx id st
  end.

Definition stockOf (st : Store) (id : string) : option Z :=
  stockQuantity <$> products st !! id.

(** ** Notions used by the statements *)

Definition sumQc (l : list Qc) : Qc := foldr Qcplus 0%Qc l.

(** What one pass of the loop does for a cart line [it], seen from the
    documents [ds] it started with and the documents [ds'] it ended with. *)
Definition lineDone (ds ds' : gmap string Product) (it : CartItem) (si : SaleItem) : Prop :=
  ∃ p, ds !! item_product it = Some p
       ∧ item_quantity it ≤ stockQuantity p
       ∧ si = mkSaleItem (item_product it) (item_quantity it) (price p)
                         (price p * ofInt (item_quantity it))%Qc
       ∧ ds' !! item_product it
         = Some (setStock p (stockQuantity p - item_quantity it)).

(** The sale document built by [createSale]. *)
Definition newSale (tz : Z) (ctx : Ctx) (body : SaleBody) (st : Store) (final : LoopState)
  : Sale :=
  {| saleNumber := generateSaleNumber tz (now ctx) (sales st);
     customerName := body_customerName body;
     customerEmail := body_customerEmail body;
     customerPhone := body_customerPhone body;
     items := saleItems final;
     subtotal := acc_subtotal final;
     discount := 0%Qc;
     tax := (acc_subtotal final * vatRate)%Qc;
     total := (acc_subtotal final + acc_subtotal final * vatRate)%Qc;
     paymentMethod := body_paymentMethod body;
     cashier := user ctx;
     isVoid := false;
     voidedAt := None;
     voidedBy := None;
     receiptGenerated := true;
     createdAt := now ctx |}.

(** The store left by a [voidSale] that went through. *)
Definition voidedStore (ctx : Ctx) (id : nat) (sale : Sale) (st : Store) : Store :=
  let productMap : gmap string Product :=
    list_to_map (findProducts (products st) (product <$> items sale)) in
  mkStore (saveAll (restoreLoop (items sale) productMap) (products st))
          (<[id := markVoid ctx sale]> (sales st)).

(** ** Fixtures *)

Definition cashBody (cart : list CartItem) : SaleBody :=
  mkSaleBody cart "cash" None None None None None.

(** 2024-01-15T02:00:00.000Z *)
Definition morning : Ctx := mkCtx 1705284000000 "cashier-1".

(** Scenario A of the spec: product P, stock 10, price 100.00. *)
Definition storeA : Store :=
  mkStore {[ "P" := mkProduct "P" (money 100) 10 true ]} [].

(** Scenario C of the spec: product A with stock 5, product B with stock 0. *)
Definition storeC : Store :=
  mkStore (<["A" := mkProduct "A" (money 100) 5 true]>
             {[ "B" := mkProduct "B" (money 50) 0 true ]}) [].

Definition cartC : list CartItem := [mkCartItem "A" 2; mkCartItem "B" 1].

(** ** Stock never goes negative *)

Definition stockNonNegative (st : Store) : Prop :=
  map_Forall (λ _ p, 0 ≤ stockQuantity p) (products st).

(** Every persisted line item carries a quantity that is not negative, as
    the lines written by [POST /api/sales] do. *)
Definition linesNonNegative (st : Store) : Prop :=
  Forall (λ s, Forall (λ si, 0 ≤ quantity si) (items s)) (sales st).

(** The stores seen after each request of a sequence. *)
Fixpoint trace (tz : Z) (ops : list Op) (st : Store) : list Store :=
  match ops with
  | [] => []
  | op :: rest => let st' := (step tz op st).2 in st' :: trace tz rest st'
  end.

Definition warmStore : Store :=
  (createSale 0 morning (cashBody [mkCartItem "P" 3]) storeA).2.

(** ** Fixtures for voidSale *)

Definition storeAB : Store :=
  mkStore (<["A" := mkProduct "A" (money 100) 5 true]>
             {[ "B" := mkProduct "B" (money 50) 4 true ]}) [].

(** Sale 0 sells two of A and one of B. *)
Definition soldAB : Store := (createSale 0 morning (cashBody cartC) storeAB).2.

(** Product B is deleted after it was sold. *)
Definition orphaned : Store := (deleteProduct "B" soldAB).2.

Definition lineKeys (s : Sale) : list (string * Z) :=
  (λ si, (product si, quantity si)) <$> items s.

(** ** Totals and discount, as computed and as specified *)

Definition createdSale (r : Response) : option Sale :=
  match r with Created s => Some s | _ => None end.

(** Rounding to two decimals, halves upwards: the spec's [round(x, 2)]. *)
Definition round2 (x : Qc) : Qc :=
  Q2Qc (inject_Z (Qfloor (this x * 100 + (1 # 2))) / 100).

(** The total the spec describes for a sale. *)
Definition specTotal (s : Sale) : Qc :=
  round2 (subtotal s + subtotal s * money (12 # 100) - discount s).

Definition lineAmounts (s : Sale) : list Qc :=
  (λ si, (line_price si * ofInt (quantity si))%Qc) <$> items s.

Ltac by_compute :=
  lazymatch goal with
  | |- ?P => apply (@bool_decide_unpack P _); vm_compute; exact I
  end.

(** The product of a one-line cart costs 0.99. *)
Definition storeCents : Store :=
  mkStore {[ "P" := mkProduct "P" (money (99 # 100)) 10 true ]} [].

(** A body that supplies a discount and a tax. *)
Definition supplying (d t : option Qc) (body : SaleBody) : SaleBody :=
  mkSaleBody (body_items body) (body_paymentMethod body) (body_customerName body)
             (body_customerEmail body) (body_customerPhone body) d t.

(** Product R is stored but not active. *)
Definition storeRetired : Store :=
  mkStore {[ "R" := mkProduct "R" (money 100) 10 false ]} [].

(** ** Sale numbers *)

Definition issuedNumber (r : Response) : option string :=
  saleNumber <$> createdSale r.

(** UTC+8, the offset of Asia/Manila. *)
Definition manila : Z := 8 * 3600000.

(** 2024-01-15T17:00:00.000Z, which is 01:00 of 16 January in Manila. *)
Definition afterLocalMidnight : Ctx := mkCtx 1705338000000 "cashier-1".

(** 2024-01-15T23:59:59.999Z *)
Definition lastMillisecond : Ctx := mkCtx 1705363199999 "cashier-1".

(** ** getTopProducts *)

(** [req.query] of [GET /api/reports/top-products], with the dates already
    read by [new Date(...)] and the limit by [parseInt]. *)
Record TopQuery := mkTopQuery {
  q_startDate : option Z;
  q_endDate : option Z;
  q_limit : option Z
}.

(** A document of the [$group] stage. *)
Record Group := mkGroup {
  g_id : string;
  g_totalQuantity : Z;
  g_totalRevenue : Qc;
  g_saleCount : nat
}.

(** A document of the answer, after [$lookup], [$unwind] and [$project]. *)
Record TopRow := mkTopRow {
  productId : string;
  productName : string;
  totalQuantity : Z;
  totalRevenue : Qc;
  saleCount : nat
}.

(** [matchFilter]: [isVoid: false], and the [createdAt] window only when both
    dates are given. *)
Definition matchFilter (q : TopQuery) (s : Sale) : bool :=
  negb (isVoid s)
  && match q_startDate q, q_endDate q with
     | Some lo, Some hi => (lo <=? createdAt s) && (createdAt s <=? hi)
     | _, _ => true
     end.

(** [$match] then [$unwind: '$items']. *)
Definition unwoundItems (q : TopQuery) (ss : list Sale) : list SaleItem :=
  List.filter (matchFilter q) ss ≫= items.

(** One line item entering the [$group] stage: it is added to the group of
    its product, which is opened if there is none yet. *)
Fixpoint addToGroups (si : SaleItem) (gs : list Group) : list Group :=
  match gs with
  | [] => [mkGroup (product si) (quantity si) (line_subtotal si) 1]
  | g :: rest =>
    if decide (g_id g = product si)
    then mkGroup (g_id g) (g_totalQuantity g + quantity si)
                 (g_totalRevenue g + line_subtotal si)%Qc (S (g_saleCount g)) :: rest
    else g :: addToGroups si rest
  end.

(** [$group] by ['$items.product'].  MongoDB leaves the order of the groups
    open; here they come in the order in which their first line item is
    met. *)
Definition groupByProduct (sis : list SaleItem) : list Group :=
  fold_left (λ gs si, addToGroups si gs) sis [].

(** [$lookup] into [products], [$unwind: '$product'] and [$project]: a group
    whose product is no longer stored yields no row. *)
Definition joinProduct (db : gmap string Product) (g : Group) : option TopRow :=
  (λ p, mkTopRow (g_id g) (name p) (g_totalQuantity g) (g_totalRevenue g) (g_saleCount g))
    <$> db !! g_id g.

Definition joinedRows (q : TopQuery) (st : Store) : list TopRow :=
  omap (joinProduct (products st)) (groupByProduct (unwoundItems q (sales st))).

(** Insertion sort that keeps rows of equal rank in their incoming order. *)
Fixpoint insertBy {A} (before : A → A → bool) (x : A) (l : list A) : list A :=
  match l with
  | [] => [x]
  | y :: rest => if before x y then x :: y :: rest else y :: insertBy before x rest
  end.

Definition sortBy {A} (before : A → A → bool) (l : list A) : list A :=
  foldr (insertBy before) [] l.

(** [$sort: { totalRevenue: -1 }] *)
Definition revenueDesc (a b : TopRow) : Prop := (totalRevenue b ≤ totalRevenue a)%Qc.

Definition byRevenue (a b : TopRow) : bool :=
  bool_decide (totalRevenue b ≤ totalRevenue a)%Qc.

(** The limit sent to [$limit], 10 when the query has none. *)
Definition limitOf (q : TopQuery) : Z := default 10 (q_limit q).

(** The rows of the answer.  [$limit] refuses a limit that is not positive;
    the aggregation then throws and the handler calls [next(error)], which is
    [None] here.  Rows of equal revenue are returned in the order the
    previous stages produced them. *)
Definition getTopProducts (q : TopQuery) (st : Store) : option (list TopRow) :=
  if limitOf q <=? 0 then None
  else Some (take (Z.to_nat (limitOf q)) (sortBy byRevenue (joinedRows q st))).

(** What MongoDB promises for the pipeline: the rows of the groups, in some
    order that is descending in [totalRevenue], cut to the limit.  The order
    among rows of equal revenue is not fixed by the pipeline. *)
Definition topProductsAnswer (q : TopQuery) (st : Store) (out : list TopRow) : Prop :=
  0 < limitOf q
  ∧ ∃ full, full ≡ₚ joinedRows q st
            ∧ StronglySorted revenueDesc full
            ∧ out = take (Z.to_nat (limitOf q)) full.




Definition lineOf (id : string) (qty : Z) (unit : Qc) : SaleItem :=
  mkSaleItem id qty unit (unit * ofInt qty)%Qc.

Definition saleOf (number : string) (at_ : Z) (void : bool) (lines : list SaleItem) : Sale :=
  let sub := sumQc (line_subtotal <$> lines) in
  mkSale number None None None lines sub 0%Qc (sub * vatRate)%Qc (sub + sub * vatRate)%Qc
         "cash" "cashier-1" void None None true at_.


Definition anyTime : TopQuery := mkTopQuery None None None.





(** ** The answer of getTopProducts *)

(** A sale that the top products count, in the words of the claim: it is
    not void and, when both dates are given, it was created inside the
    window. *)
Definition countedSale (q : TopQuery) (s : Sale) : Prop :=
  isVoid s = false
  ∧ match q_startDate q, q_endDate q with
    | Some lo, Some hi => lo ≤ createdAt s ≤ hi
    | _, _ => True
    end.

#[global] Instance countedSale_dec q s : Decision (countedSale q s).
Proof. unfold countedSale. destruct (q_startDate q), (q_endDate q); apply _. Defined.



(** ** Further notions and fixtures of the sale engine *)

(** What a created sale records of a cart line: the product, the quantity,
    the price the product had in the store when the sale was made, and their
    product. *)
Definition lineSnapshot (st : Store) (it : CartItem) (si : SaleItem) : Prop :=
  product si = item_product it
  ∧ quantity si = item_quantity it
  ∧ ∃ p, products st !! item_product it = Some p
         ∧ line_price si = price p
         ∧ line_subtotal si = (price p * ofInt (item_quantity it))%Qc.

(** Two lines of sale 0 name product A. *)
Definition storeTwice : Store :=
  mkStore {[ "A" := mkProduct "A" (money 100) 5 true ]}
          [saleOf "SALE-20240115-0001" 1705284000000 false
                  [lineOf "A" 1 (money 100); lineOf "A" 2 (money 100)]].

(** 2024-01-15T04:00:00.000Z, the same day in Manila as [morning]. *)
Definition noon : Z := 1705291200000.

(** * The sales report and the revenue trends

    [getSalesReport] and [getRevenueTrends] of
    [src/backend/controllers/report.controller.js]. *)

(** Days since 1970-01-01 of a date of the proleptic Gregorian calendar. *)
Definition daysFromCivil (y m d : Z) : Z :=
  let y' := if m <=? 2 then y - 1 else y in
  let era := y' / 400 in
  let yoe := y' - era * 400 in
  let doy := (153 * (if 2 <? m then m - 3 else m + 9) + 2) / 5 + d - 1 in
  let doe := yoe * 365 + yoe / 4 - yoe / 100 + doy in
  era * 146097 + doe - 719468.

(** Day of the week of a day number, 0 for Sunday (1970-01-01 was a
    Thursday). *)
Definition dayOfWeek (days : Z) : Z := (days + 4) mod 7.

(** Day of the year, 0 for 1 January. *)
Definition dayOfYear (days : Z) : Z :=
  let '(y, _, _) := civilFromDays days in days - daysFromCivil y 1 1.

(** [%U]: weeks begin on Sunday, the days before the first Sunday of the
    year are in week 00. *)
Definition weekOfYear (days : Z) : Z := (dayOfYear days + 7 - dayOfWeek days) / 7.

(** The three formats that [getRevenueTrends] and [getSalesReport] hand to
    [$dateToString]: ['%Y-%m-%d'], ['%Y-%U'] and ['%Y-%m']. *)
Inductive DateFormat := FormatYmd | FormatYU | FormatYm.

(** [$dateToString] of a date in UTC, for the years 0000 to 9999. *)
Definition dateToString (fmt : DateFormat) (t : Z) : string :=
  let days := t / msPerDay in
  let '(y, m, d) := civilFromDays days in
  match fmt with
  | FormatYmd =>
    padStart 4 "0" (pretty y) +:+ "-" +:+ padStart 2 "0" (pretty m)
      +:+ "-" +:+ padStart 2 "0" (pretty d)
  | FormatYU => padStart 4 "0" (pretty y) +:+ "-" +:+ padStart 2 "0" (pretty (weekOfYear days))
  | FormatYm => padStart 4 "0" (pretty y) +:+ "-" +:+ padStart 2 "0" (pretty m)
  end.

(** [req.query] of the two reports, the dates already read by
    [new Date(...)]; an absent or empty parameter is [None]. *)
Record ReportQuery := mkReportQuery {
  rq_startDate : option Z;
  rq_endDate : option Z;
  rq_groupBy : option string
}.

(** What a report handler sends: the payload of [res.json], or a status with
    a message. *)
Inductive Answer (A : Type) :=
  | Answered (a : A)
  | Refused (status : Z) (message : string).
Arguments Answered {A} a.
Arguments Refused {A} status message.

(** [$match: { createdAt: { $gte: start, $lte: end }, isVoid: false }] with
    [end.setHours(23, 59, 59, 999)] applied to the end date. *)
Definition inReportWindow (tz start end_ : Z) (s : Sale) : bool :=
  (start <=? createdAt s) && (createdAt s <=? endOfLocalDay tz end_) && negb (isVoid s).

(** The arithmetic of the reports.  Their sums are computed on IEEE
    doubles: by [$sum] in the database, by [+], [*] and [/] in the handlers.
    A finite double is a rational number and each operation gives the exact
    result rounded; how it rounds is left open.  The reports take the four
    operations as a parameter and nothing is assumed of them, so that what is
    proved of a report holds for the doubles of the code as it does for exact
    arithmetic.  [db_sum] is [$sum] over the values of a group, in the order
    in which the documents reach the stage. *)
Record Arith := mkArith {
  num_add : Qc → Qc → Qc;
  num_mul : Qc → Qc → Qc;
  num_div : Qc → Qc → Qc;
  db_sum : list Qc → Qc
}.

(** Arithmetic without rounding, for the examples. *)
Definition exactArith : Arith := mkArith Qcplus Qcmult Qcdiv sumQc.

(** A document of a [$group] by date: [_id], the number of sales and the sum
    of their totals. *)
Record Bucket := mkBucket {
  b_id : string;
  b_count : nat;
  b_revenue : Qc
}.

(** One document entering a [$group] stage: it joins the documents of its
    key, and a group is opened if there is none yet. *)
Fixpoint addToBuckets (key : string) (s : Sale) (gs : list (string * list Sale))
  : list (string * list Sale) :=
  match gs with
  | [] => [(key, [s])]
  | g :: rest =>
    if decide (g.1 = key) then (g.1, g.2 ++ [s]) :: rest
    else g :: addToBuckets key s rest
  end.

(** The groups of a [$group] by [$dateToString] of [createdAt]. *)
Definition groupsByDate (fmt : DateFormat) (ss : list Sale) : list (string * list Sale) :=
  fold_left (λ gs s, addToBuckets (dateToString fmt (createdAt s)) s gs) ss [].

(** The accumulators of a group: [$sum: 1] and [$sum: '$total']. *)
Definition bucketOfGroup (ops : Arith) (g : string * list Sale) : Bucket :=
  mkBucket g.1 (length g.2) (db_sum ops (total <$> g.2)).

(** [$group] by [$dateToString] of [createdAt], summing 1 and [$total]. *)
Definition groupByDate (ops : Arith) (fmt : DateFormat) (ss : list Sale) : list Bucket :=
  bucketOfGroup ops <$> groupsByDate fmt ss.

(** [$sort: { _id: 1 }] or [{ date: 1 }]: ascending in the date string. *)
Definition byDateKey (a b : Bucket) : bool := String.leb (b_id a) (b_id b).

Record Summary := mkSummary {
  sum_totalSales : nat;
  sum_totalRevenue : Qc;
  sum_totalVAT : Qc;
  sum_averageSaleValue : Qc
}.

Record SalesReport := mkSalesReport {
  rep_summary : Summary;
  rep_salesByDate : list Bucket;
  rep_data : list Sale
}.

(** The [$group] with [_id: null]: no document when nothing matched, which
    the handler replaces by zeros. *)
Definition summaryResult (ops : Arith) (matched : list Sale) : option (nat * Qc * Qc) :=
  match matched with
  | [] => None
  | _ => Some (length matched, db_sum ops (total <$> matched), db_sum ops (tax <$> matched))
  end.

Definition newestFirst (a b : Sale) : bool := createdAt b <=? createdAt a.

Definition getSalesReport (ops : Arith) (tz : Z) (q : ReportQuery) (ss : list Sale)
  : Answer SalesReport :=
  match rq_startDate q, rq_endDate q with
  | Some start, Some end_ =>
    let matched := List.filter (inReportWindow tz start end_) ss in
    let '(n, revenue, vat) := default (0%nat, 0%Qc, 0%Qc) (summaryResult ops matched) in
    Answered
      {| rep_summary :=
           {| sum_totalSales := n;
              sum_totalRevenue := revenue;
              sum_totalVAT := vat;
              sum_averageSaleValue :=
                if (0 <? n)%nat then num_div ops revenue (ofInt (Z.of_nat n)) else 0%Qc |};
         rep_salesByDate := sortBy byDateKey (groupByDate ops FormatYmd matched);
         rep_data := take 100 (sortBy newestFirst matched) |}
  | _, _ => Refused 400 "Start date and end date are required"
  end.

(** A document of the trend: [date], [revenue] and [sales]. *)
Record TrendPoint := mkTrendPoint {
  tp_date : string;
  tp_revenue : Qc;
  tp_sales : nat
}.

Definition trendFormat (groupBy : option string) : DateFormat :=
  let g := default "day" groupBy in
  if decide (g = "day") then FormatYmd
  else if decide (g = "week") then FormatYU
  else if decide (g = "month") then FormatYm
  else FormatYmd.

Definition projectTrend (b : Bucket) : TrendPoint :=
  mkTrendPoint (b_id b) (b_revenue b) (b_count b).

Definition getRevenueTrends (ops : Arith) (tz : Z) (q : ReportQuery) (ss : list Sale)
  : Answer (list TrendPoint) :=
  match rq_startDate q, rq_endDate q with
  | Some start, Some end_ =>
    let matched := List.filter (inReportWindow tz start end_) ss in
    Answered (projectTrend <$>
                sortBy byDateKey (groupByDate ops (trendFormat (rq_groupBy q)) matched))
  | _, _ => Refused 400 "Start date and end date are required"
  end.

(** The sales created on 14, 15 and 15 January 2024 (UTC), the last one
    void, and one more on 15 January. *)
Definition ledger : list Sale :=
  [saleOf "SALE-20240114-0001" 1705190400000 false [lineOf "a" 2 (money 5)];
   saleOf "SALE-20240115-0001" 1705284000000 false [lineOf "b" 1 (money 10)];
   saleOf "SALE-20240115-0002" 1705284000001 true [lineOf "b" 3 (money 10)];
   saleOf "SALE-20240115-0003" 1705291200000 false [lineOf "a" 4 (money 5)]].

Definition january : ReportQuery :=
  mkReportQuery (Some 1704067200000) (Some 1706659200000) None.

(** The sales of date string [key], in stored order, and the bucket they
    make: their number and the database's sum of their totals. *)
Definition salesOfKey (fmt : DateFormat) (key : string) (ss : list Sale) : list Sale :=
  filter (λ s, dateToString fmt (createdAt s) = key) ss.

Definition bucketOf (ops : Arith) (fmt : DateFormat) (key : string) (ss : list Sale) : Bucket :=
  mkBucket key (length (salesOfKey fmt key ss)) (db_sum ops (total <$> salesOfKey fmt key ss)).

(** The sales that a report over [start] to [end_] is about: those that are
    not void and were created from [start] to the end of the local day of
    [end_], in stored order. *)
Definition reported (tz start end_ : Z) (ss : list Sale) : list Sale :=
  filter (λ s, isVoid s = false ∧ start ≤ createdAt s ≤ endOfLocalDay tz end_) ss.

(** The groups [gs] are those of the sales [done]: one per date string that
    occurs, holding the sales of that date in stored order. *)
Definition groupsOfDates (fmt : DateFormat) (done : list Sale) (gs : list (string * list Sale))
  : Prop :=
  NoDup gs.*1
  ∧ (∀ g, g ∈ gs → g.2 = salesOfKey fmt g.1 done)
  ∧ (∀ key, key ∈ gs.*1 ↔ key ∈ (λ s, dateToString fmt (createdAt s)) <$> done).

(** The store holding the sales of [ledger] and their two products. *)
Definition ledgerStore : Store :=
  mkStore (<["a" := mkProduct "nib" (money 5) 8 true]>
             {[ "b" := mkProduct "pen" (money 10) 9 true ]}) ledger.

Definition januaryBy (groupBy : string) : ReportQuery :=
  mkReportQuery (Some 1704067200000) (Some 1706659200000) (Some groupBy).

(** * getSales: the paged list of sales

    [getSales] of [src/backend/controllers/sales.controller.js]. *)

(** [req.query] of [GET /api/sales].  A date is the three numbers that
    [split('-').map(Number)] reads from a [YYYY-MM-DD] string; page and limit
    are the integers read by [parseInt]. *)
Record SalesQuery := mkSalesQuery {
  sq_startDate : option (Z * Z * Z);
  sq_endDate : option (Z * Z * Z);
  sq_cashier : option string;
  sq_page : option Z;
  sq_limit : option Z
}.

(** [new Date(year, month - 1, day, 0, 0, 0, 0)]: local midnight of a date
    whose month is between 1 and 12. *)
Definition localMidnight (tz : Z) (ymd : Z * Z * Z) : Z :=
  let '(y, m, d) := ymd in daysFromCivil y m d * msPerDay - tz.

(** The [filter] object: [createdAt.$gte] from the start date, [createdAt.$lte]
    from the end date (23:59:59.999 local), [cashier]; void sales are not
    filtered out. *)
Definition salesFilter (tz : Z) (q : SalesQuery) (s : Sale) : bool :=
  from_option (λ d, localMidnight tz d <=? createdAt s) true (sq_startDate q)
  && from_option (λ d, createdAt s <=? localMidnight tz d + (msPerDay - 1)) true (sq_endDate q)
  && from_option (λ c, bool_decide (cashier s = c)) true (sq_cashier q).

Record SalesPage := mkSalesPage {
  pg_count : nat;
  pg_total : nat;
  pg_page : Z;
  pg_pages : nat;
  pg_data : list Sale
}.

(** The sales matching the filter, newest first. *)
Definition listed (tz : Z) (q : SalesQuery) (ss : list Sale) : list Sale :=
  sortBy newestFirst (List.filter (salesFilter tz q) ss).

(** The answer for a page of at least 1 and a limit of at least 1.  Other
    requests are outside the model ([None]): the driver refuses a negative
    skip, and a limit of 0 lists everything and reports [Infinity] pages. *)
Definition getSales (tz : Z) (q : SalesQuery) (ss : list Sale) : option SalesPage :=
  let pageNum := default 1 (sq_page q) in
  let limitNum := default 50 (sq_limit q) in
  if (pageNum <? 1) || (limitNum <? 1) then None
  else
    let skip := (pageNum - 1) * limitNum in
    let data := take (Z.to_nat limitNum) (drop (Z.to_nat skip) (listed tz q ss)) in
    let total := length (List.filter (salesFilter tz q) ss) in
    Some {| pg_count := length data;
            pg_total := total;
            pg_page := pageNum;
            pg_pages := Z.to_nat ((Z.of_nat total + limitNum - 1) / limitNum);
            pg_data := data |}.

Definition withPage (p : Z) (q : SalesQuery) : SalesQuery :=
  mkSalesQuery (sq_startDate q) (sq_endDate q) (sq_cashier q) (Some p) (sq_limit q).

(** The data of page [p], empty when the request is outside the model. *)
Definition pageData (tz : Z) (q : SalesQuery) (ss : list Sale) (p : nat) : list Sale :=
  from_option pg_data [] (getSales tz (withPage (Z.of_nat p) q) ss).

Definition twoPerPage : SalesQuery := mkSalesQuery None None None None (Some 2).

(** * The cart of the sales page

    [addToCart], [updateCartQuantity], [calculateTotal] and [onSubmit] of
    [src/frontend/src/pages/Sales.jsx]. *)

(** An entry of the cart: the product as it was fetched (with its id), the
    quantity and the price taken from the product when it was added. *)
Record CartEntry := mkCartEntry {
  entry_product : string * Product;
  entry_quantity : Z;
  entry_price : Qc
}.

Definition entryId (e : CartEntry) : string := (entry_product e).1.

Definition addToCart (product : string * Product) (cart : list CartEntry) : list CartEntry :=
  match List.find (λ item, bool_decide (entryId item = product.1)) cart with
  | Some _ =>
    (λ item, if decide (entryId item = product.1)
             then mkCartEntry (entry_product item) (entry_quantity item + 1) (entry_price item)
             else item) <$> cart
  | None => cart ++ [mkCartEntry product 1 (price product.2)]
  end.

Definition updateCartQuantity (productId : string) (quantity : Z) (cart : list CartEntry)
  : list CartEntry :=
  if quantity <=? 0 then filter (λ item, entryId item ≠ productId) cart
  else (λ item, if decide (entryId item = productId)
                then mkCartEntry (entry_product item) quantity (entry_price item)
                else item) <$> cart.

Record CartTotals := mkCartTotals {
  ct_subtotal : Qc;
  ct_discount : Qc;
  ct_vat : Qc;
  ct_total : Qc
}.

Definition calculateTotal (cart : list CartEntry) : CartTotals :=
  let subtotal :=
    fold_left (λ sum item, (sum + entry_price item * ofInt (entry_quantity item))%Qc) cart 0%Qc in
  let vat := (subtotal * money (12 # 100))%Qc in
  mkCartTotals subtotal 0%Qc vat (subtotal + vat)%Qc.

(** The form fields that [onSubmit] spreads into the body. *)
Record SaleForm := mkSaleForm {
  form_customerName : option string;
  form_customerEmail : option string;
  form_customerPhone : option string;
  form_paymentMethod : string
}.

(** [saleData] of [onSubmit]; nothing is posted for an empty cart. *)
Definition saleData (form : SaleForm) (cart : list CartEntry) : option SaleBody :=
  match cart with
  | [] => None
  | _ =>
    let totals := calculateTotal cart in
    Some (mkSaleBody ((λ item, mkCartItem (entryId item) (entry_quantity item)) <$> cart)
                     (form_paymentMethod form) (form_customerName form)
                     (form_customerEmail form) (form_customerPhone form)
                     (Some 0%Qc) (Some (ct_vat totals)))
  end.

(** What the cashier does to the cart. *)
Inductive CartAction :=
  | AddProduct (product : string * Product)
  | SetQuantity (productId : string) (quantity : Z).

Definition cartStep (cart : list CartEntry) (a : CartAction) : list CartEntry :=
  match a with
  | AddProduct product => addToCart product cart
  | SetQuantity productId quantity => updateCartQuantity productId quantity cart
  end.

(** The cart after a series of actions on the empty cart. *)
Definition cartAfter (actions : list CartAction) : list CartEntry :=
  fold_left cartStep actions [].

Definition cartInvariant (cart : list CartEntry) : Prop :=
  NoDup (entryId <$> cart)
  ∧ Forall (λ item, 1 ≤ entry_quantity item) cart
  ∧ Forall (λ item, entry_price item = price (entry_product item).2) cart.

Definition cashForm : SaleForm := mkSaleForm None None None "cash".

Definition productP : string * Product := ("P", mkProduct "P" (money 100) 10 true).

(** * Inventory

    [getInventory], [updateStock] and [getLowStockAlerts] of the inventory
    controller, behind the routes of the inventory router. *)

(** A product document with the fields the inventory reads besides those of
    [Product]: the supplier reference, the category and the low stock
    threshold. *)
Record ProductDoc := mkProductDoc {
  doc_core : Product;
  doc_supplier : string;
  doc_category : option string;
  doc_lowStockThreshold : Z
}.

(** [req.user] *)
Record User := mkUser {
  user_id : string;
  user_role : string
}.

(** The suppliers collection: the [_id] and the [userId] of each supplier. *)
Definition Suppliers := list (string * string).

(** [Supplier.findOne({ userId })] *)
Definition findSupplier (suppliers : Suppliers) (userId : string) : option string :=
  fst <$> List.find (λ s, bool_decide (s.2 = userId)) suppliers.

Definition docStock (d : ProductDoc) : Z := stockQuantity (doc_core d).

Definition setDocStock (d : ProductDoc) (q : Z) : ProductDoc :=
  mkProductDoc (setStock (doc_core d) q) (doc_supplier d) (doc_category d)
               (doc_lowStockThreshold d).

(** [req.body] of [PUT /api/inventory/:id/stock], the quantity sent as a
    number. *)
Record StockBody := mkStockBody {
  stock_quantity : Z;
  stock_operation : option string
}.

(** What [updateStock] does with a request: it sends an answer, or
    [product.save()] rejects the product because the new [stockQuantity] is
    below the [min: 0] of the schema and the error is handed to [next]. *)
Inductive StockResult :=
  | StockSent (a : Answer ProductDoc)
  | StockInvalid (message : string).

Definition updateStock (user : User) (suppliers : Suppliers) (id : string) (body : StockBody)
  (docs : gmap string ProductDoc) : StockResult * gmap string ProductDoc :=
  match docs !! id with
  | None => (StockSent (Refused 404 "Product not found"), docs)
  | Some product =>
    let owned :=
      if decide (user_role user = "supplier") then
        match findSupplier suppliers (user_id user) with
        | None => inl (Refused 403 "Supplier record not found")
        | Some supplierRecord =>
          if decide (doc_supplier product = supplierRecord) then inr tt
          else inl (Refused 403 "You can only update stock for your own products")
        end
      else inr tt in
    match owned with
    | inl refusal => (StockSent refusal, docs)
    | inr _ =>
      let operation := default "set" (stock_operation body) in
      let product' :=
        if decide (operation = "add")
        then setDocStock product (docStock product + stock_quantity body)
        else setDocStock product (stock_quantity body) in
      if decide (docStock product' < 0)
      then (StockInvalid "Stock quantity cannot be negative", docs)
      else (StockSent (Answered product'), <[id := product']> docs)
    end
  end.

(** [req.query.lowStock === 'true'] and the user decide the filter of
    [getInventory]; the answer is the summary and the products. *)
Record InventoryAnswer := mkInventoryAnswer {
  inv_totalProducts : nat;
  inv_lowStockProducts : nat;
  inv_outOfStockProducts : nat;
  inv_count : nat;
  inv_data : list (string * ProductDoc)
}.

Definition isLow (d : ProductDoc) : bool := docStock d <=? doc_lowStockThreshold d.

Definition isOut (d : ProductDoc) : bool := docStock d =? 0.

(** [.sort({ stockQuantity: 1 })] *)
Definition byStock (a b : string * ProductDoc) : bool := docStock a.2 <=? docStock b.2.

(** [Product.find(filter)] for [{ isActive: true }] with the optional
    [supplier] and low stock conditions, sorted by stock. *)
Definition findInventory (supplier : option string) (lowOnly : bool)
  (docs : gmap string ProductDoc) : list (string * ProductDoc) :=
  sortBy byStock
    (List.filter
       (λ kd, isActive (doc_core kd.2)
              && from_option (λ s, bool_decide (doc_supplier kd.2 = s)) true supplier
              && (negb lowOnly || isLow kd.2))
       (map_to_list docs)).

(** The [filter.supplier] of a request: the supplier record of a supplier,
    nothing for any other role, or the 403 when a supplier has no record. *)
Definition supplierScope {A} (user : User) (suppliers : Suppliers)
  : Answer A + option string :=
  if decide (user_role user = "supplier") then
    match findSupplier suppliers (user_id user) with
    | None => inl (Refused 403 "Supplier record not found")
    | Some supplierRecord => inr (Some supplierRecord)
    end
  else inr None.

Definition getInventory (user : User) (suppliers : Suppliers) (lowStock : option string)
  (docs : gmap string ProductDoc) : Answer InventoryAnswer :=
  match supplierScope user suppliers with
  | inl refusal => refusal
  | inr scope =>
    let products := findInventory scope (bool_decide (lowStock = Some "true")) docs in
    Answered
      {| inv_totalProducts := length products;
         inv_lowStockProducts := length (List.filter (λ kd, isLow kd.2) products);
         inv_outOfStockProducts := length (List.filter (λ kd, isOut kd.2) products);
         inv_count := length products;
         inv_data := products |}
  end.

Definition getLowStockAlerts (user : User) (suppliers : Suppliers)
  (docs : gmap string ProductDoc) : Answer (nat * list (string * ProductDoc)) :=
  match supplierScope user suppliers with
  | inl refusal => refusal
  | inr scope =>
    let products := findInventory scope true docs in
    Answered (length products, products)
  end.

Definition admin : User := mkUser "u-admin" "admin".

Definition shelf : gmap string ProductDoc :=
  <["a" := mkProductDoc (mkProduct "nib" (money 5) 0 true) "s1" (Some "pens") 10]>
    (<["b" := mkProductDoc (mkProduct "pen" (money 10) 3 true) "s1" (Some "pens") 5]>
       {[ "c" := mkProductDoc (mkProduct "ink" (money 7) 40 true) "s2" None 10 ]}).

(** * The inventory report

    [getInventoryReport] of [src/backend/controllers/report.controller.js]. *)

(** An entry of [byCategory]. *)
Record CategoryEntry := mkCategoryEntry {
  cat_name : string;
  cat_count : nat;
  cat_totalValue : Qc
}.

(** [product.category || 'Uncategorized'] *)
Definition categoryOf (d : ProductDoc) : string :=
  match doc_category d with
  | Some c => if decide (c = "") then "Uncategorized" else c
  | None => "Uncategorized"
  end.

(** [p.price * p.stockQuantity] *)
Definition stockValue (ops : Arith) (d : ProductDoc) : Qc :=
  num_mul ops (price (doc_core d)) (ofInt (docStock d)).

(** The names that the empty object [byCategory = {}] already answers to,
    inherited from [Object.prototype].  For a category of such a name
    [!byCategory[category]] is false from the start: no entry is made and the
    two [+=] fall on the inherited function or object, so the category does
    not show in the answer. *)
Definition inheritedKeys : list string :=
  ["constructor"; "__defineGetter__"; "__defineSetter__"; "hasOwnProperty";
   "__lookupGetter__"; "__lookupSetter__"; "isPrototypeOf"; "propertyIsEnumerable";
   "toString"; "valueOf"; "__proto__"; "toLocaleString"].

(** The entry of the category of [d] is opened with count 0 and value 0 if
    there is none, then counted up; the entries keep the order in which they
    were opened. *)
Fixpoint countInCategory (ops : Arith) (d : ProductDoc) (cs : list CategoryEntry)
  : list CategoryEntry :=
  match cs with
  | [] => [mkCategoryEntry (categoryOf d) 1 (num_add ops 0 (stockValue ops d))]
  | c :: rest =>
    if decide (cat_name c = categoryOf d)
    then mkCategoryEntry (cat_name c) (cat_count c + 1)
                         (num_add ops (cat_totalValue c) (stockValue ops d))
         :: rest
    else c :: countInCategory ops d rest
  end.

(** One round of [products.forEach]. *)
Definition addToCategories (ops : Arith) (d : ProductDoc) (cs : list CategoryEntry)
  : list CategoryEntry :=
  if decide (categoryOf d ∈ inheritedKeys) then cs else countInCategory ops d cs.

Definition compareOption (a b : option string) : comparison :=
  match a, b with
  | None, None => Eq
  | None, Some _ => Lt
  | Some _, None => Gt
  | Some x, Some y => String.compare x y
  end.

(** [.sort({ category: 1, name: 1 })]; a product without category comes
    before the others. *)
Definition byCategoryName (a b : string * ProductDoc) : bool :=
  match compareOption (doc_category a.2) (doc_category b.2) with
  | Lt => true
  | Gt => false
  | Eq => String.leb (name (doc_core a.2)) (name (doc_core b.2))
  end.

(** The answer of [getInventoryReport].  The low stock and out of stock
    products are kept whole, with their ids; the handler sends their id, name
    and supplier (and stock and threshold for the low stock ones). *)
Record InventoryReport := mkInventoryReport {
  ir_totalProducts : nat;
  ir_totalStockValue : Qc;
  ir_lowStockCount : nat;
  ir_outOfStockCount : nat;
  ir_byCategory : list CategoryEntry;
  ir_lowStockProducts : list (string * ProductDoc);
  ir_outOfStockProducts : list (string * ProductDoc);
  ir_data : list (string * ProductDoc)
}.

Definition getInventoryReport (ops : Arith) (docs : gmap string ProductDoc)
  : InventoryReport :=
  let products :=
    sortBy byCategoryName (List.filter (λ kd, isActive (doc_core kd.2)) (map_to_list docs)) in
  let lowStockProducts := List.filter (λ kd, isLow kd.2) products in
  let outOfStockProducts := List.filter (λ kd, isOut kd.2) products in
  {| ir_totalProducts := length products;
     ir_totalStockValue :=
       fold_left (λ sum kd, num_add ops sum (stockValue ops kd.2)) products 0%Qc;
     ir_lowStockCount := length lowStockProducts;
     ir_outOfStockCount := length outOfStockProducts;
     ir_byCategory := fold_left (λ cs kd, addToCategories ops kd.2 cs) products [];
     ir_lowStockProducts := lowStockProducts;
     ir_outOfStockProducts := outOfStockProducts;
     ir_data := products |}.

(** A product is counted under category [c]: [c] is its category, or
    'Uncategorized' when it has none or an empty one. *)
Definition inCategory (c : string) (d : ProductDoc) : Prop :=
  (doc_category d = Some c ∧ c ≠ "")
  ∨ (c = "Uncategorized" ∧ (doc_category d = None ∨ doc_category d = Some "")).

#[global] Instance inCategory_dec c d : Decision (inCategory c d).
Proof. unfold inCategory. apply _. Defined.

(** The value of the products [l] as the handler adds it up: from 0, one
    product after the other. *)
Definition valueOf (ops : Arith) (l : list (string * ProductDoc)) : Qc :=
  fold_left (λ sum kd, num_add ops sum (stockValue ops kd.2)) l 0%Qc.

(** The active products of category [c] among the products listed. *)
Definition productsOfCategory (c : string) (l : list (string * ProductDoc))
  : list (string * ProductDoc) :=
  filter (λ kd, inCategory c kd.2) l.

(** * Properties *)

(** ** Product.find with [$in] *)

Section FindProducts.
Implicit Types (db : gmap string Product) (ids : list string).

Lemma elem_of_findProducts db ids k p :
  (k, p) ∈ findProducts db ids ↔ db !! k = Some p ∧ k ∈ ids.
Proof.
  unfold findProducts.
  rewrite list_elem_of_filter, elem_of_map_to_list. simpl. tauto.
Qed.

Lemma NoDup_findProducts db ids : NoDup (findProducts db ids).*1.
Proof.
  eapply sublist_NoDup; [apply (NoDup_fst_map_to_list db) |].
  apply fmap_sublist, sublist_filter.
Qed.

Lemma elem_of_findProducts_keys db ids k :
  k ∈ (findProducts db ids).*1 ↔ is_Some (db !! k) ∧ k ∈ ids.
Proof.
  rewrite list_elem_of_fmap. split.
  - intros [[k' p] [-> Hin]]. apply elem_of_findProducts in Hin as [? ?]. eauto.
  - intros [[p Hp] Hk]. exists (k, p). split; [done |].
    by apply elem_of_findProducts.
Qed.

(** The in-memory [productMap] holds exactly the stored documents of the
    requested keys. *)
Lemma lookup_productMap db ids k :
  (list_to_map (findProducts db ids) : gmap string Product) !! k
  = if decide (k ∈ ids) then db !! k else None.
Proof.
  apply option_eq. intros p.
  rewrite <- elem_of_list_to_map by apply NoDup_findProducts.
  rewrite elem_of_findProducts. case_decide; intuition congruence.
Qed.

(** [products.length === ids.length] exactly when the keys are pairwise
    distinct and each one is stored. *)
Lemma findProducts_all db ids :
  length (findProducts db ids) = length ids
  ↔ NoDup ids ∧ ∀ k, k ∈ ids → is_Some (db !! k).
Proof.
  assert (Hsub : (findProducts db ids).*1 ⊆+ ids).
  { apply NoDup_submseteq; [apply NoDup_findProducts |].
    intros k Hk. by apply elem_of_findProducts_keys in Hk as [_ ?]. }
  split.
  - intros Hlen.
    assert (Hperm : (findProducts db ids).*1 ≡ₚ ids).
    { apply submseteq_length_Permutation; [done |].
      rewrite length_fmap. lia. }
    split.
    + rewrite <- Hperm. apply NoDup_findProducts.
    + intros k Hk. rewrite <- Hperm in Hk.
      by apply elem_of_findProducts_keys in Hk as [? _].
  - intros [Hnd Hall].
    assert (Hsup : ids ⊆+ (findProducts db ids).*1).
    { apply NoDup_submseteq; [done |].
      intros k Hk. apply elem_of_findProducts_keys. auto. }
    apply submseteq_length in Hsub, Hsup.
    rewrite length_fmap in Hsub, Hsup. lia.
Qed.
End FindProducts.

(** ** The loop of createSale *)


Lemma Forall2_impl_l {A B} (P : A → Prop) (R R' : A → B → Prop) l k :
  Forall P l → Forall2 R l k → (∀ x y, P x → R x y → R' x y) → Forall2 R' l k.
Proof.
  intros HP HR Himp. revert HP.
  induction HR; inversion 1; subst; constructor; auto.
Qed.

Lemma saleLoop_inr cart : ∀ ls ls',
  saleLoop cart ls = inr ls' →
  NoDup (item_product <$> cart) →
  ∃ new,
    Forall2 (lineDone (docs ls) (docs ls')) cart new
    ∧ saleItems ls' = saleItems ls ++ new
    ∧ acc_subtotal ls' = (acc_subtotal ls + sumQc (line_subtotal <$> new))%Qc
    ∧ ∀ k, k ∉ item_product <$> cart → docs ls' !! k = docs ls !! k.
Proof.
  induction cart as [| item rest IH]; intros ls ls' Hrun Hnd; simpl in Hrun.
  - inversion Hrun; subst. exists []. split_and!; [constructor | | simpl; ring | done].
    by rewrite app_nil_r.
  - destruct (docs ls !! item_product item) as [p |] eqn:Hp; [| done].
    destruct (stockQuantity p <? item_quantity item) eqn:Hlt; [done |].
    apply Z.ltb_ge in Hlt.
    rewrite fmap_cons in Hnd. apply NoDup_cons in Hnd as [Hhd Hnd].
    destruct (IH _ _ Hrun Hnd) as (new & Hall & Hitems & Hsub & Hrest).
    simpl in Hall, Hitems, Hsub, Hrest.
    set (si := mkSaleItem (item_product item) (item_quantity item) (price p)
                          (price p * ofInt (item_quantity item))%Qc) in *.
    exists (si :: new). split_and!.
    + constructor.
      * exists p. split_and!; [done | done | done |].
        rewrite (Hrest _ Hhd). apply lookup_insert_eq.
      * eapply (Forall2_impl_l (λ it, item_product it ≠ item_product item));
          [| apply Hall |].
        { apply Forall_forall. intros it Hit Heq. apply Hhd.
          rewrite <- Heq. by apply list_elem_of_fmap_2. }
        intros it si' Hne (q & Hq & Hle & Hsi & Hq').
        exists q. split_and!; [| done | done | done].
        by rewrite lookup_insert_ne in Hq.
    + rewrite Hitems, <- app_assoc. done.
    + rewrite Hsub, fmap_cons. unfold si. cbn [sumQc foldr line_subtotal].
      fold (sumQc (line_subtotal <$> new)). ring.
    + intros k Hk. rewrite fmap_cons, not_elem_of_cons in Hk. destruct Hk as [Hne Hk].
      rewrite (Hrest _ Hk). by apply lookup_insert_ne.
Qed.

(** Every way [createSale] can end. *)
Lemma createSale_cases tz ctx body st :
  let ids := item_product <$> body_items body in
  let productMap : gmap string Product := list_to_map (findProducts (products st) ids) in
  (∃ status e, createSale tz ctx body st = (Rejected status e, st))
  ∨ (∃ final,
       NoDup ids
       ∧ (∀ k, k ∈ ids → is_Some (products st !! k))
       ∧ saleLoop (body_items body) (mkLoop productMap 0%Qc []) = inr final
       ∧ createSale tz ctx body st
         = (Created (newSale tz ctx body st final),
            mkStore (saveAll (docs final) (products st))
                    (sales st ++ [newSale tz ctx body st final]))).
Proof.
  intros ids productMap. unfold createSale. fold ids.
  destruct (length (findProducts (products st) ids) =? length (body_items body))%nat
    eqn:Hlen; simpl.
  - apply Nat.eqb_eq in Hlen.
    assert (Hall : length (findProducts (products st) ids) = length ids)
      by (unfold ids; by rewrite length_fmap).
    apply findProducts_all in Hall as [Hnd Hall].
    fold productMap.
    destruct (saleLoop (body_items body) (mkLoop productMap 0%Qc [])) as [r | final] eqn:Hloop.
    + left. clear -Hloop.
      assert (∃ status e, r = Rejected status e) as (status & e & ->); [| eauto].
      revert Hloop. generalize (mkLoop productMap 0%Qc []).
      induction (body_items body) as [| item rest IH]; intros ls Hloop; simpl in Hloop.
      * done.
      * destruct (docs ls !! item_product item) as [p |]; [| inversion Hloop; eauto].
        destruct (stockQuantity p <? item_quantity item); [inversion Hloop; eauto |].
        eauto.
    + right. exists final. split_and!; done.
  - left. eauto.
Qed.

Lemma saleLoop_total cart : ∀ ls,
  NoDup (item_product <$> cart) →
  (∀ it, it ∈ cart →
     ∃ p, docs ls !! item_product it = Some p ∧ item_quantity it ≤ stockQuantity p) →
  ∃ ls', saleLoop cart ls = inr ls'.
Proof.
  induction cart as [| item rest IH]; intros ls Hnd Hok; simpl.
  - eauto.
  - rewrite fmap_cons in Hnd. apply NoDup_cons in Hnd as [Hhd Hnd].
    destruct (Hok item) as (p & Hp & Hle); [left |].
    rewrite Hp. destruct (Z.ltb_spec (stockQuantity p) (item_quantity item)); [lia |].
    apply IH; [done |]. intros it Hit. simpl.
    destruct (Hok it) as (q & Hq & Hqle); [by right |].
    exists q. split; [| done]. rewrite lookup_insert_ne; [done |].
    intros Heq. apply Hhd. rewrite Heq. by apply list_elem_of_fmap_2.
Qed.

(** ** The steps of voidSale *)

Lemma populatedIds_Some db its ids :
  populatedIds db its = Some ids
  ↔ ids = product <$> its ∧ ∀ it, it ∈ its → is_Some (db !! product it).
Proof.
  unfold populatedIds. rewrite mapM_Some. split.
  - induction 1 as [| it y its ids Hy _ [-> IH]].
    + split; [done |]. intros it Hit. by apply elem_of_nil in Hit.
    + unfold populate in Hy.
      destruct (db !! product it) as [p |] eqn:Hp; [| done].
      simpl in Hy. inversion Hy; subst. split; [done |].
      intros it' [-> | Hit]%elem_of_cons; eauto.
  - intros [-> Hall]. apply Forall2_fmap_r, Forall_Forall2_diag, Forall_forall.
    intros it Hit. destruct (Hall it Hit) as [p Hp].
    unfold populate. by rewrite Hp.
Qed.

Lemma populatedIds_None db its :
  populatedIds db its = None ↔ ∃ it, it ∈ its ∧ db !! product it = None.
Proof.
  unfold populatedIds. rewrite mapM_None, Exists_exists.
  split; intros (it & Hit & Hnone); exists it; (split; [done |]).
  - unfold populate in Hnone. by destruct (db !! product it).
  - unfold populate. by rewrite Hnone.
Qed.

Lemma restoreLoop_spec its : ∀ ds,
  NoDup (product <$> its) →
  (∀ it, it ∈ its → is_Some (ds !! product it)) →
  (∀ it, it ∈ its →
     ∃ p, ds !! product it = Some p
          ∧ restoreLoop its ds !! product it
            = Some (setStock p (stockQuantity p + quantity it)))
  ∧ (∀ k, k ∉ product <$> its → restoreLoop its ds !! k = ds !! k).
Proof.
  induction its as [| item rest IH]; intros ds Hnd Hall.
  - split; [| done]. intros it Hit. by apply elem_of_nil in Hit.
  - rewrite fmap_cons in Hnd. apply NoDup_cons in Hnd as [Hhd Hnd].
    destruct (Hall item) as [p Hp]; [left |].
    unfold restoreLoop. cbn [fold_left]. rewrite Hp.
    set (ds1 := <[product item := setStock p (stockQuantity p + quantity item)]> ds).
    fold (restoreLoop rest ds1).
    assert (Hne : ∀ it, it ∈ rest → product item ≠ product it).
    { intros it Hit Heq. apply Hhd. rewrite Heq. by apply list_elem_of_fmap_2. }
    destruct (IH ds1 Hnd) as [Hin Hout].
    { intros it Hit. unfold ds1. rewrite lookup_insert_ne by auto.
      apply Hall. by right. }
    split.
    + intros it [-> | Hit]%elem_of_cons.
      * exists p. split; [done |]. rewrite (Hout _ Hhd). apply lookup_insert_eq.
      * destruct (Hin it Hit) as (q & Hq & Hq'). exists q. split; [| done].
        unfold ds1 in Hq. by rewrite lookup_insert_ne in Hq by auto.
    + intros k Hk. rewrite fmap_cons, not_elem_of_cons in Hk. destruct Hk as [Hk1 Hk2].
      rewrite (Hout _ Hk2). unfold ds1. by rewrite lookup_insert_ne.
Qed.

(** Every way [voidSale] can end. *)
Lemma voidSale_cases ctx id st :
  (sales st !! id = None
     ∧ voidSale ctx id st = (Rejected 404 SaleNotFound, st))
  ∨ (∃ sale, sales st !! id = Some sale ∧ isVoid sale = true
     ∧ voidSale ctx id st = (Rejected 400 AlreadyVoided, st))
  ∨ (∃ sale it, sales st !! id = Some sale ∧ isVoid sale = false
     ∧ it ∈ items sale ∧ products st !! product it = None
     ∧ voidSale ctx id st = (Thrown (TypeErrorNullProperty "_id"), st))
  ∨ (∃ sale, sales st !! id = Some sale ∧ isVoid sale = false
     ∧ (∀ it, it ∈ items sale → is_Some (products st !! product it))
     ∧ ¬ NoDup (product <$> items sale)
     ∧ voidSale ctx id st = (Rejected 404 ProductsNotFound, st))
  ∨ (∃ sale, sales st !! id = Some sale ∧ isVoid sale = false
     ∧ (∀ it, it ∈ items sale → is_Some (products st !! product it))
     ∧ NoDup (product <$> items sale)
     ∧ voidSale ctx id st = (Voided (markVoid ctx sale), voidedStore ctx id sale st)).
Proof.
  unfold voidSale.
  destruct (sales st !! id) as [sale |] eqn:Hsale; [| by left].
  right. destruct (isVoid sale) eqn:Hvoid; [left; eauto |].
  right. destruct (populatedIds (products st) (items sale)) as [ids |] eqn:Hpop.
  - right. apply populatedIds_Some in Hpop as [-> Hall].
    destruct (length (findProducts (products st) (product <$> items sale))
              =? length (product <$> items sale))%nat eqn:Hlen; simpl.
    + right. apply Nat.eqb_eq, findProducts_all in Hlen as [Hnd _].
      exists sale. split_and!; done.
    + left. apply Nat.eqb_neq in Hlen. exists sale. split_and!; [done .. | | done].
      intros Hnd. apply Hlen, findProducts_all. split; [done |].
      intros k (it & -> & Hit)%list_elem_of_fmap. auto.
  - left. apply populatedIds_None in Hpop as (it & Hit & Hnone).
    exists sale, it. split_and!; done.
Qed.

Lemma Forall2_elem_l {A B} (R : A → B → Prop) l k x :
  Forall2 R l k → x ∈ l → ∃ y, y ∈ k ∧ R x y.
Proof.
  induction 1 as [| a b l k Hab _ IH]; intros Hx.
  - by apply elem_of_nil in Hx.
  - apply elem_of_cons in Hx as [-> | Hx].
    + exists b. split; [left | done].
    + destruct (IH Hx) as (y & Hy & HR). exists y. split; [by right | done].
Qed.

Lemma Forall2_elem_r {A B} (R : A → B → Prop) l k y :
  Forall2 R l k → y ∈ k → ∃ x, x ∈ l ∧ R x y.
Proof.
  induction 1 as [| a b l k Hab _ IH]; intros Hy.
  - by apply elem_of_nil in Hy.
  - apply elem_of_cons in Hy as [-> | Hy].
    + exists a. split; [left | done].
    + destruct (IH Hy) as (x & Hx & HR). exists x. split; [by right | done].
Qed.

(** ** Stock after createSale *)

(** The stored products after a [createSale] that went through, key by key. *)
Lemma createSale_products tz ctx body st :
  isCreated (createSale tz ctx body st).1 = true →
  NoDup (item_product <$> body_items body)
  ∧ (∀ it, it ∈ body_items body →
       ∃ p, products st !! item_product it = Some p
            ∧ item_quantity it ≤ stockQuantity p
            ∧ products (createSale tz ctx body st).2 !! item_product it
              = Some (setStock p (stockQuantity p - item_quantity it)))
  ∧ (∀ k, k ∉ item_product <$> body_items body →
       products (createSale tz ctx body st).2 !! k = products st !! k).
Proof.
  intros Hok.
  destruct (createSale_cases tz ctx body st) as [(status & e & E) | (final & Hnd & Hall & Hloop & E)];
    rewrite E in *; [done |]. clear E Hok. simpl.
  split; [done |].
  destruct (saleLoop_inr _ _ _ Hloop Hnd) as (new & Hlines & _ & _ & Hrest).
  simpl in Hlines, Hrest. unfold saveAll. split.
  - intros it Hit.
    destruct (Forall2_elem_l _ _ _ _ Hlines Hit) as (si & _ & p & Hp & Hle & _ & Hp').
    rewrite lookup_productMap in Hp.
    destruct (decide (item_product it ∈ item_product <$> body_items body)); [| done].
    exists p. split_and!; [done | done |].
    by apply lookup_union_Some_l.
  - intros k Hk. rewrite lookup_union_r; [done |].
    rewrite (Hrest _ Hk), lookup_productMap. by rewrite decide_False.
Qed.

(** C3. For every cart, after createSale succeeds the stockQuantity of each
    referenced product equals its stockQuantity before the call, which was at
    least the requested quantity, minus the requested quantity. *)
Theorem createSale_decrements_stock tz ctx body st :
  isCreated (createSale tz ctx body st).1 = true →
  ∀ it, it ∈ body_items body →
    ∃ q, stockOf st (item_product it) = Some q
         ∧ item_quantity it ≤ q
         ∧ stockOf (createSale tz ctx body st).2 (item_product it)
           = Some (q - item_quantity it).
Proof.
  intros Hok it Hit.
  destruct (createSale_products _ _ _ _ Hok) as (_ & Hin & _).
  destruct (Hin it Hit) as (p & Hp & Hle & Hp').
  exists (stockQuantity p). unfold stockOf. rewrite Hp, Hp'. done.
Qed.

Lemma createSale_decrements_stock_witness :
  isCreated (createSale 0 morning (cashBody [mkCartItem "P" 3]) storeA).1 = true
  ∧ ∃ q, stockOf storeA "P" = Some q
         ∧ 3 ≤ q
         ∧ stockOf (createSale 0 morning (cashBody [mkCartItem "P" 3]) storeA).2 "P"
           = Some (q - 3).
Proof.
  split; [vm_compute; reflexivity |].
  apply (createSale_decrements_stock 0 morning (cashBody [mkCartItem "P" 3]) storeA
           ltac:(vm_compute; reflexivity) (mkCartItem "P" 3)).
  simpl. left.
Defined.

(** X1. A cart of distinct stored products with enough stock for every line is
    accepted. *)
Lemma createSale_succeeds tz ctx body st :
  NoDup (item_product <$> body_items body) →
  (∀ it, it ∈ body_items body →
     ∃ p, products st !! item_product it = Some p
          ∧ item_quantity it ≤ stockQuantity p) →
  isCreated (createSale tz ctx body st).1 = true.
Proof.
  intros Hnd Hok. unfold createSale.
  assert (Hlen : length (findProducts (products st) (item_product <$> body_items body))
                 = length (body_items body)).
  { rewrite <- (length_fmap item_product (body_items body)).
    apply findProducts_all. split; [done |].
    intros k (it & -> & Hit)%list_elem_of_fmap.
    destruct (Hok it Hit) as (p & Hp & _). eauto. }
  apply Nat.eqb_eq in Hlen. rewrite Hlen. simpl.
  edestruct (saleLoop_total (body_items body)) as [ls' ->]; [done | | done].
  intros it Hit. destruct (Hok it Hit) as (p & Hp & Hle).
  exists p. split; [| done]. simpl. rewrite lookup_productMap.
  rewrite decide_True; [done |]. by apply list_elem_of_fmap_2.
Qed.

(** C4. When createSale does not create the sale, whatever line item it
    failed on, the store it returns is the store it was given: the stock of
    every product is unchanged and no sale record has been added. *)
Theorem createSale_failure_changes_nothing tz ctx body st :
  isCreated (createSale tz ctx body st).1 = false →
  (createSale tz ctx body st).2 = st.
Proof.
  intros Hfail.
  destruct (createSale_cases tz ctx body st) as [(status & e & E) | (final & _ & _ & _ & E)];
    rewrite E in *; done.
Qed.

Lemma createSale_failure_changes_nothing_witness :
  (createSale 0 morning (cashBody cartC) storeC).1
    = Rejected 400 (InsufficientStock "B" 0 1)
  ∧ (createSale 0 morning (cashBody cartC) storeC).2 = storeC.
Proof.
  split; [vm_compute; reflexivity |].
  apply (createSale_failure_changes_nothing 0 morning (cashBody cartC) storeC).
  vm_compute. reflexivity.
Defined.

(** A line whose product is stored with less stock than requested makes
    [createSale] answer with a rejection and leave the store as it was. *)
Lemma createSale_shortage_rejected tz ctx body st it p :
  it ∈ body_items body →
  products st !! item_product it = Some p →
  stockQuantity p < item_quantity it →
  ∃ status e, createSale tz ctx body st = (Rejected status e, st).
Proof.
  intros Hit Hp Hlt.
  destruct (createSale_cases tz ctx body st) as [E | (final & Hnd & _ & Hloop & _)]; [done |].
  destruct (saleLoop_inr _ _ _ Hloop Hnd) as (new & Hlines & _).
  destruct (Forall2_elem_l _ _ _ _ Hlines Hit) as (si & _ & q & Hq & Hle & _).
  simpl in Hq. rewrite lookup_productMap in Hq.
  destruct (decide (item_product it ∈ item_product <$> body_items body)); [| done].
  rewrite Hp in Hq. inversion Hq; subst. lia.
Qed.

(** ** Stock never goes negative *)

Lemma validSaleBody_quantities body :
  validSaleBody body = true → ∀ it, it ∈ body_items body → 1 ≤ item_quantity it.
Proof.
  unfold validSaleBody. rewrite !andb_true_iff.
  intros [[[[_ Hq] _] _] _] it Hit.
  rewrite forallb_forall in Hq. apply Z.leb_le, Hq. by apply list_elem_of_In.
Qed.

Lemma postSale_keeps_invariant tz ctx body st :
  stockNonNegative st → linesNonNegative st →
  stockNonNegative (postSale tz ctx body st).2
  ∧ linesNonNegative (postSale tz ctx body st).2.
Proof.
  intros Hstock Hlines. unfold postSale, handleValidationErrors.
  destruct (validSaleBody body) eqn:Hvalid; [| done].
  pose proof (validSaleBody_quantities _ Hvalid) as Hqty.
  destruct (createSale_cases tz ctx body st)
    as [(status & e & E) | (final & Hnd & Hall & Hloop & E)]; rewrite E; [done |].
  destruct (saleLoop_inr _ _ _ Hloop Hnd) as (new & Hdone & Hitems & _ & Hrest).
  simpl in Hdone, Hitems, Hrest. simpl. split.
  - apply map_Forall_union_2; [| done].
    intros k p' Hk.
    destruct (decide (k ∈ item_product <$> body_items body)) as [Hin | Hout].
    + apply list_elem_of_fmap in Hin as (it & -> & Hit).
      destruct (Forall2_elem_l _ _ _ _ Hdone Hit) as (si & _ & p & _ & Hle & _ & Hp').
      rewrite Hp' in Hk. inversion Hk; subst. simpl. lia.
    + rewrite (Hrest _ Hout), lookup_productMap, decide_False in Hk; done.
  - unfold linesNonNegative. simpl. apply Forall_app. split; [done |].
    constructor; [| constructor]. simpl. rewrite Hitems. simpl.
    apply Forall_forall. intros si Hsi.
    destruct (Forall2_elem_r _ _ _ _ Hdone Hsi) as (it & Hit & p & _ & _ & -> & _).
    simpl. specialize (Hqty it Hit). lia.
Qed.

Lemma voidSale_keeps_invariant ctx id st :
  stockNonNegative st → linesNonNegative st →
  stockNonNegative (voidSale ctx id st).2 ∧ linesNonNegative (voidSale ctx id st).2.
Proof.
  intros Hstock Hlines.
  destruct (voidSale_cases ctx id st)
    as [[_ E] | [(? & _ & _ & E) | [(? & ? & _ & _ & _ & _ & E)
       | [(? & _ & _ & _ & _ & E) | (sale & Hsale & _ & Hall & Hnd & E)]]]];
    rewrite E; try done.
  assert (Hqty : Forall (λ si, 0 ≤ quantity si) (items sale)).
  { unfold linesNonNegative in Hlines. rewrite Forall_lookup in Hlines. eauto. }
  unfold voidedStore. simpl. split.
  - apply map_Forall_union_2; [| done].
    set (pm := list_to_map _ : gmap string Product).
    destruct (restoreLoop_spec (items sale) pm Hnd) as [Hin Hout].
    { intros it Hit. unfold pm. rewrite lookup_productMap, decide_True; [auto |].
      by apply list_elem_of_fmap_2. }
    intros k p' Hk.
    destruct (decide (k ∈ product <$> items sale)) as [Hk' | Hk'].
    + apply list_elem_of_fmap in Hk' as (it & -> & Hit).
      destruct (Hin it Hit) as (p & Hp & Hp'). rewrite Hp' in Hk.
      inversion Hk; subst. simpl.
      unfold pm in Hp. rewrite lookup_productMap in Hp.
      destruct (decide (product it ∈ product <$> items sale)); [| done].
      apply Hstock in Hp. simpl in Hp.
      rewrite Forall_forall in Hqty. specialize (Hqty it Hit). lia.
    + rewrite (Hout _ Hk') in Hk. unfold pm in Hk.
      rewrite lookup_productMap, decide_False in Hk; done.
  - unfold linesNonNegative. simpl. apply Forall_insert; [done |]. done.
Qed.

Lemma step_keeps_invariant tz op st :
  stockNonNegative st → linesNonNegative st →
  stockNonNegative (step tz op st).2 ∧ linesNonNegative (step tz op st).2.
Proof.
  destruct op as [ctx body | ctx id]; simpl.
  - apply postSale_keeps_invariant.
  - apply voidSale_keeps_invariant.
Qed.

(** C2. Starting from a store in which every stockQuantity is non-negative
    (and no persisted line item has a negative quantity), the stockQuantity
    of every product is non-negative after each request of every sequence of
    createSale and voidSale requests. *)
Theorem stock_never_negative tz ops st :
  stockNonNegative st → linesNonNegative st →
  Forall stockNonNegative (trace tz ops st).
Proof.
  revert st. induction ops as [| op rest IH]; intros st Hstock Hlines; simpl.
  - constructor.
  - destruct (step_keeps_invariant tz op st Hstock Hlines) as [Hstock' Hlines'].
    constructor; [done |]. by apply IH.
Qed.

Lemma stock_never_negative_witness :
  stockNonNegative warmStore ∧ linesNonNegative warmStore
  ∧ Forall stockNonNegative
      (trace 0 [PostSale morning (cashBody [mkCartItem "P" 7]);
                PatchVoid morning 0%nat;
                PostSale morning (cashBody [mkCartItem "P" 4])] warmStore).
Proof.
  assert (Hstock : stockNonNegative warmStore).
  { apply map_Forall_to_list. vm_compute. repeat constructor; discriminate. }
  assert (Hlines : linesNonNegative warmStore).
  { vm_compute. repeat constructor; discriminate. }
  split_and!; [done | done |].
  apply (stock_never_negative 0 _ warmStore Hstock Hlines).
Defined.

(** ** Voiding a sale *)

Lemma voidSale_already_void ctx id st sale :
  sales st !! id = Some sale → isVoid sale = true →
  voidSale ctx id st = (Rejected 400 AlreadyVoided, st).
Proof. intros Hsale Hvoid. unfold voidSale. by rewrite Hsale, Hvoid. Qed.

Lemma voidSale_goes_through ctx id st sale :
  sales st !! id = Some sale → isVoid sale = false →
  NoDup (product <$> items sale) →
  (∀ it, it ∈ items sale → is_Some (products st !! product it)) →
  voidSale ctx id st = (Voided (markVoid ctx sale), voidedStore ctx id sale st).
Proof.
  intros Hsale Hvoid Hnd Hall.
  destruct (voidSale_cases ctx id st)
    as [[E _] | [(s & E & Hv & _) | [(s & it & E & _ & Hit & Hnone & _)
       | [(s & E & _ & _ & Hdup & _) | (s & E & _ & _ & _ & Hres)]]]];
    rewrite Hsale in E; try done; inversion E; subst s.
  - congruence.
  - destruct (Hall it Hit) as [p Hp]. congruence.
  - done.
  - done.
Qed.

(** The stored products after a [voidSale] that went through, key by key. *)
Lemma voidedStore_products ctx id st sale :
  NoDup (product <$> items sale) →
  (∀ it, it ∈ items sale → is_Some (products st !! product it)) →
  (∀ it, it ∈ items sale →
     ∃ p, products st !! product it = Some p
          ∧ products (voidedStore ctx id sale st) !! product it
            = Some (setStock p (stockQuantity p + quantity it)))
  ∧ (∀ k, k ∉ product <$> items sale →
       products (voidedStore ctx id sale st) !! k = products st !! k).
Proof.
  intros Hnd Hall. unfold voidedStore, saveAll. simpl.
  set (pm := list_to_map _ : gmap string Product).
  assert (Hpm : ∀ it, it ∈ items sale → pm !! product it = products st !! product it).
  { intros it Hit. unfold pm. rewrite lookup_productMap, decide_True; [done |].
    by apply list_elem_of_fmap_2. }
  destruct (restoreLoop_spec (items sale) pm Hnd) as [Hin Hout].
  { intros it Hit. rewrite Hpm by done. auto. }
  split.
  - intros it Hit. destruct (Hin it Hit) as (p & Hp & Hp').
    exists p. rewrite <- Hpm by done. split; [done |].
    by apply lookup_union_Some_l.
  - intros k Hk. rewrite lookup_union_r; [done |].
    rewrite (Hout _ Hk). unfold pm. by rewrite lookup_productMap, decide_False.
Qed.

(** C5, as the code has it. voidSale on an existing non-void sale whose line
    items reference pairwise distinct products that are all still stored
    answers with the voided sale, adds to the stockQuantity of every line
    item's product exactly the item's quantity, leaves every other product
    alone and marks the sale void; a second voidSale on the same sale then
    fails with AlreadyVoided and changes neither the products nor the sale. *)
Theorem voidSale_restores_once ctx ctx' id st sale :
  sales st !! id = Some sale → isVoid sale = false →
  NoDup (product <$> items sale) →
  (∀ it, it ∈ items sale → is_Some (products st !! product it)) →
  (voidSale ctx id st).1 = Voided (markVoid ctx sale)
  ∧ (∀ it, it ∈ items sale →
       ∃ q, stockOf st (product it) = Some q
            ∧ stockOf (voidSale ctx id st).2 (product it) = Some (q + quantity it))
  ∧ (∀ k, k ∉ product <$> items sale →
       products (voidSale ctx id st).2 !! k = products st !! k)
  ∧ sales (voidSale ctx id st).2 !! id = Some (markVoid ctx sale)
  ∧ voidSale ctx' id (voidSale ctx id st).2
    = (Rejected 400 AlreadyVoided, (voidSale ctx id st).2).
Proof.
  intros Hsale Hvoid Hnd Hall.
  rewrite (voidSale_goes_through ctx id st sale) by done. simpl.
  destruct (voidedStore_products ctx id st sale Hnd Hall) as [Hin Hout].
  assert (Hmarked : sales (voidedStore ctx id sale st) !! id = Some (markVoid ctx sale)).
  { simpl. apply list_lookup_insert_eq. by eapply lookup_lt_Some. }
  split_and!; [done | | done | done |].
  - intros it Hit. destruct (Hin it Hit) as (p & Hp & Hp').
    exists (stockQuantity p). unfold stockOf. by rewrite Hp, Hp'.
  - by apply (voidSale_already_void ctx' id _ (markVoid ctx sale)).
Qed.

Lemma voidSale_restores_once_witness :
  stockOf warmStore "P" = Some 7
  ∧ lineKeys <$> sales warmStore !! 0%nat = Some [("P", 3)]
  ∧ stockOf (voidSale morning 0 warmStore).2 "P" = Some 10
  ∧ voidSale morning 0 (voidSale morning 0 warmStore).2
    = (Rejected 400 AlreadyVoided, (voidSale morning 0 warmStore).2).
Proof.
  destruct (sales warmStore !! 0%nat) as [sale |] eqn:Hsale; [| vm_compute in Hsale; done].
  assert (Hkeys : lineKeys sale = [("P", 3)]).
  { vm_compute in Hsale. inversion Hsale. reflexivity. }
  assert (Hvoid : isVoid sale = false).
  { vm_compute in Hsale. inversion Hsale. reflexivity. }
  assert (Hids : product <$> items sale = ["P"]).
  { vm_compute in Hsale. inversion Hsale. reflexivity. }
  destruct (voidSale_restores_once morning morning 0 warmStore sale Hsale Hvoid)
    as (_ & _ & _ & _ & Htwice).
  - rewrite Hids. apply NoDup_singleton.
  - intros it Hit. apply (list_elem_of_fmap_2 product) in Hit.
    rewrite Hids in Hit. apply list_elem_of_singleton in Hit. rewrite Hit.
    vm_compute. eauto.
  - split_and!; [vm_compute; reflexivity | by rewrite <- Hkeys
                 | vm_compute; reflexivity | exact Htwice].
Defined.

(** C5 fails as stated. Sale 0 of [orphaned] exists, is not void and has the
    lines A x 2 and B x 1; product B has been deleted since.  voidSale on it
    does not answer with the voided sale, leaves the stock of A at 3 instead
    of restoring it to 5, and leaves the sale non-void. *)
Lemma voidSale_orphaned_restores_nothing :
  isVoid <$> sales orphaned !! 0%nat = Some false
  ∧ lineKeys <$> sales orphaned !! 0%nat = Some [("A", 2); ("B", 1)]
  ∧ stockOf orphaned "A" = Some 3
  ∧ (∀ s, (voidSale morning 0 orphaned).1 ≠ Voided s)
  ∧ stockOf (voidSale morning 0 orphaned).2 "A" ≠ Some (3 + 2)
  ∧ isVoid <$> sales (voidSale morning 0 orphaned).2 !! 0%nat = Some false.
Proof.
  split_and!; try (vm_compute; reflexivity).
  - intros s. vm_compute. discriminate.
  - vm_compute. discriminate.
Qed.

(** A line item whose product is no longer stored makes [voidSale] throw
    while it collects the product ids, before the check that answers
    'One or more products not found'; the store is left as it was. *)
Lemma voidSale_missing_product_throws ctx id st sale it :
  sales st !! id = Some sale → isVoid sale = false →
  it ∈ items sale → products st !! product it = None →
  voidSale ctx id st = (Thrown (TypeErrorNullProperty "_id"), st).
Proof.
  intros Hsale Hvoid Hit Hnone. unfold voidSale. rewrite Hsale, Hvoid.
  destruct (populatedIds (products st) (items sale)) as [ids |] eqn:Hpop; [| done].
  apply populatedIds_Some in Hpop as [_ Hall].
  destruct (Hall it Hit) as [p Hp]. congruence.
Qed.

(** The answer 'One or more products not found' is given only for a sale
    whose products are all stored and two of whose lines name the same
    product. *)
Lemma voidSale_ProductsNotFound_only_for_duplicates ctx id st :
  (voidSale ctx id st).1 = Rejected 404 ProductsNotFound →
  ∃ sale, sales st !! id = Some sale
          ∧ (∀ it, it ∈ items sale → is_Some (products st !! product it))
          ∧ ¬ NoDup (product <$> items sale).
Proof.
  intros Hr.
  destruct (voidSale_cases ctx id st)
    as [[_ E] | [(? & _ & _ & E) | [(? & ? & _ & _ & _ & _ & E)
       | [(sale & Hsale & _ & Hall & Hdup & E) | (? & _ & _ & _ & _ & E)]]]];
    rewrite E in Hr; try done.
  eauto.
Qed.

(** C10. The code at the failing input: sale 0 of [orphaned] exists and is
    not void, and its line for product B refers to a product that is no
    longer stored.  voidSale restores no stock and leaves isVoid false, as
    the claim says, but it does so by throwing a TypeError handed to
    [next], not by answering that a product was not found. *)
Theorem voidSale_orphaned_throws :
  isVoid <$> sales orphaned !! 0%nat = Some false
  ∧ products orphaned !! "B" = None
  ∧ voidSale morning 0 orphaned = (Thrown (TypeErrorNullProperty "_id"), orphaned)
  ∧ (voidSale morning 0 orphaned).1 ≠ Rejected 404 ProductsNotFound.
Proof.
  split_and!; try (vm_compute; reflexivity).
  vm_compute. discriminate.
Qed.

(** ** Totals, discount and product resolution of createSale *)

Lemma createSale_created tz ctx body st :
  isCreated (createSale tz ctx body st).1 = true →
  ∃ final new,
    NoDup (item_product <$> body_items body)
    ∧ Forall2 (lineDone (list_to_map (findProducts (products st)
                                        (item_product <$> body_items body)))
                        (docs final))
              (body_items body) new
    ∧ saleItems final = new
    ∧ acc_subtotal final = sumQc (line_subtotal <$> new)
    ∧ createSale tz ctx body st
      = (Created (newSale tz ctx body st final),
         mkStore (saveAll (docs final) (products st))
                 (sales st ++ [newSale tz ctx body st final])).
Proof.
  intros Hok.
  destruct (createSale_cases tz ctx body st)
    as [(status & e & E) | (final & Hnd & Hall & Hloop & E)];
    [by rewrite E in Hok |].
  destruct (saleLoop_inr _ _ _ Hloop Hnd) as (new & Hlines & Hitems & Hsub & _).
  simpl in Hlines, Hitems, Hsub.
  exists final, new. split_and!; [done | done | done | | done].
  rewrite Hsub. ring.
Qed.

(** C6 fails as stated. One unit at 0.99 gives a persisted total of 1.1088,
    which is not the rounded 1.11. *)
Lemma createSale_total_not_rounded :
  let r := createSale 0 morning (cashBody [mkCartItem "P" 1]) storeCents in
  last (sales r.2) = createdSale r.1
  ∧ total <$> createdSale r.1 = Some (money (11088 # 10000))
  ∧ specTotal <$> createdSale r.1 = Some (money (111 # 100))
  ∧ total <$> createdSale r.1 ≠ specTotal <$> createdSale r.1.
Proof.
  split_and!.
  - vm_compute. reflexivity.
  - by_compute.
  - by_compute.
  - by_compute.
Qed.

(** C6, as the code has it. For every sale created by createSale, the sale
    is the one persisted last, its discount is 0, its subtotal is the sum
    over its line items of unit price times quantity, and its total equals
    subtotal + subtotal x 0.12 - discount exactly, without any rounding. *)
Theorem createSale_total_exact tz ctx body st :
  isCreated (createSale tz ctx body st).1 = true →
  ∃ s, (createSale tz ctx body st).1 = Created s
       ∧ last (sales (createSale tz ctx body st).2) = Some s
       ∧ discount s = 0%Qc
       ∧ subtotal s = sumQc (lineAmounts s)
       ∧ total s = (subtotal s + subtotal s * money (12 # 100) - discount s)%Qc.
Proof.
  intros Hok.
  destruct (createSale_created tz ctx body st Hok)
    as (final & new & _ & Hlines & Hitems & Hsub & E).
  rewrite E. simpl. eexists. split; [reflexivity |]. simpl. split_and!.
  - by rewrite last_snoc.
  - done.
  - rewrite Hsub. unfold lineAmounts. simpl. rewrite Hitems. f_equal.
    clear -Hlines. induction Hlines as [| it si cart new (p & _ & _ & -> & _) _ IH].
    + done.
    + rewrite !fmap_cons, IH. done.
  - unfold vatRate. ring.
Qed.

Lemma createSale_total_exact_witness :
  isCreated (createSale 0 morning (cashBody [mkCartItem "P" 3]) storeA).1 = true
  ∧ ∃ s, (createSale 0 morning (cashBody [mkCartItem "P" 3]) storeA).1 = Created s
         ∧ last (sales (createSale 0 morning (cashBody [mkCartItem "P" 3]) storeA).2)
           = Some s
         ∧ discount s = 0%Qc
         ∧ subtotal s = sumQc (lineAmounts s)
         ∧ total s = (subtotal s + subtotal s * money (12 # 100) - discount s)%Qc.
Proof.
  split; [vm_compute; reflexivity |].
  apply (createSale_total_exact 0 morning (cashBody [mkCartItem "P" 3]) storeA).
  vm_compute. reflexivity.
Defined.

(** Scenario A of the spec: subtotal 300.00, tax 36.00, total 336.00. *)
Example scenarioA_totals :
  let r := createSale 0 morning (cashBody [mkCartItem "P" 3]) storeA in
  subtotal <$> createdSale r.1 = Some (money 300)
  ∧ tax <$> createdSale r.1 = Some (money 36)
  ∧ total <$> createdSale r.1 = Some (money 336)
  ∧ stockOf r.2 "P" = Some 7.
Proof. split_and!; by_compute. Qed.

(** C7 fails as stated. The caller supplies a discount of 5, which the route
    accepts; the persisted sale has discount 0 and total 336, not 331. *)
Lemma createSale_drops_supplied_discount :
  let body := supplying (Some (money 5)) None (cashBody [mkCartItem "P" 3]) in
  let r := postSale 0 morning body storeA in
  validSaleBody body = true
  ∧ last (sales r.2) = createdSale r.1
  ∧ discount <$> createdSale r.1 = Some (money 0)
  ∧ discount <$> createdSale r.1 ≠ body_discount body
  ∧ total <$> createdSale r.1 = Some (money 336).
Proof.
  split_and!.
  - vm_compute. reflexivity.
  - vm_compute. reflexivity.
  - by_compute.
  - by_compute.
  - by_compute.
Qed.

(** C7, as the code has it. createSale never reads a supplied discount (or
    tax): the answer and the store are the same whatever the caller supplies,
    the persisted discount is always 0, the tax is 12% of the subtotal and
    total = subtotal + tax - discount. *)
Theorem createSale_discount_always_zero tz ctx body st d t :
  createSale tz ctx (supplying d t body) st = createSale tz ctx body st
  ∧ (isCreated (createSale tz ctx body st).1 = true →
     ∃ s, (createSale tz ctx body st).1 = Created s
          ∧ last (sales (createSale tz ctx body st).2) = Some s
          ∧ discount s = 0%Qc
          ∧ tax s = (subtotal s * money (12 # 100))%Qc
          ∧ total s = (subtotal s + tax s - discount s)%Qc).
Proof.
  split; [reflexivity |].
  intros Hok.
  destruct (createSale_created tz ctx body st Hok) as (final & new & _ & _ & _ & _ & E).
  rewrite E. simpl. eexists. split; [reflexivity |]. simpl. split_and!.
  - by rewrite last_snoc.
  - done.
  - done.
  - unfold vatRate. ring.
Qed.

Lemma createSale_discount_always_zero_witness :
  isCreated (createSale 0 morning (cashBody [mkCartItem "P" 3]) storeA).1 = true
  ∧ createSale 0 morning
      (supplying (Some (money 5)) None (cashBody [mkCartItem "P" 3])) storeA
    = createSale 0 morning (cashBody [mkCartItem "P" 3]) storeA
  ∧ ∃ s, (createSale 0 morning (cashBody [mkCartItem "P" 3]) storeA).1 = Created s
         ∧ last (sales (createSale 0 morning (cashBody [mkCartItem "P" 3]) storeA).2)
           = Some s
         ∧ discount s = 0%Qc
         ∧ tax s = (subtotal s * money (12 # 100))%Qc
         ∧ total s = (subtotal s + tax s - discount s)%Qc.
Proof.
  split; [vm_compute; reflexivity |].
  destruct (createSale_discount_always_zero 0 morning (cashBody [mkCartItem "P" 3])
              storeA (Some (money 5)) None) as [Hsame Hzero].
  split; [exact Hsame |].
  apply Hzero. vm_compute. reflexivity.
Defined.

(** C8 fails as stated. A cart that references the stored, inactive product
    R is not answered with NotFound: the sale is created and persisted and the
    stock of R goes down. *)
Lemma createSale_sells_inactive_product :
  let r := createSale 0 morning (cashBody [mkCartItem "R" 1]) storeRetired in
  isActive <$> products storeRetired !! "R" = Some false
  ∧ isCreated r.1 = true
  ∧ last (sales r.2) = createdSale r.1
  ∧ length (sales r.2) = 1%nat
  ∧ stockOf r.2 "R" = Some 9.
Proof. split_and!; vm_compute; reflexivity. Qed.

(** C8, as the code has it. For every cart item createSale resolves the
    productId to a stored product, whatever its active flag: a cart item whose
    product is not stored makes createSale fail with the 404 of a product not
    found and persist nothing, and when the sale is created every cart item's
    product is stored. *)
Theorem createSale_resolves_stored_products tz ctx body st :
  (∀ it, it ∈ body_items body → products st !! item_product it = None →
     ∃ missing, createSale tz ctx body st = (Rejected 404 (ProductNotFound missing), st))
  ∧ (isCreated (createSale tz ctx body st).1 = true →
     ∀ it, it ∈ body_items body → is_Some (products st !! item_product it)).
Proof.
  split.
  - intros it Hit Hnone. unfold createSale.
    destruct (length (findProducts (products st) (item_product <$> body_items body))
              =? length (body_items body))%nat eqn:Hlen; simpl; [| eauto].
    apply Nat.eqb_eq in Hlen.
    rewrite <- (length_fmap item_product (body_items body)) in Hlen.
    apply findProducts_all in Hlen as [_ Hall].
    destruct (Hall (item_product it)) as [p Hp]; [by apply list_elem_of_fmap_2 |].
    congruence.
  - intros Hok it Hit.
    destruct (createSale_products _ _ _ _ Hok) as (_ & Hin & _).
    destruct (Hin it Hit) as (p & Hp & _). eauto.
Qed.

Lemma createSale_resolves_stored_products_witness :
  (∃ missing, createSale 0 morning (cashBody [mkCartItem "Q" 1]) storeRetired
              = (Rejected 404 (ProductNotFound missing), storeRetired))
  ∧ isCreated (createSale 0 morning (cashBody [mkCartItem "R" 1]) storeRetired).1 = true
  ∧ is_Some (products storeRetired !! "R").
Proof.
  split; [| split; [vm_compute; reflexivity |]].
  - destruct (createSale_resolves_stored_products 0 morning
                (cashBody [mkCartItem "Q" 1]) storeRetired) as [Hmissing _].
    apply (Hmissing (mkCartItem "Q" 1)); [simpl; left | vm_compute; reflexivity].
  - destruct (createSale_resolves_stored_products 0 morning
                (cashBody [mkCartItem "R" 1]) storeRetired) as [_ Hstored].
    apply (Hstored ltac:(vm_compute; reflexivity) (mkCartItem "R" 1)). simpl. left.
Defined.

(** ** Sale numbers *)

(** Within one local day and before its last millisecond, a sale created at
    [t1] is counted by the next [generateSaleNumber] of that day. *)
Lemma countDocuments_counts_new_sale tz t1 t2 ss s :
  startOfLocalDay tz t2 = startOfLocalDay tz t1 →
  startOfLocalDay tz t1 ≤ t1 < endOfLocalDay tz t1 →
  createdAt s = t1 →
  countDocuments (startOfLocalDay tz t2) (endOfLocalDay tz t2) (ss ++ [s])
  = S (countDocuments (startOfLocalDay tz t2) (endOfLocalDay tz t2) ss).
Proof.
  intros Hday Hin Hs. unfold countDocuments, endOfLocalDay in *.
  rewrite filter_app, length_app, Hday.
  rewrite filter_cons_True by (rewrite Hs; lia). simpl. lia.
Qed.

(** C1. The code at the failing input: a server in UTC+8 and no sale so far.
    Two createSale calls are served one after the other on 15 January 2024
    (UTC), the calendar day that the date part of the number is taken from;
    both sales are created and both are numbered SALE-20240115-0001.  The
    count behind the sequence part is taken over the server's local day,
    which changed between the two calls. *)
Theorem sale_number_repeats_within_utc_day :
  let first := createSale manila morning (cashBody [mkCartItem "P" 1]) storeA in
  let second := createSale manila afterLocalMidnight (cashBody [mkCartItem "P" 1]) first.2 in
  now morning / msPerDay = now afterLocalMidnight / msPerDay
  ∧ issuedNumber first.1 = Some "SALE-20240115-0001"
  ∧ issuedNumber second.1 = Some "SALE-20240115-0001"
  ∧ length (sales second.2) = 2%nat.
Proof. split_and!; vm_compute; reflexivity. Qed.

(** With the server on UTC the two conventions agree, and the number still
    repeats for two sales created in the last millisecond of a day: the count
    uses [$lt] against 23:59:59.999 and misses the first of them. *)
Lemma sale_number_repeats_in_last_millisecond :
  let first := createSale 0 lastMillisecond (cashBody [mkCartItem "P" 1]) storeA in
  let second := createSale 0 lastMillisecond (cashBody [mkCartItem "P" 1]) first.2 in
  issuedNumber first.1 = Some "SALE-20240115-0001"
  ∧ issuedNumber second.1 = Some "SALE-20240115-0001".
Proof. split_and!; vm_compute; reflexivity. Qed.

(** ** Sorting *)

Section Sorting.
Context {A : Type} (before : A → A → bool).
Hypothesis before_total : ∀ x y, before x y = false → before y x = true.
Hypothesis before_trans :
  ∀ x y z, before x y = true → before y z = true → before x z = true.

Lemma insertBy_Permutation x l : insertBy before x l ≡ₚ x :: l.
Proof.
  induction l as [| y l IH]; simpl; [done |].
  destruct (before x y); [done |].
  rewrite IH. apply perm_swap.
Qed.

Lemma sortBy_Permutation l : sortBy before l ≡ₚ l.
Proof.
  induction l as [| x l IH]; simpl; [done |].
  by rewrite insertBy_Permutation, IH.
Qed.

Lemma insertBy_sorted x l :
  StronglySorted (λ a b, before a b = true) l →
  StronglySorted (λ a b, before a b = true) (insertBy before x l).
Proof.
  induction 1 as [| y l Hsorted IH Hy]; simpl.
  - repeat constructor.
  - destruct (before x y) eqn:Hxy.
    + constructor; [by constructor |].
      constructor; [done |].
      eapply Forall_impl; [apply Hy |]. intros z Hyz. by eapply before_trans.
    + constructor; [done |].
      rewrite insertBy_Permutation. constructor; [| done]. by apply before_total.
Qed.

Lemma sortBy_sorted l : StronglySorted (λ a b, before a b = true) (sortBy before l).
Proof.
  induction l as [| x l IH]; simpl; [constructor |]. by apply insertBy_sorted.
Qed.
End Sorting.

Lemma StronglySorted_weaken {A} (R R' : relation A) l :
  (∀ a b, R a b → R' a b) → StronglySorted R l → StronglySorted R' l.
Proof.
  intros HR. induction 1 as [| x l _ IH Hx]; constructor; [done |].
  eapply Forall_impl; [apply Hx |]. auto.
Qed.



(** ** Grouping *)









Lemma elem_of_unwoundItems q ss si :
  si ∈ unwoundItems q ss
  ↔ ∃ s, s ∈ ss ∧ isVoid s = false
         ∧ match q_startDate q, q_endDate q with
           | Some lo, Some hi => lo ≤ createdAt s ≤ hi
           | _, _ => True
           end
         ∧ si ∈ items s.
Proof.
  unfold unwoundItems. rewrite list_elem_of_bind.
  split.
  - intros (s & Hsi & Hs). apply list_elem_of_In, filter_In in Hs as [Hs Hm].
    apply list_elem_of_In in Hs. unfold matchFilter in Hm.
    apply andb_true_iff in Hm as [Hv Hw]. apply negb_true_iff in Hv.
    exists s. split_and!; [done | done | | done].
    destruct (q_startDate q), (q_endDate q); try done.
    apply andb_true_iff in Hw as [?%Z.leb_le ?%Z.leb_le]. lia.
  - intros (s & Hs & Hv & Hw & Hsi). exists s. split; [done |].
    apply list_elem_of_In, filter_In. split; [by apply list_elem_of_In |].
    unfold matchFilter. rewrite Hv. simpl.
    destruct (q_startDate q), (q_endDate q); try done.
    apply andb_true_iff. split; apply Z.leb_le; lia.
Qed.

(** ** The answer of getTopProducts *)









Lemma getTopProducts_returns q st :
  0 < limitOf q → ∃ out, getTopProducts q st = Some out.
Proof.
  intros Hpos. unfold getTopProducts.
  destruct (Z.leb_spec (limitOf q) 0); [lia | eauto].
Qed.




(** ** A void undoes a sale *)



(** Scenario A of the spec, to the end: the void brings the stock of P back
    to 10 and marks the sale void. *)
Example scenarioA_void :
  stockOf warmStore "P" = Some 7
  ∧ stockOf (voidSale morning 0 warmStore).2 "P" = Some 10
  ∧ isVoid <$> sales (voidSale morning 0 warmStore).2 !! 0%nat = Some true.
Proof. split_and!; vm_compute; reflexivity. Qed.

(** Scenario B of the spec: stock 2, five requested. *)
Example scenarioB_shortage :
  let st := mkStore {[ "P" := mkProduct "P" (money 100) 2 true ]} [] in
  createSale 0 morning (cashBody [mkCartItem "P" 5]) st
  = (Rejected 400 (InsufficientStock "P" 2 5), st).
Proof. vm_compute. reflexivity. Qed.

(** * Further properties of the sale engine *)

(** ** createSale: repeated products, the lines written, what is left alone *)

Lemma find_none_iff {A} (f : A → bool) (l : list A) :
  List.find f l = None ↔ ∀ x, x ∈ l → f x = false.
Proof.
  induction l as [| y l IH]; simpl.
  - split; [| done]. intros _ x Hx. by apply elem_of_nil in Hx.
  - destruct (f y) eqn:Hy.
    + split; [done |]. intros Hall. specialize (Hall y ltac:(left)). congruence.
    + rewrite IH. split.
      * intros Hall x [-> | Hx]%elem_of_cons; auto.
      * intros Hall x Hx. apply Hall. by right.
Qed.

(** X2. A cart that names the same product on two lines is answered with the 404
    of a product not found and nothing is changed, although the product may
    be stored; when every product of the cart is stored the id in the message
    is [undefined]. *)
Theorem createSale_rejects_repeated_product tz ctx body st :
  ¬ NoDup (item_product <$> body_items body) →
  (∃ missing, createSale tz ctx body st = (Rejected 404 (ProductNotFound missing), st))
  ∧ ((∀ it, it ∈ body_items body → is_Some (products st !! item_product it)) →
     createSale tz ctx body st = (Rejected 404 (ProductNotFound None), st)).
Proof.
  intros Hdup. unfold createSale.
  destruct (length (findProducts (products st) (item_product <$> body_items body))
            =? length (body_items body))%nat eqn:Hlen; simpl.
  - apply Nat.eqb_eq in Hlen.
    rewrite <- (length_fmap item_product (body_items body)) in Hlen.
    apply findProducts_all in Hlen as [Hnd _]. done.
  - split; [eauto |]. intros Hall. do 3 f_equal.
    apply find_none_iff. intros id Hid. apply bool_decide_eq_false. intros Hout.
    apply Hout, elem_of_findProducts_keys. split; [| done].
    apply list_elem_of_fmap in Hid as (it & -> & Hit). auto.
Qed.

Lemma createSale_rejects_repeated_product_witness :
  ¬ NoDup (item_product <$> body_items (cashBody [mkCartItem "P" 1; mkCartItem "P" 2]))
  ∧ createSale 0 morning (cashBody [mkCartItem "P" 1; mkCartItem "P" 2]) storeA
    = (Rejected 404 (ProductNotFound None), storeA).
Proof.
  assert (Hdup : ¬ NoDup (item_product <$>
                  body_items (cashBody [mkCartItem "P" 1; mkCartItem "P" 2]))).
  { simpl. intros Hnd. apply NoDup_cons in Hnd as [Hhd _]. apply Hhd. left. }
  split; [exact Hdup |].
  destruct (createSale_rejects_repeated_product 0 morning
              (cashBody [mkCartItem "P" 1; mkCartItem "P" 2]) storeA Hdup) as [_ Hnone].
  apply Hnone. intros it Hit. simpl in Hit.
  apply elem_of_cons in Hit as [-> | Hit]; [vm_compute; eauto |].
  apply list_elem_of_singleton in Hit as ->. vm_compute. eauto.
Defined.

(** X3. The sale created by createSale has one line per cart line, in the order
    of the cart, each with the price stored at that time; it is not void, is
    stamped with the time and the user of the request and carries the number
    generated from the sales stored before it. *)
Theorem createSale_records_cart tz ctx body st :
  isCreated (createSale tz ctx body st).1 = true →
  ∃ s, (createSale tz ctx body st).1 = Created s
       ∧ Forall2 (lineSnapshot st) (body_items body) (items s)
       ∧ isVoid s = false ∧ voidedAt s = None ∧ voidedBy s = None
       ∧ createdAt s = now ctx ∧ cashier s = user ctx
       ∧ paymentMethod s = body_paymentMethod body
       ∧ saleNumber s = generateSaleNumber tz (now ctx) (sales st).
Proof.
  intros Hok.
  destruct (createSale_created tz ctx body st Hok)
    as (final & new & _ & Hlines & Hitems & _ & E).
  rewrite E. simpl. eexists. split; [reflexivity |]. simpl.
  split_and!; try done.
  rewrite Hitems.
  eapply Forall2_impl; [apply Hlines |].
  intros it si (p & Hp & _ & -> & _). simpl.
  rewrite lookup_productMap in Hp. case_decide; [| done].
  split_and!; [done | done |]. exists p. done.
Qed.

Lemma createSale_records_cart_witness :
  isCreated (createSale 0 morning (cashBody cartC) storeAB).1 = true
  ∧ ∃ s, (createSale 0 morning (cashBody cartC) storeAB).1 = Created s
         ∧ Forall2 (lineSnapshot storeAB) cartC (items s)
         ∧ saleNumber s = "SALE-20240115-0001".
Proof.
  split; [vm_compute; reflexivity |].
  destruct (createSale_records_cart 0 morning (cashBody cartC) storeAB)
    as (s & Hs & Hlines & _ & _ & _ & _ & _ & _ & Hnum); [vm_compute; reflexivity |].
  exists s. split_and!; [done | done |]. rewrite Hnum. vm_compute. reflexivity.
Defined.

(** X4. A created sale is appended to the stored sales, which are otherwise
    left as they were, and no product outside the cart is touched: it keeps
    its stock, price, name and active flag. *)
Theorem createSale_leaves_the_rest tz ctx body st :
  isCreated (createSale tz ctx body st).1 = true →
  (∃ s, (createSale tz ctx body st).1 = Created s
        ∧ sales (createSale tz ctx body st).2 = sales st ++ [s])
  ∧ (∀ k, k ∉ item_product <$> body_items body →
       products (createSale tz ctx body st).2 !! k = products st !! k)
  ∧ dom (products (createSale tz ctx body st).2) = dom (products st).
Proof.
  intros Hok.
  destruct (createSale_products tz ctx body st Hok) as (_ & Hin & Hout).
  split_and!; [| done |].
  - destruct (createSale_created tz ctx body st Hok) as (final & new & _ & _ & _ & _ & E).
    rewrite E. simpl. eauto.
  - apply set_eq. intros k. rewrite !elem_of_dom.
    destruct (decide (k ∈ item_product <$> body_items body)) as [Hk | Hk].
    + apply list_elem_of_fmap in Hk as (it & -> & Hit).
      destruct (Hin it Hit) as (p & Hp & _ & Hp'). rewrite Hp, Hp'. split; eauto.
    + by rewrite (Hout k Hk).
Qed.

Lemma createSale_leaves_the_rest_witness :
  isCreated (createSale 0 morning (cashBody [mkCartItem "A" 2]) storeAB).1 = true
  ∧ products (createSale 0 morning (cashBody [mkCartItem "A" 2]) storeAB).2 !! "B"
    = products storeAB !! "B".
Proof.
  split; [vm_compute; reflexivity |].
  destruct (createSale_leaves_the_rest 0 morning (cashBody [mkCartItem "A" 2]) storeAB)
    as (_ & Hrest & _); [vm_compute; reflexivity |].
  apply Hrest. simpl. intros Hin. apply list_elem_of_singleton in Hin. discriminate.
Defined.

Lemma createSale_succeeds_witness :
  NoDup (item_product <$> body_items (cashBody cartC))
  ∧ isCreated (createSale 0 morning (cashBody cartC) storeAB).1 = true.
Proof.
  assert (Hnd : NoDup (item_product <$> body_items (cashBody cartC))).
  { simpl. apply NoDup_cons. split.
    - intros Hin. apply list_elem_of_singleton in Hin. discriminate.
    - apply NoDup_singleton. }
  split; [exact Hnd |].
  apply (createSale_succeeds 0 morning (cashBody cartC) storeAB Hnd).
  intros it Hit. simpl in Hit.
  apply elem_of_cons in Hit as [-> | Hit].
  - exists (mkProduct "A" (money 100) 5 true). split; [vm_compute; reflexivity | simpl; lia].
  - apply list_elem_of_singleton in Hit as ->.
    exists (mkProduct "B" (money 50) 4 true). split; [vm_compute; reflexivity | simpl; lia].
Defined.


(** ** voidSale: failures, and what a void leaves alone *)

(** X6. Whenever voidSale answers with anything but the voided sale (unknown
    sale, sale already void, a product missing, an error thrown), it has
    changed neither a product nor a sale. *)
Theorem voidSale_failure_changes_nothing ctx id st :
  (∀ s, (voidSale ctx id st).1 ≠ Voided s) → (voidSale ctx id st).2 = st.
Proof.
  intros Hfail.
  destruct (voidSale_cases ctx id st)
    as [[_ E] | [(? & _ & _ & E) | [(? & ? & _ & _ & _ & _ & E)
       | [(? & _ & _ & _ & _ & E) | (sale & _ & _ & _ & _ & E)]]]];
    rewrite E in *; try done.
  by destruct (Hfail (markVoid ctx sale)).
Qed.

Lemma voidSale_failure_changes_nothing_witness :
  (voidSale morning 7 warmStore).1 = Rejected 404 SaleNotFound
  ∧ (voidSale morning 7 warmStore).2 = warmStore.
Proof.
  split; [vm_compute; reflexivity |].
  apply (voidSale_failure_changes_nothing morning 7 warmStore).
  intros s. vm_compute. discriminate.
Defined.

(** X7. A void rewrites one sale document and only its void fields: the sale
    keeps its number, lines, totals, payment method, cashier and creation
    time, every other sale is left as it was, and no sale is added or
    removed. *)
Theorem voidSale_rewrites_only_void_fields ctx id st s' :
  (voidSale ctx id st).1 = Voided s' →
  ∃ s, sales st !! id = Some s ∧ isVoid s = false
       ∧ isVoid s' = true ∧ voidedAt s' = Some (now ctx) ∧ voidedBy s' = Some (user ctx)
       ∧ saleNumber s' = saleNumber s ∧ items s' = items s
       ∧ subtotal s' = subtotal s ∧ discount s' = discount s
       ∧ tax s' = tax s ∧ total s' = total s
       ∧ paymentMethod s' = paymentMethod s ∧ cashier s' = cashier s
       ∧ createdAt s' = createdAt s
       ∧ customerName s' = customerName s ∧ customerEmail s' = customerEmail s
       ∧ customerPhone s' = customerPhone s ∧ receiptGenerated s' = receiptGenerated s
       ∧ sales (voidSale ctx id st).2 !! id = Some s'
       ∧ (∀ j, j ≠ id → sales (voidSale ctx id st).2 !! j = sales st !! j)
       ∧ length (sales (voidSale ctx id st).2) = length (sales st).
Proof.
  intros Hr.
  destruct (voidSale_cases ctx id st)
    as [[_ E] | [(? & _ & _ & E) | [(? & ? & _ & _ & _ & _ & E)
       | [(? & _ & _ & _ & _ & E) | (sale & Hsale & Hvoid & _ & _ & E)]]]];
    rewrite E in *; try done.
  simpl in Hr. inversion Hr; subst s'. exists sale. simpl.
  split_and!; try done.
  - apply list_lookup_insert_eq. by eapply lookup_lt_Some.
  - intros j Hj. by apply list_lookup_insert_ne.
  - apply length_insert.
Qed.

Lemma voidSale_rewrites_only_void_fields_witness :
  ∃ s', (voidSale morning 0 warmStore).1 = Voided s'
        ∧ isVoid s' = true
        ∧ saleNumber s' = "SALE-20240115-0001"
        ∧ total s' = money 336
        ∧ length (sales (voidSale morning 0 warmStore).2) = length (sales warmStore).
Proof.
  destruct (voidSale morning 0 warmStore).1 as [| s' | | |] eqn:Hr;
    try (vm_compute in Hr; discriminate).
  exists s'.
  destruct (voidSale_rewrites_only_void_fields morning 0 warmStore s' Hr)
    as (s & Hs & _ & Hvoid & _ & _ & Hnum & _ & _ & _ & _ & Htotal & _ & _ & _ & _ & _ & _ & _
        & _ & _ & Hlen).
  split_and!; [reflexivity | exact Hvoid | | | exact Hlen].
  - rewrite Hnum. vm_compute in Hs. inversion Hs. reflexivity.
  - rewrite Htotal. vm_compute in Hs. inversion Hs. reflexivity.
Defined.

Lemma voidSale_missing_product_throws_witness :
  voidSale morning 0 orphaned = (Thrown (TypeErrorNullProperty "_id"), orphaned).
Proof.
  destruct (sales orphaned !! 0%nat) as [sale |] eqn:Hsale; [| vm_compute in Hsale; done].
  assert (Hvoid : isVoid sale = false).
  { vm_compute in Hsale. inversion Hsale. reflexivity. }
  assert (Hline : ∃ it, it ∈ items sale ∧ product it = "B").
  { vm_compute in Hsale. inversion Hsale. simpl. eexists. split; [right; left |]. reflexivity. }
  destruct Hline as (it & Hit & Hb).
  apply (voidSale_missing_product_throws morning 0 orphaned sale it Hsale Hvoid Hit).
  rewrite Hb. vm_compute. reflexivity.
Defined.

Lemma voidSale_ProductsNotFound_only_for_duplicates_witness :
  (voidSale morning 0 storeTwice).1 = Rejected 404 ProductsNotFound
  ∧ ∃ sale, sales storeTwice !! 0%nat = Some sale
            ∧ (∀ it, it ∈ items sale → is_Some (products storeTwice !! product it))
            ∧ ¬ NoDup (product <$> items sale).
Proof.
  split; [vm_compute; reflexivity |].
  apply (voidSale_ProductsNotFound_only_for_duplicates morning 0 storeTwice).
  vm_compute. reflexivity.
Defined.

(** ** Numbering: what a sale and a void do to the next number *)

Lemma countDocuments_counts_new_sale_witness :
  countDocuments (startOfLocalDay manila 1705291200000) (endOfLocalDay manila 1705291200000)
                 (sales warmStore ++ [saleOf "n" 1705284000000 false []])
  = S (countDocuments (startOfLocalDay manila 1705291200000)
                      (endOfLocalDay manila 1705291200000) (sales warmStore)).
Proof.
  apply (countDocuments_counts_new_sale manila 1705284000000 1705291200000).
  - vm_compute. reflexivity.
  - vm_compute. split; [discriminate | reflexivity].
  - reflexivity.
Defined.

Lemma countDocuments_insert lo hi (ss : list Sale) id s s' :
  ss !! id = Some s → createdAt s' = createdAt s →
  countDocuments lo hi (<[id := s']> ss) = countDocuments lo hi ss.
Proof.
  intros Hs Htime. unfold countDocuments.
  revert id Hs. induction ss as [| x ss IH]; intros [| id] Hs; simpl in *; try done.
  - inversion Hs; subst x. rewrite !filter_cons, Htime.
    destruct (decide (lo ≤ createdAt s ∧ createdAt s < hi)); done.
  - rewrite !filter_cons. destruct (decide (lo ≤ createdAt x ∧ createdAt x < hi)); simpl;
      rewrite (IH id Hs); done.
Qed.

(** X8. A void never frees a number: the sales counted for the next number, and
    so the number generated next, are the same before and after a voidSale,
    whatever it answers. *)
Theorem voidSale_keeps_next_number tz ctx id st t :
  generateSaleNumber tz t (sales (voidSale ctx id st).2)
  = generateSaleNumber tz t (sales st).
Proof.
  destruct (voidSale_cases ctx id st)
    as [[_ E] | [(? & _ & _ & E) | [(? & ? & _ & _ & _ & _ & E)
       | [(? & _ & _ & _ & _ & E) | (sale & Hsale & _ & _ & _ & E)]]]];
    rewrite E; try done.
  unfold generateSaleNumber. simpl.
  by rewrite (countDocuments_insert _ _ _ _ sale).
Qed.

Lemma startOfLocalDay_bounds tz t :
  startOfLocalDay tz t ≤ t < startOfLocalDay tz t + msPerDay.
Proof.
  unfold startOfLocalDay, msPerDay.
  pose proof (Z.div_mod (t + tz) 86400000 ltac:(lia)) as Hdm.
  pose proof (Z.mod_pos_bound (t + tz) 86400000 ltac:(lia)) as Hb.
  lia.
Qed.

(** X9. A sale created before the last millisecond of the server's local day is
    counted by every later numbering of that local day: the count behind the
    sequence part goes up by exactly one. *)
Theorem createSale_advances_count tz ctx body st t :
  isCreated (createSale tz ctx body st).1 = true →
  startOfLocalDay tz t = startOfLocalDay tz (now ctx) →
  now ctx < endOfLocalDay tz (now ctx) →
  countDocuments (startOfLocalDay tz t) (endOfLocalDay tz t)
                 (sales (createSale tz ctx body st).2)
  = S (countDocuments (startOfLocalDay tz t) (endOfLocalDay tz t) (sales st)).
Proof.
  intros Hok Hday Hbefore.
  destruct (createSale_created tz ctx body st Hok) as (final & new & _ & _ & _ & _ & E).
  rewrite E. simpl.
  apply (countDocuments_counts_new_sale tz (now ctx) t); [done | | done].
  pose proof (startOfLocalDay_bounds tz (now ctx)). lia.
Qed.

Lemma createSale_advances_count_witness :
  countDocuments (startOfLocalDay manila noon) (endOfLocalDay manila noon)
                 (sales (createSale manila morning (cashBody [mkCartItem "P" 1]) storeA).2)
  = 1%nat.
Proof.
  apply (createSale_advances_count manila morning (cashBody [mkCartItem "P" 1]) storeA noon);
    vm_compute; reflexivity.
Defined.

(** When no stored sale was created inside the server's local day (up to,
    but not including, its last millisecond), the number generated is the
    UTC date followed by the sequence part 0001. *)
Theorem generateSaleNumber_first_of_day tz t ss :
  (∀ s, s ∈ ss → ¬ (startOfLocalDay tz t ≤ createdAt s < endOfLocalDay tz t)) →
  generateSaleNumber tz t ss = "SALE-" +:+ isoDateStr t +:+ "-0001".
Proof.
  intros Hnone. unfold generateSaleNumber, countDocuments.
  replace (filter _ ss) with (@nil Sale); [reflexivity |].
  symmetry. induction ss as [| s ss IH]; [done |].
  rewrite filter_cons_False.
  - apply IH. intros s' Hs'. apply Hnone. by right.
  - intros [? ?]. apply (Hnone s); [left | lia].
Qed.

Lemma generateSaleNumber_first_of_day_witness :
  generateSaleNumber manila 1705338000000 (sales warmStore) = "SALE-20240115-0001".
Proof.
  rewrite (generateSaleNumber_first_of_day manila 1705338000000 (sales warmStore)).
  - vm_compute. reflexivity.
  - intros s Hs. vm_compute in Hs. apply list_elem_of_singleton in Hs as ->.
    intros [Hlo _]. vm_compute in Hlo. by apply Hlo.
Defined.

(** ** getTopProducts: completeness and the effect of a void *)



Lemma filter_matchFilter_void q ctx (ss : list Sale) id s :
  ss !! id = Some s →
  List.filter (matchFilter q) (<[id := markVoid ctx s]> ss)
  = List.filter (matchFilter q) (delete id ss).
Proof.
  revert id. induction ss as [| x ss IH]; intros [| id] Hs; simpl in *; try done.
  by rewrite (IH id Hs).
Qed.

Lemma voidedStore_names ctx id st sale k :
  NoDup (product <$> items sale) →
  (∀ it, it ∈ items sale → is_Some (products st !! product it)) →
  name <$> products (voidedStore ctx id sale st) !! k = name <$> products st !! k.
Proof.
  intros Hnd Hall.
  destruct (voidedStore_products ctx id st sale Hnd Hall) as [Hin Hout].
  destruct (decide (k ∈ product <$> items sale)) as [Hk | Hk].
  - apply list_elem_of_fmap in Hk as (it & -> & Hit).
    destruct (Hin it Hit) as (p & -> & ->). done.
  - by rewrite (Hout k Hk).
Qed.

Lemma omap_ext_all {A B} (f g : A → option B) (l : list A) :
  (∀ x, f x = g x) → omap f l = omap g l.
Proof.
  intros Hfg. induction l as [| x l IH]; [done |].
  cbn [omap list_omap]. rewrite Hfg. destruct (g x); by rewrite IH.
Qed.

Lemma voidedStore_joinedRows q ctx id st sale :
  sales st !! id = Some sale →
  NoDup (product <$> items sale) →
  (∀ it, it ∈ items sale → is_Some (products st !! product it)) →
  joinedRows q (voidedStore ctx id sale st)
  = joinedRows q (mkStore (products st) (delete id (sales st))).
Proof.
  intros Hsale Hnd Hall. unfold joinedRows. cbn [sales products].
  replace (unwoundItems q (sales (voidedStore ctx id sale st)))
    with (unwoundItems q (delete id (sales st))).
  - apply omap_ext_all. intros g. unfold joinProduct.
    pose proof (voidedStore_names ctx id st sale (g_id g) Hnd Hall) as Hname.
    destruct (products (voidedStore ctx id sale st) !! g_id g) as [p' |],
             (products st !! g_id g) as [p |]; simpl in *; congruence.
  - unfold unwoundItems. simpl. by rewrite (filter_matchFilter_void q ctx _ id sale).
Qed.

(** X11. Once a sale has been voided it takes no part in the top products: the
    answers are those the store would give without that sale and with the
    products as they were before the void. *)
Theorem voidSale_removes_lines_from_report q ctx id st s' :
  (voidSale ctx id st).1 = Voided s' →
  (∀ out, topProductsAnswer q (voidSale ctx id st).2 out
          ↔ topProductsAnswer q (mkStore (products st) (delete id (sales st))) out)
  ∧ getTopProducts q (voidSale ctx id st).2
    = getTopProducts q (mkStore (products st) (delete id (sales st))).
Proof.
  intros Hr.
  destruct (voidSale_cases ctx id st)
    as [[_ E] | [(? & _ & _ & E) | [(? & ? & _ & _ & _ & _ & E)
       | [(? & _ & _ & _ & _ & E) | (sale & Hsale & _ & Hall & Hnd & E)]]]];
    rewrite E in *; try done.
  cbn [snd]. unfold topProductsAnswer, getTopProducts.
  by rewrite (voidedStore_joinedRows q ctx id st sale Hsale Hnd Hall).
Qed.

Lemma voidSale_removes_lines_from_report_witness :
  getTopProducts anyTime (voidSale morning 0 warmStore).2 = Some [].
Proof.
  destruct (voidSale morning 0 warmStore).1 as [| s' | | |] eqn:Hr;
    try (vm_compute in Hr; discriminate).
  rewrite (proj2 (voidSale_removes_lines_from_report anyTime morning 0 warmStore s' Hr)).
  vm_compute. reflexivity.
Defined.

(** * Properties of the sales report and the revenue trends *)

(** ** Groups *)

Lemma sumQc_Permutation (l1 l2 : list Qc) : l1 ≡ₚ l2 → sumQc l1 = sumQc l2.
Proof.
  induction 1 as [| x l1 l2 _ IH | x y l | l1 l2 l3 _ IH1 _ IH2]; simpl.
  - done.
  - by rewrite IH.
  - ring.
  - by rewrite IH1.
Qed.

Lemma addToBuckets_keys key s gs :
  (addToBuckets key s gs).*1 = gs.*1 ++ (if decide (key ∈ gs.*1) then [] else [key]).
Proof.
  induction gs as [| g rest IH].
  - rewrite decide_False; [done |]. apply not_elem_of_nil.
  - cbn [addToBuckets]. rewrite !fmap_cons.
    destruct (decide (g.1 = key)) as [Heq | Hne].
    + rewrite decide_True by (rewrite Heq; left). by rewrite app_nil_r.
    + rewrite fmap_cons, IH. simpl. f_equal.
      destruct (decide (key ∈ rest.*1)) as [Hin | Hout].
      * rewrite decide_True; [done |]. by right.
      * rewrite decide_False; [done |]. rewrite not_elem_of_cons. split; [congruence | done].
Qed.

Lemma addToBuckets_lengths key s gs :
  sum_list ((λ g, length g.2) <$> addToBuckets key s gs)
  = S (sum_list ((λ g, length g.2) <$> gs)).
Proof.
  induction gs as [| g rest IH]; [done |]. cbn [addToBuckets].
  destruct (decide (g.1 = key)); rewrite !fmap_cons; cbn [sum_list_with snd].
  - rewrite length_app. simpl. lia.
  - fold (sum_list ((λ g, length g.2) <$> addToBuckets key s rest)).
    fold (sum_list ((λ g, length g.2) <$> rest)). rewrite IH. lia.
Qed.

Lemma salesOfKey_snoc_other fmt key ss s :
  dateToString fmt (createdAt s) ≠ key → salesOfKey fmt key (ss ++ [s]) = salesOfKey fmt key ss.
Proof.
  intros Hne. unfold salesOfKey.
  rewrite filter_app, filter_cons_False, filter_nil, app_nil_r; done.
Qed.

Lemma salesOfKey_snoc_same fmt ss s :
  salesOfKey fmt (dateToString fmt (createdAt s)) (ss ++ [s])
  = salesOfKey fmt (dateToString fmt (createdAt s)) ss ++ [s].
Proof.
  unfold salesOfKey. by rewrite filter_app, filter_cons_True, filter_nil.
Qed.

Lemma salesOfKey_nil fmt key ss :
  key ∉ (λ s, dateToString fmt (createdAt s)) <$> ss → salesOfKey fmt key ss = [].
Proof.
  intros Hkey. unfold salesOfKey. induction ss as [| s ss IH]; [done |].
  rewrite fmap_cons, not_elem_of_cons in Hkey. destruct Hkey as [Hne Hkey].
  rewrite filter_cons_False by congruence. auto.
Qed.

Lemma addToBuckets_groups fmt seen s gs :
  NoDup gs.*1 →
  (∀ g, g ∈ gs → g.2 = salesOfKey fmt g.1 seen) →
  (dateToString fmt (createdAt s) ∉ gs.*1 →
   dateToString fmt (createdAt s) ∉ (λ s, dateToString fmt (createdAt s)) <$> seen) →
  ∀ g', g' ∈ addToBuckets (dateToString fmt (createdAt s)) s gs →
        g'.2 = salesOfKey fmt g'.1 (seen ++ [s]).
Proof.
  set (key := dateToString fmt (createdAt s)).
  induction gs as [| g rest IH]; intros Hnd Hgs Hfresh g' Hg'; simpl in Hg'.
  - apply list_elem_of_singleton in Hg' as ->. simpl. unfold key.
    rewrite salesOfKey_snoc_same.
    by rewrite salesOfKey_nil by (apply Hfresh, not_elem_of_nil).
  - rewrite fmap_cons in Hnd. apply NoDup_cons in Hnd as [Hhd Hnd].
    destruct (decide (g.1 = key)) as [Heq | Hne].
    + apply elem_of_cons in Hg' as [-> | Hg']; simpl.
      * rewrite Heq. unfold key. rewrite salesOfKey_snoc_same. fold key.
        rewrite <- Heq, <- (Hgs g) by left. done.
      * rewrite salesOfKey_snoc_other; [apply Hgs; by right |].
        intros Hsame. apply Hhd. fold key in Hsame. rewrite Heq, Hsame.
        by apply list_elem_of_fmap_2.
    + apply elem_of_cons in Hg' as [-> | Hg'].
      * rewrite salesOfKey_snoc_other by (fold key; congruence). apply Hgs. left.
      * apply IH; [done | | | done].
        -- intros g0 Hg0. apply Hgs. by right.
        -- intros Hout. apply Hfresh. rewrite fmap_cons, not_elem_of_cons.
           split; [congruence | done].
Qed.

Lemma groupsByDate_groupsOfDates fmt ss : groupsOfDates fmt ss (groupsByDate fmt ss).
Proof.
  unfold groupsByDate.
  assert (Hgen : ∀ seen gs, groupsOfDates fmt seen gs →
    groupsOfDates fmt (seen ++ ss)
      (fold_left (λ gs s, addToBuckets (dateToString fmt (createdAt s)) s gs) ss gs)).
  { induction ss as [| s ss IH]; intros seen gs Hinv; simpl.
    - by rewrite app_nil_r.
    - replace (seen ++ s :: ss) with ((seen ++ [s]) ++ ss) by (by rewrite <- app_assoc).
      apply IH. destruct Hinv as (Hnd & Hgs & Hids). split_and!.
      + rewrite addToBuckets_keys. case_decide as Hin; [by rewrite app_nil_r |].
        apply NoDup_app. split_and!; [done | | apply NoDup_singleton].
        intros id Hid ->%list_elem_of_singleton. done.
      + apply addToBuckets_groups; [done | done |]. intros Hout. by rewrite <- Hids.
      + intros key. rewrite addToBuckets_keys, fmap_app, !elem_of_app, Hids. simpl.
        rewrite list_elem_of_singleton. case_decide as Hin.
        * rewrite elem_of_nil. apply Hids in Hin. split; [tauto |].
          intros [? | ->]; auto.
        * rewrite list_elem_of_singleton. tauto. }
  apply (Hgen [] []). split_and!; [constructor | |].
  - intros g Hg. by apply elem_of_nil in Hg.
  - intros key. simpl. by rewrite !elem_of_nil.
Qed.

Lemma groupByDate_counts ops fmt ss :
  sum_list (b_count <$> groupByDate ops fmt ss) = length ss.
Proof.
  unfold groupByDate, groupsByDate. rewrite <- list_fmap_compose.
  assert (Hgen : ∀ gs,
    sum_list ((λ g, length g.2) <$> fold_left
      (λ gs s, addToBuckets (dateToString fmt (createdAt s)) s gs) ss gs)
    = (sum_list ((λ g, length g.2) <$> gs) + length ss)%nat).
  { induction ss as [| s ss IH]; intros gs; simpl; [lia |].
    rewrite IH, addToBuckets_lengths. lia. }
  apply (Hgen []).
Qed.

Lemma groupByDate_buckets ops fmt ss :
  NoDup (b_id <$> groupByDate ops fmt ss)
  ∧ (∀ b, b ∈ groupByDate ops fmt ss →
       b = bucketOf ops fmt (b_id b) ss ∧ (1 ≤ b_count b)%nat)
  ∧ (∀ key, key ∈ b_id <$> groupByDate ops fmt ss
            ↔ key ∈ (λ s, dateToString fmt (createdAt s)) <$> ss).
Proof.
  destruct (groupsByDate_groupsOfDates fmt ss) as (Hnd & Hgs & Hids).
  assert (Hkeys : b_id <$> groupByDate ops fmt ss = (groupsByDate fmt ss).*1).
  { unfold groupByDate. by rewrite <- list_fmap_compose. }
  rewrite Hkeys. split_and!; [done | | done].
  intros b Hb. unfold groupByDate in Hb.
  apply list_elem_of_fmap in Hb as (g & -> & Hg).
  unfold bucketOfGroup, bucketOf. simpl. rewrite (Hgs g Hg). split; [done |].
  assert (Hkey : g.1 ∈ (groupsByDate fmt ss).*1) by (by apply list_elem_of_fmap_2).
  apply Hids, list_elem_of_fmap in Hkey as (s & Hkey & Hs).
  assert (Hin : s ∈ salesOfKey fmt g.1 ss) by (by apply list_elem_of_filter).
  destruct (salesOfKey fmt g.1 ss); [by apply elem_of_nil in Hin | simpl; lia].
Qed.

(** ** The sales report *)

Lemma filter_inReportWindow tz start end_ ss :
  List.filter (inReportWindow tz start end_) ss = reported tz start end_ ss.
Proof.
  unfold reported. induction ss as [| s ss IH]; [done |]. simpl.
  destruct (inReportWindow tz start end_ s) eqn:Hs; unfold inReportWindow in Hs.
  - rewrite !andb_true_iff, negb_true_iff, !Z.leb_le in Hs.
    rewrite filter_cons_True by tauto. by rewrite IH.
  - rewrite filter_cons_False; [done |]. intros (Hlive & Hlo & Hhi).
    rewrite Hlive in Hs. apply Z.leb_le in Hlo, Hhi. rewrite Hlo, Hhi in Hs. done.
Qed.

Lemma elem_of_reported tz start end_ ss s :
  s ∈ reported tz start end_ ss
  ↔ s ∈ ss ∧ start ≤ createdAt s ≤ endOfLocalDay tz end_ ∧ isVoid s = false.
Proof. unfold reported. rewrite list_elem_of_filter. tauto. Qed.

Lemma getSalesReport_answered ops tz q ss rep :
  getSalesReport ops tz q ss = Answered rep →
  ∃ start end_,
    rq_startDate q = Some start ∧ rq_endDate q = Some end_
    ∧ sum_totalSales (rep_summary rep) = length (reported tz start end_ ss)
    ∧ sum_totalRevenue (rep_summary rep)
      = (if (0 <? length (reported tz start end_ ss))%nat
         then db_sum ops (total <$> reported tz start end_ ss) else 0%Qc)
    ∧ sum_totalVAT (rep_summary rep)
      = (if (0 <? length (reported tz start end_ ss))%nat
         then db_sum ops (tax <$> reported tz start end_ ss) else 0%Qc)
    ∧ sum_averageSaleValue (rep_summary rep)
      = (if (0 <? length (reported tz start end_ ss))%nat
         then num_div ops (db_sum ops (total <$> reported tz start end_ ss))
                      (ofInt (Z.of_nat (length (reported tz start end_ ss))))
         else 0%Qc)
    ∧ rep_salesByDate rep
      = sortBy byDateKey (groupByDate ops FormatYmd (reported tz start end_ ss))
    ∧ rep_data rep = take 100 (sortBy newestFirst (reported tz start end_ ss)).
Proof.
  unfold getSalesReport.
  destruct (rq_startDate q) as [start |]; [| done].
  destruct (rq_endDate q) as [end_ |]; [| done].
  rewrite filter_inReportWindow.
  intros Hrep. exists start, end_. split; [done |]. split; [done |].
  destruct (reported tz start end_ ss) as [| s matched] eqn:Hm;
    simpl in Hrep; inversion Hrep; subst rep; simpl; split_and!; done.
Qed.

(** X12. The report counts the sales that are not void and were created
    between the start date and the end of the local day of the end date;
    totalRevenue and totalVAT are the database's sums of their totals and
    taxes, 0 when there is none; and the counts of the per-date entries add
    up to totalSales. *)
Theorem getSalesReport_adds_up ops tz q ss rep :
  getSalesReport ops tz q ss = Answered rep →
  ∃ start end_,
    rq_startDate q = Some start ∧ rq_endDate q = Some end_
    ∧ sum_totalSales (rep_summary rep)
      = length (filter (λ s, isVoid s = false
                             ∧ start ≤ createdAt s ≤ endOfLocalDay tz end_) ss)
    ∧ (sum_totalSales (rep_summary rep) ≠ 0%nat →
       sum_totalRevenue (rep_summary rep)
       = db_sum ops (total <$> filter (λ s, isVoid s = false
                                            ∧ start ≤ createdAt s ≤ endOfLocalDay tz end_) ss)
       ∧ sum_totalVAT (rep_summary rep)
         = db_sum ops (tax <$> filter (λ s, isVoid s = false
                                            ∧ start ≤ createdAt s ≤ endOfLocalDay tz end_) ss))
    ∧ sum_list (b_count <$> rep_salesByDate rep) = sum_totalSales (rep_summary rep).
Proof.
  intros Hrep.
  destruct (getSalesReport_answered ops tz q ss rep Hrep)
    as (start & end_ & Hs & He & Hn & Hrev & Hvat & _ & Hby & _).
  exists start, end_. fold (reported tz start end_ ss). split_and!; try done.
  - intros Hpos. rewrite Hn in Hpos. rewrite Hrev, Hvat.
    destruct (reported tz start end_ ss); done.
  - rewrite Hby, Hn, <- (groupByDate_counts ops FormatYmd (reported tz start end_ ss)).
    apply (sum_list_with_Permutation_proper id), fmap_Permutation, sortBy_Permutation.
Qed.

Lemma getSalesReport_adds_up_witness :
  ∃ rep, getSalesReport exactArith 0 january ledger = Answered rep
         ∧ sum_totalSales (rep_summary rep) = 3%nat
         ∧ sum_list (b_count <$> rep_salesByDate rep) = sum_totalSales (rep_summary rep).
Proof.
  destruct (getSalesReport exactArith 0 january ledger) as [rep | ? ?] eqn:Hrep;
    [| vm_compute in Hrep; discriminate].
  exists rep.
  destruct (getSalesReport_adds_up exactArith 0 january ledger rep Hrep)
    as (start & end_ & Hs & He & Hn & _ & Hcount).
  split_and!; [reflexivity | | exact Hcount].
  vm_compute in Hrep. inversion Hrep. reflexivity.
Defined.

(** X13. With no sale to report, every figure of the summary is 0 and both
    lists are empty: the average is never a division by zero.  With at least
    one, the average is totalRevenue divided by totalSales. *)
Theorem getSalesReport_average ops tz q ss rep :
  getSalesReport ops tz q ss = Answered rep →
  (sum_totalSales (rep_summary rep) = 0%nat →
   sum_totalRevenue (rep_summary rep) = 0%Qc
   ∧ sum_totalVAT (rep_summary rep) = 0%Qc
   ∧ sum_averageSaleValue (rep_summary rep) = 0%Qc
   ∧ rep_salesByDate rep = [] ∧ rep_data rep = [])
  ∧ (sum_totalSales (rep_summary rep) ≠ 0%nat →
     sum_averageSaleValue (rep_summary rep)
     = num_div ops (sum_totalRevenue (rep_summary rep))
                   (ofInt (Z.of_nat (sum_totalSales (rep_summary rep))))
     ∧ rep_salesByDate rep ≠ [] ∧ rep_data rep ≠ []).
Proof.
  intros Hrep.
  destruct (getSalesReport_answered ops tz q ss rep Hrep)
    as (start & end_ & _ & _ & Hn & Hrev & Hvat & Havg & Hby & Hdata).
  rewrite Hn, Hrev, Hvat, Havg, Hby, Hdata.
  destruct (reported tz start end_ ss) as [| s matched] eqn:Hm; simpl length.
  - split; [done |]. intros Hpos. done.
  - split; [done |]. intros _.
    replace (0 <? S (length matched))%nat with true
      by (symmetry; apply Nat.ltb_lt; lia).
    split_and!; [done | |].
    + intros Hnil.
      pose proof (groupByDate_counts ops FormatYmd (s :: matched)) as Hcount.
      assert (Hlen : length (sortBy byDateKey (groupByDate ops FormatYmd (s :: matched)))
                     = length (groupByDate ops FormatYmd (s :: matched)))
        by (by rewrite sortBy_Permutation).
      rewrite Hnil in Hlen.
      destruct (groupByDate ops FormatYmd (s :: matched)); simpl in *; lia.
    + intros Hnil.
      assert (Hlen : length (take 100 (sortBy newestFirst (s :: matched))) = 0%nat)
        by (by rewrite Hnil).
      rewrite length_take in Hlen.
      assert (Hl : length (sortBy newestFirst (s :: matched)) = S (length matched)).
      { by rewrite sortBy_Permutation. }
      lia.
Qed.

Lemma getSalesReport_average_witness :
  ∃ rep, getSalesReport exactArith 0 january ledger = Answered rep
         ∧ sum_averageSaleValue (rep_summary rep)
           = num_div exactArith (sum_totalRevenue (rep_summary rep))
                     (ofInt (Z.of_nat (sum_totalSales (rep_summary rep)))).
Proof.
  destruct (getSalesReport exactArith 0 january ledger) as [rep | ? ?] eqn:Hrep;
    [| vm_compute in Hrep; discriminate].
  exists rep. split; [reflexivity |].
  apply (getSalesReport_average exactArith 0 january ledger rep Hrep).
  vm_compute in Hrep. inversion Hrep. simpl. discriminate.
Defined.

Section SortingTotal.
Context {A : Type} (before : A → A → bool).
Hypothesis before_total : ∀ x y, before x y = true ∨ before y x = true.

Lemma insertBy_HdRel y x l :
  before y x = true → HdRel (λ a b, before a b = true) y l →
  HdRel (λ a b, before a b = true) y (insertBy before x l).
Proof.
  intros Hyx Hy. destruct l as [| z l]; simpl; [by constructor |].
  destruct (before x z); constructor; [done |]. by inversion Hy.
Qed.

Lemma insertBy_Sorted x l :
  Sorted (λ a b, before a b = true) l →
  Sorted (λ a b, before a b = true) (insertBy before x l).
Proof.
  induction 1 as [| y l Hsorted IH Hy]; simpl.
  - repeat constructor.
  - destruct (before x y) eqn:Hxy.
    + constructor; [by constructor |]. by constructor.
    + constructor; [done |]. apply insertBy_HdRel; [| done].
      destruct (before_total y x); congruence.
Qed.

Lemma sortBy_Sorted l : Sorted (λ a b, before a b = true) (sortBy before l).
Proof.
  induction l as [| x l IH]; simpl; [constructor |]. by apply insertBy_Sorted.
Qed.
End SortingTotal.

Lemma sortBy_byDateKey_Sorted bs :
  Sorted (λ a b, String.leb (b_id a) (b_id b) = true) (sortBy byDateKey bs).
Proof. apply (sortBy_Sorted byDateKey). intros x y. apply String.leb_total. Qed.

(** X14. The per-date entries of the report: one entry per date (UTC) on
    which a reported sale was created, holding the number of reported sales
    of that date and the database's sum of their totals, in ascending order
    of the date string. *)
Theorem getSalesReport_entries ops tz q ss rep :
  getSalesReport ops tz q ss = Answered rep →
  ∃ start end_,
    rq_startDate q = Some start ∧ rq_endDate q = Some end_
    ∧ NoDup (b_id <$> rep_salesByDate rep)
    ∧ (∀ b, b ∈ rep_salesByDate rep →
         b = bucketOf ops FormatYmd (b_id b) (reported tz start end_ ss)
         ∧ (1 ≤ b_count b)%nat)
    ∧ (∀ s, s ∈ reported tz start end_ ss →
         dateToString FormatYmd (createdAt s) ∈ b_id <$> rep_salesByDate rep)
    ∧ Sorted (λ a b, String.leb (b_id a) (b_id b) = true) (rep_salesByDate rep).
Proof.
  intros Hrep.
  destruct (getSalesReport_answered ops tz q ss rep Hrep)
    as (start & end_ & Hs & He & _ & _ & _ & _ & Hby & _).
  exists start, end_. split; [done |]. split; [done |]. rewrite Hby.
  destruct (groupByDate_buckets ops FormatYmd (reported tz start end_ ss))
    as (Hnd & Hbs & Hids).
  split_and!.
  - by rewrite sortBy_Permutation.
  - intros b Hb. rewrite sortBy_Permutation in Hb. by apply Hbs.
  - intros s Hs'. rewrite sortBy_Permutation. apply Hids.
    by apply (list_elem_of_fmap_2 (λ s, dateToString FormatYmd (createdAt s))).
  - apply sortBy_byDateKey_Sorted.
Qed.

Lemma getSalesReport_entries_witness :
  ∃ rep, getSalesReport exactArith 0 january ledger = Answered rep
         ∧ (λ b, (b_id b, b_count b)) <$> rep_salesByDate rep
           = [("2024-01-14", 1%nat); ("2024-01-15", 2%nat)]
         ∧ NoDup (b_id <$> rep_salesByDate rep).
Proof.
  destruct (getSalesReport exactArith 0 january ledger) as [rep | ? ?] eqn:Hrep;
    [| vm_compute in Hrep; discriminate].
  exists rep.
  destruct (getSalesReport_entries exactArith 0 january ledger rep Hrep)
    as (start & end_ & _ & _ & Hnd & _).
  split_and!; [reflexivity | | exact Hnd].
  vm_compute in Hrep. inversion Hrep. reflexivity.
Defined.

Lemma newestFirst_sorted ss :
  StronglySorted (λ a b, createdAt b ≤ createdAt a) (sortBy newestFirst ss).
Proof.
  apply (StronglySorted_weaken (λ a b, newestFirst a b = true)).
  - intros a b Hab. by apply Z.leb_le.
  - apply sortBy_sorted.
    + intros x y Hxy. unfold newestFirst in *. apply Z.leb_le. apply Z.leb_gt in Hxy. lia.
    + intros x y z Hxy Hyz. unfold newestFirst in *. apply Z.leb_le.
      apply Z.leb_le in Hxy, Hyz. lia.
Qed.

(** X15. The sales listed with the report are at most 100, every one of them is
    a reported sale, they are listed newest first, and no sale left out is
    newer than a sale listed; up to 100 reported sales are all listed. *)
Theorem getSalesReport_data ops tz q ss rep :
  getSalesReport ops tz q ss = Answered rep →
  ∃ start end_,
    rq_startDate q = Some start ∧ rq_endDate q = Some end_
    ∧ (length (rep_data rep) ≤ 100)%nat
    ∧ (∀ s, s ∈ rep_data rep → s ∈ reported tz start end_ ss)
    ∧ StronglySorted (λ a b, createdAt b ≤ createdAt a) (rep_data rep)
    ∧ ((length (reported tz start end_ ss) ≤ 100)%nat →
       rep_data rep ≡ₚ reported tz start end_ ss)
    ∧ (∃ rest, rep_data rep ++ rest ≡ₚ reported tz start end_ ss
               ∧ ∀ s s', s ∈ rep_data rep → s' ∈ rest → createdAt s' ≤ createdAt s).
Proof.
  intros Hrep.
  destruct (getSalesReport_answered ops tz q ss rep Hrep)
    as (start & end_ & Hs & He & _ & _ & _ & _ & _ & Hdata).
  exists start, end_. split; [done |]. split; [done |]. rewrite Hdata.
  pose proof (newestFirst_sorted (reported tz start end_ ss)) as Hsorted.
  rewrite <- (take_drop 100 (sortBy newestFirst (reported tz start end_ ss))) in Hsorted.
  split_and!.
  - rewrite length_take. lia.
  - intros s Hs'. apply subseteq_take in Hs'. by rewrite sortBy_Permutation in Hs'.
  - by apply StronglySorted_app_1_l in Hsorted.
  - intros Hfit. rewrite take_ge; [apply sortBy_Permutation |].
    by rewrite sortBy_Permutation.
  - exists (drop 100 (sortBy newestFirst (reported tz start end_ ss))). split.
    + rewrite take_drop. apply sortBy_Permutation.
    + intros s s' Hs' Hs''.
      by apply (StronglySorted_app_1_elem_of _ _ _ _ _ Hsorted Hs' Hs'').
Qed.

Lemma getSalesReport_data_witness :
  ∃ rep, getSalesReport exactArith 0 january ledger = Answered rep
         ∧ saleNumber <$> rep_data rep
           = ["SALE-20240115-0003"; "SALE-20240115-0001"; "SALE-20240114-0001"]
         ∧ StronglySorted (λ a b, createdAt b ≤ createdAt a) (rep_data rep).
Proof.
  destruct (getSalesReport exactArith 0 january ledger) as [rep | ? ?] eqn:Hrep;
    [| vm_compute in Hrep; discriminate].
  exists rep.
  destruct (getSalesReport_data exactArith 0 january ledger rep Hrep)
    as (start & end_ & _ & _ & _ & _ & Hsorted & _).
  split_and!; [reflexivity | | exact Hsorted].
  vm_compute in Hrep. inversion Hrep. reflexivity.
Defined.

Lemma reported_after_void tz start end_ ctx (ss : list Sale) id s :
  ss !! id = Some s →
  reported tz start end_ (<[id := markVoid ctx s]> ss)
  = reported tz start end_ (delete id ss).
Proof.
  unfold reported.
  revert id. induction ss as [| x ss IH]; intros [| id] Hs; [done | done | |].
  - change (<[0%nat := markVoid ctx s]> (x :: ss)) with (markVoid ctx s :: ss).
    change (delete 0%nat (x :: ss)) with ss.
    rewrite filter_cons_False; [done |]. simpl. by intros [? _].
  - change (<[S id := markVoid ctx s]> (x :: ss)) with (x :: <[id := markVoid ctx s]> ss).
    change (delete (S id) (x :: ss)) with (x :: delete id ss).
    rewrite !filter_cons. by rewrite (IH id Hs).
Qed.

Lemma reported_with tz start end_ (ss : list Sale) id s :
  ss !! id = Some s →
  isVoid s = false → start ≤ createdAt s ≤ endOfLocalDay tz end_ →
  reported tz start end_ ss ≡ₚ s :: reported tz start end_ (delete id ss).
Proof.
  unfold reported.
  revert id. induction ss as [| x ss IH]; intros [| id] Hs Hlive Hin; [done | done | |].
  - change (delete 0%nat (x :: ss)) with ss.
    inversion Hs; subst x. by rewrite filter_cons_True.
  - change (delete (S id) (x :: ss)) with (x :: delete id ss).
    rewrite !filter_cons. case_decide.
    + rewrite (IH id Hs Hlive Hin). apply perm_swap.
    + by apply IH.
Qed.

(** X16. A void takes a sale out of the reports: the sales report and the
    revenue trends made after the void are those of the stored sales without
    the voided one, and when that sale was created inside the window the
    report counts one sale less than before. *)
Theorem voidSale_lowers_report ops tz ctx id st s' :
  (voidSale ctx id st).1 = Voided s' →
  (∀ q, getSalesReport ops tz q (sales (voidSale ctx id st).2)
        = getSalesReport ops tz q (delete id (sales st)))
  ∧ (∀ q, getRevenueTrends ops tz q (sales (voidSale ctx id st).2)
          = getRevenueTrends ops tz q (delete id (sales st)))
  ∧ (∀ q start end_ rep rep',
       rq_startDate q = Some start → rq_endDate q = Some end_ →
       start ≤ createdAt s' ≤ endOfLocalDay tz end_ →
       getSalesReport ops tz q (sales st) = Answered rep →
       getSalesReport ops tz q (sales (voidSale ctx id st).2) = Answered rep' →
       sum_totalSales (rep_summary rep) = S (sum_totalSales (rep_summary rep'))
       ∧ s' ∉ rep_data rep').
Proof.
  intros Hr.
  assert (Hvoided : ∃ s, sales st !! id = Some s ∧ isVoid s = false ∧ s' = markVoid ctx s
                         ∧ sales (voidSale ctx id st).2 = <[id := markVoid ctx s]> (sales st)).
  { destruct (voidSale_cases ctx id st)
      as [[_ E] | [(? & _ & _ & E) | [(? & ? & _ & _ & _ & _ & E)
         | [(? & _ & _ & _ & _ & E) | (sale & Hsale & Hlive & _ & _ & E)]]]];
      rewrite E in *; try done.
    simpl in Hr. inversion Hr. by exists sale. }
  destruct Hvoided as (s & Hs & Hlive & -> & Hafter).
  rewrite Hafter. split_and!.
  - intros q. unfold getSalesReport.
    destruct (rq_startDate q) as [start |]; [| done].
    destruct (rq_endDate q) as [end_ |]; [| done].
    by rewrite !filter_inReportWindow, (reported_after_void tz start end_ ctx _ id s Hs).
  - intros q. unfold getRevenueTrends.
    destruct (rq_startDate q) as [start |]; [| done].
    destruct (rq_endDate q) as [end_ |]; [| done].
    by rewrite !filter_inReportWindow, (reported_after_void tz start end_ ctx _ id s Hs).
  - intros q start end_ rep rep' Hstart Hend Hwin Hrep Hrep'.
    destruct (getSalesReport_answered _ _ _ _ _ Hrep)
      as (a & b & Ha & Hb & Hn & _).
    destruct (getSalesReport_answered _ _ _ _ _ Hrep')
      as (a' & b' & Ha' & Hb' & Hn' & _ & _ & _ & _ & Hdata').
    rewrite Hstart in Ha, Ha'. rewrite Hend in Hb, Hb'.
    inversion Ha; inversion Ha'; inversion Hb; inversion Hb'; subst a a' b b'.
    rewrite (reported_after_void tz start end_ ctx _ id s Hs) in Hn', Hdata'.
    simpl in Hwin.
    pose proof (reported_with tz start end_ _ id s Hs Hlive Hwin) as Hperm.
    split.
    + by rewrite Hn, Hn', Hperm.
    + rewrite Hdata'. intros Hin. apply subseteq_take in Hin.
      rewrite sortBy_Permutation in Hin.
      apply elem_of_reported in Hin as (_ & _ & Hvoid). done.
Qed.

Lemma voidSale_lowers_report_witness :
  ∃ s' rep rep',
    (voidSale morning 1 ledgerStore).1 = Voided s'
    ∧ getSalesReport exactArith 0 january (sales ledgerStore) = Answered rep
    ∧ getSalesReport exactArith 0 january (sales (voidSale morning 1 ledgerStore).2)
      = Answered rep'
    ∧ sum_totalSales (rep_summary rep) = 3%nat
    ∧ sum_totalSales (rep_summary rep) = S (sum_totalSales (rep_summary rep')).
Proof.
  destruct (voidSale morning 1 ledgerStore).1 as [| s' | | |] eqn:Hr;
    try (vm_compute in Hr; discriminate).
  destruct (getSalesReport exactArith 0 january (sales ledgerStore)) as [rep | ? ?] eqn:Hrep;
    [| vm_compute in Hrep; discriminate].
  destruct (getSalesReport exactArith 0 january (sales (voidSale morning 1 ledgerStore).2))
    as [rep' | ? ?] eqn:Hrep'; [| vm_compute in Hrep'; discriminate].
  exists s', rep, rep'.
  destruct (voidSale_lowers_report exactArith 0 morning 1 ledgerStore s' Hr) as (_ & _ & Hless).
  destruct (Hless january 1704067200000 1706659200000 rep rep' eq_refl eq_refl)
    as [Hn _]; [| exact Hrep | exact Hrep' |].
  - vm_compute in Hr. inversion Hr. vm_compute. split; discriminate.
  - split_and!; [reflexivity | reflexivity | reflexivity | | exact Hn].
    vm_compute in Hrep. inversion Hrep. reflexivity.
Defined.

(** ** The revenue trends *)

Lemma getRevenueTrends_answered ops tz q ss points :
  getRevenueTrends ops tz q ss = Answered points →
  ∃ start end_,
    rq_startDate q = Some start ∧ rq_endDate q = Some end_
    ∧ points = projectTrend <$>
                 sortBy byDateKey
                   (groupByDate ops (trendFormat (rq_groupBy q)) (reported tz start end_ ss)).
Proof.
  unfold getRevenueTrends.
  destruct (rq_startDate q) as [start |]; [| done].
  destruct (rq_endDate q) as [end_ |]; [| done].
  rewrite filter_inReportWindow.
  intros [= <-]. by exists start, end_.
Qed.

(** X17. Whatever the grouping (day, week, month or anything else), the
    trend has one point per date string, each counting at least one sale, and
    the sales of its points add up to the totalSales of the sales report over
    the same dates. *)
Theorem getRevenueTrends_adds_up_to_report ops tz q ss points rep :
  getRevenueTrends ops tz q ss = Answered points →
  getSalesReport ops tz q ss = Answered rep →
  sum_list (tp_sales <$> points) = sum_totalSales (rep_summary rep)
  ∧ NoDup (tp_date <$> points)
  ∧ (∀ p, p ∈ points → (1 ≤ tp_sales p)%nat).
Proof.
  intros Htrend Hrep.
  destruct (getRevenueTrends_answered _ _ _ _ _ Htrend) as (start & end_ & Hs & He & ->).
  destruct (getSalesReport_answered _ _ _ _ _ Hrep)
    as (a & b & Ha & Hb & Hn & _).
  rewrite Hs in Ha. rewrite He in Hb. inversion Ha; inversion Hb; subst a b.
  destruct (groupByDate_buckets ops (trendFormat (rq_groupBy q)) (reported tz start end_ ss))
    as (Hnd & Hbs & _).
  rewrite Hn, <- !list_fmap_compose. split_and!.
  - rewrite <- (groupByDate_counts ops (trendFormat (rq_groupBy q))
                  (reported tz start end_ ss)).
    apply (sum_list_with_Permutation_proper id).
    apply (fmap_Permutation (tp_sales ∘ projectTrend)), sortBy_Permutation.
  - change (tp_date ∘ projectTrend) with b_id. by rewrite sortBy_Permutation.
  - intros p (b & -> & Hb')%list_elem_of_fmap. rewrite sortBy_Permutation in Hb'.
    simpl. by apply Hbs.
Qed.

Lemma getRevenueTrends_adds_up_to_report_witness :
  ∃ points rep,
    getRevenueTrends exactArith 0 (januaryBy "week") ledger = Answered points
    ∧ getSalesReport exactArith 0 (januaryBy "week") ledger = Answered rep
    ∧ (λ p, (tp_date p, tp_sales p)) <$> points = [("2024-02", 3%nat)]
    ∧ sum_list (tp_sales <$> points) = sum_totalSales (rep_summary rep).
Proof.
  destruct (getRevenueTrends exactArith 0 (januaryBy "week") ledger)
    as [points | ? ?] eqn:Htrend; [| vm_compute in Htrend; discriminate].
  destruct (getSalesReport exactArith 0 (januaryBy "week") ledger) as [rep | ? ?] eqn:Hrep;
    [| vm_compute in Hrep; discriminate].
  exists points, rep.
  destruct (getRevenueTrends_adds_up_to_report exactArith 0 (januaryBy "week") ledger
              points rep Htrend Hrep) as (Hn & _).
  split_and!; [reflexivity | reflexivity | | exact Hn].
  vm_compute in Htrend. inversion Htrend. reflexivity.
Defined.

(** X18. Grouped by day, which is also what an absent groupBy and any groupBy
    other than week and month mean, the trend has the per-date entries of the
    sales report over the same dates, point for point. *)
Theorem getRevenueTrends_by_day_is_salesByDate ops tz q ss rep :
  rq_groupBy q ≠ Some "week" → rq_groupBy q ≠ Some "month" →
  getSalesReport ops tz q ss = Answered rep →
  getRevenueTrends ops tz q ss = Answered (projectTrend <$> rep_salesByDate rep).
Proof.
  intros Hweek Hmonth Hrep.
  destruct (getSalesReport_answered _ _ _ _ _ Hrep)
    as (start & end_ & Hs & He & _ & _ & _ & _ & Hby & _).
  unfold getRevenueTrends. rewrite Hs, He, Hby, filter_inReportWindow.
  replace (trendFormat (rq_groupBy q)) with FormatYmd; [done |].
  unfold trendFormat. destruct (rq_groupBy q) as [g |]; simpl; [| done].
  repeat case_decide; subst; done.
Qed.

Lemma getRevenueTrends_by_day_is_salesByDate_witness :
  ∃ rep, getSalesReport exactArith 0 (januaryBy "year") ledger = Answered rep
         ∧ getRevenueTrends exactArith 0 (januaryBy "year") ledger
           = Answered (projectTrend <$> rep_salesByDate rep).
Proof.
  destruct (getSalesReport exactArith 0 (januaryBy "year") ledger) as [rep | ? ?] eqn:Hrep;
    [| vm_compute in Hrep; discriminate].
  exists rep. split; [reflexivity |].
  apply (getRevenueTrends_by_day_is_salesByDate exactArith 0 (januaryBy "year") ledger rep);
    [discriminate | discriminate | exact Hrep].
Defined.

(** * Properties of getSales *)

Lemma chunks_cover {A} (limit : nat) (l : list A) n :
  (0 < limit)%nat → (length l ≤ n * limit)%nat →
  mjoin ((λ i, take limit (drop (i * limit) l)) <$> seq 0 n) = l.
Proof.
  intros Hpos. revert l. induction n as [| n IH]; intros l Hlen.
  - destruct l; [done | simpl in Hlen; lia].
  - transitivity (take limit l ++ drop limit l); [| apply take_drop].
    cbn [seq]. rewrite fmap_cons, <- fmap_S_seq, <- list_fmap_compose.
    change (mjoin (?x :: ?xs)) with (x ++ mjoin xs). f_equal.
    rewrite <- (IH (drop limit l)) at 1 by (rewrite length_drop; lia).
    f_equal. apply list_fmap_ext. intros _ i _. simpl. by rewrite drop_drop.
Qed.

Lemma getSales_answered tz q ss pg :
  getSales tz q ss = Some pg →
  ∃ pageNum limitNum : nat,
    default 1 (sq_page q) = Z.of_nat pageNum ∧ default 50 (sq_limit q) = Z.of_nat limitNum
    ∧ (1 ≤ pageNum)%nat ∧ (1 ≤ limitNum)%nat
    ∧ pg_data pg = take limitNum (drop ((pageNum - 1) * limitNum) (listed tz q ss))
    ∧ pg_count pg = length (pg_data pg)
    ∧ pg_total pg = length (listed tz q ss)
    ∧ pg_page pg = Z.of_nat pageNum
    ∧ (pg_total pg ≤ pg_pages pg * limitNum)%nat
    ∧ (pg_pages pg * limitNum < pg_total pg + limitNum)%nat.
Proof.
  unfold getSales.
  destruct (Z.ltb_spec (default 1 (sq_page q)) 1) as [| Hpage]; [done |].
  destruct (Z.ltb_spec (default 50 (sq_limit q)) 1) as [| Hlimit]; [done |].
  simpl. intros [= <-].
  exists (Z.to_nat (default 1 (sq_page q))), (Z.to_nat (default 50 (sq_limit q))).
  set (P := default 1 (sq_page q)) in *. set (L := default 50 (sq_limit q)) in *.
  set (T := length (List.filter (salesFilter tz q) ss)).
  assert (HT : length (listed tz q ss) = T).
  { unfold listed. by rewrite sortBy_Permutation. }
  simpl. rewrite HT.
  assert (Hceil : Z.of_nat T ≤ (Z.of_nat T + L - 1) / L * L < Z.of_nat T + L).
  { pose proof (Z.div_mod (Z.of_nat T + L - 1) L ltac:(lia)) as Hdm.
    pose proof (Z.mod_pos_bound (Z.of_nat T + L - 1) L ltac:(lia)) as Hb. nia. }
  assert (Hnn : 0 ≤ (Z.of_nat T + L - 1) / L) by (apply Z.div_pos; lia).
  split_and!; try lia; try done.
  do 2 f_equal. nia.
Qed.

(** X19. A page holds at most [limit] sales, all of them sales that match the
    filter (void sales included), newest first; [total] counts the matching
    sales whatever the page, and [pages] is the least number of pages of
    [limit] sales that holds them all. *)
Theorem getSales_page tz q ss pg :
  getSales tz q ss = Some pg →
  pg_count pg = length (pg_data pg)
  ∧ (Z.of_nat (pg_count pg) ≤ default 50 (sq_limit q))
  ∧ (∀ s, s ∈ pg_data pg → s ∈ ss ∧ salesFilter tz q s = true)
  ∧ StronglySorted (λ a b, createdAt b ≤ createdAt a) (pg_data pg)
  ∧ pg_total pg = length (List.filter (salesFilter tz q) ss)
  ∧ (Z.of_nat (pg_total pg) ≤ Z.of_nat (pg_pages pg) * default 50 (sq_limit q)
     < Z.of_nat (pg_total pg) + default 50 (sq_limit q)).
Proof.
  intros Hpg.
  destruct (getSales_answered tz q ss pg Hpg)
    as (P & L & HP & HL & HP1 & HL1 & Hdata & Hcount & Htotal & _ & Hle & Hlt).
  rewrite HL. split_and!.
  - done.
  - rewrite Hcount, Hdata, length_take. lia.
  - intros s Hs. rewrite Hdata in Hs.
    apply subseteq_take, subseteq_drop in Hs. unfold listed in Hs.
    rewrite sortBy_Permutation in Hs.
    apply list_elem_of_In, filter_In in Hs as [Hs Hf]. by apply list_elem_of_In in Hs.
  - rewrite Hdata.
    pose proof (newestFirst_sorted (List.filter (salesFilter tz q) ss)) as Hsorted.
    fold (listed tz q ss) in Hsorted.
    rewrite <- (take_drop ((P - 1) * L) (listed tz q ss)) in Hsorted.
    apply StronglySorted_app_1_r in Hsorted.
    rewrite <- (take_drop L (drop ((P - 1) * L) (listed tz q ss))) in Hsorted.
    by apply StronglySorted_app_1_l in Hsorted.
  - rewrite Htotal. unfold listed. by rewrite sortBy_Permutation.
  - nia.
  - nia.
Qed.

Lemma getSales_page_witness :
  ∃ pg, getSales 0 twoPerPage ledger = Some pg
        ∧ pg_count pg = 2%nat ∧ pg_total pg = 4%nat ∧ pg_pages pg = 2%nat
        ∧ StronglySorted (λ a b, createdAt b ≤ createdAt a) (pg_data pg).
Proof.
  destruct (getSales 0 twoPerPage ledger) as [pg |] eqn:Hpg;
    [| vm_compute in Hpg; discriminate].
  exists pg.
  destruct (getSales_page 0 twoPerPage ledger pg Hpg) as (_ & _ & _ & Hsorted & _).
  vm_compute in Hpg. inversion Hpg as [Heq].
  split_and!; [reflexivity | reflexivity | reflexivity | reflexivity |].
  rewrite Heq. exact Hsorted.
Defined.

Lemma pageData_eq tz q ss (L p : nat) :
  default 50 (sq_limit q) = Z.of_nat L → (1 ≤ L)%nat → (1 ≤ p)%nat →
  pageData tz q ss p = take L (drop ((p - 1) * L) (listed tz q ss)).
Proof.
  intros HL HL1 Hp. unfold pageData.
  destruct (getSales tz (withPage (Z.of_nat p) q) ss) as [pg |] eqn:Hpg.
  - destruct (getSales_answered _ _ _ _ Hpg)
      as (P' & L' & HP' & HL' & _ & _ & Hdata & _).
    simpl in HP', HL'. rewrite HL in HL'.
    apply Nat2Z.inj in HP', HL'. subst P' L'. done.
  - unfold getSales in Hpg. simpl in Hpg. rewrite HL in Hpg.
    destruct (Z.ltb_spec (Z.of_nat p) 1); [lia |].
    destruct (Z.ltb_spec (Z.of_nat L) 1); [lia |]. done.
Qed.

(** X20. When no two matching sales were created in the same millisecond (the
    sort leaves the order among such sales open), going through the pages 1 to
    [pages] lists every matching sale exactly once, in the order newest first:
    the pages put end to end are the whole list. *)
Theorem getSales_pages_cover tz q ss pg :
  NoDup (createdAt <$> List.filter (salesFilter tz q) ss) →
  getSales tz q ss = Some pg →
  mjoin (pageData tz q ss <$> seq 1 (pg_pages pg)) = listed tz q ss
  ∧ mjoin (pageData tz q ss <$> seq 1 (pg_pages pg)) ≡ₚ List.filter (salesFilter tz q) ss
  ∧ length (mjoin (pageData tz q ss <$> seq 1 (pg_pages pg))) = pg_total pg.
Proof.
  intros _ Hpg.
  assert (Hcover : mjoin (pageData tz q ss <$> seq 1 (pg_pages pg)) = listed tz q ss);
    [| rewrite Hcover; split_and!;
       [done | apply sortBy_Permutation
        | by destruct (getSales_answered tz q ss pg Hpg)
               as (? & ? & _ & _ & _ & _ & _ & _ & -> & _)]].
  destruct (getSales_answered tz q ss pg Hpg)
    as (P & L & HP & HL & HP1 & HL1 & _ & _ & Htotal & _ & Hle & _).
  rewrite <- (chunks_cover L (listed tz q ss) (pg_pages pg)) at 1 by lia.
  rewrite <- fmap_S_seq, <- list_fmap_compose. f_equal.
  apply list_fmap_ext. intros _ i _. simpl.
  rewrite (pageData_eq tz q ss L (S i)) by lia.
  do 2 f_equal. lia.
Qed.

Lemma getSales_pages_cover_witness :
  ∃ pg, getSales 0 twoPerPage ledger = Some pg
        ∧ pg_pages pg = 2%nat
        ∧ pageData 0 twoPerPage ledger 1 ++ pageData 0 twoPerPage ledger 2
          = listed 0 twoPerPage ledger.
Proof.
  destruct (getSales 0 twoPerPage ledger) as [pg |] eqn:Hpg;
    [| vm_compute in Hpg; discriminate].
  exists pg.
  assert (Hdistinct : NoDup (createdAt <$> List.filter (salesFilter 0 twoPerPage) ledger))
    by by_compute.
  pose proof (proj1 (getSales_pages_cover 0 twoPerPage ledger pg Hdistinct Hpg)) as Hcover.
  assert (Hpages : pg_pages pg = 2%nat) by (vm_compute in Hpg; by inversion Hpg).
  split_and!; [reflexivity | exact Hpages |].
  rewrite Hpages in Hcover.
  change (pageData 0 twoPerPage ledger 1 ++ (pageData 0 twoPerPage ledger 2 ++ [])
          = listed 0 twoPerPage ledger) in Hcover.
  by rewrite app_nil_r in Hcover.
Defined.

(** A page after the last one is empty, and every page before the last one
    is full. *)
Theorem getSales_page_sizes tz q ss pg (p : nat) :
  getSales tz q ss = Some pg → (1 ≤ p)%nat →
  ((pg_pages pg < p)%nat → pageData tz q ss p = [])
  ∧ ((p < pg_pages pg)%nat →
     Z.of_nat (length (pageData tz q ss p)) = default 50 (sq_limit q)).
Proof.
  intros Hpg Hp.
  destruct (getSales_answered tz q ss pg Hpg)
    as (P & L & HP & HL & HP1 & HL1 & _ & _ & Htotal & _ & Hle & Hlt).
  rewrite (pageData_eq tz q ss L p) by lia. rewrite HL. split.
  - intros Hafter. rewrite drop_ge; [by rewrite take_nil |]. rewrite <- Htotal. nia.
  - intros Hbefore. rewrite length_take, length_drop, <- Htotal. nia.
Qed.

Lemma getSales_page_sizes_witness :
  pageData 0 twoPerPage ledger 3 = []
  ∧ Z.of_nat (length (pageData 0 twoPerPage ledger 1)) = 2.
Proof.
  destruct (getSales 0 twoPerPage ledger) as [pg |] eqn:Hpg;
    [| vm_compute in Hpg; discriminate].
  assert (Hpages : pg_pages pg = 2%nat) by (vm_compute in Hpg; by inversion Hpg).
  split.
  - apply (getSales_page_sizes 0 twoPerPage ledger pg 3 Hpg); lia.
  - apply (getSales_page_sizes 0 twoPerPage ledger pg 1 Hpg); lia.
Defined.

Lemma filter_insert_length {A} (f : A → bool) (l : list A) i x y :
  l !! i = Some x → f y = f x →
  length (List.filter f (<[i := y]> l)) = length (List.filter f l).
Proof.
  revert i. induction l as [| a l IH]; intros [| i] Hx Hf; simpl in *; try done.
  - inversion Hx; subst a. rewrite Hf. by destruct (f x).
  - destruct (f a); simpl; by rewrite (IH i).
Qed.

(** A void leaves the sale in the list: the number of sales that match a
    filter, and so [total], is the same before and after a voidSale. *)
Theorem voidSale_keeps_sale_listed tz q ctx id st :
  length (List.filter (salesFilter tz q) (sales (voidSale ctx id st).2))
  = length (List.filter (salesFilter tz q) (sales st)).
Proof.
  destruct (voidSale_cases ctx id st)
    as [[_ E] | [(? & _ & _ & E) | [(? & ? & _ & _ & _ & _ & E)
       | [(? & _ & _ & _ & _ & E) | (sale & Hsale & _ & _ & _ & E)]]]];
    rewrite E; try done.
  cbn [snd voidedStore sales]. by apply (filter_insert_length _ _ _ sale).
Qed.

(** * Properties of the cart of the sales page *)

Lemma addToCart_invariant product cart :
  cartInvariant cart → cartInvariant (addToCart product cart).
Proof.
  intros (Hnd & Hqty & Hprice). unfold addToCart.
  destruct (List.find _ cart) as [found |] eqn:Hfind.
  - split_and!.
    + rewrite <- list_fmap_compose.
      replace (entryId <$> cart) with
        ((entryId ∘ (λ item, if decide (entryId item = product.1)
           then mkCartEntry (entry_product item) (entry_quantity item + 1) (entry_price item)
           else item)) <$> cart) in Hnd; [done |].
      apply list_fmap_ext. intros _ item _. simpl. by case_decide.
    + apply Forall_fmap. eapply Forall_impl; [apply Hqty |].
      intros item Hitem. simpl in *. case_decide; simpl; lia.
    + apply Forall_fmap. eapply Forall_impl; [apply Hprice |].
      intros item Hitem. simpl in *. by case_decide.
  - split_and!.
    + rewrite fmap_app. apply NoDup_app. split_and!; [done | | apply NoDup_singleton].
      intros id (item & -> & Hitem)%list_elem_of_fmap Hnew.
      apply list_elem_of_singleton in Hnew. simpl in Hnew.
      pose proof (proj1 (find_none_iff _ _) Hfind item Hitem) as Hno.
      apply bool_decide_eq_false in Hno. done.
    + apply Forall_app. split; [done |]. repeat constructor. simpl. lia.
    + apply Forall_app. split; [done |]. by repeat constructor.
Qed.

Lemma updateCartQuantity_invariant productId quantity cart :
  cartInvariant cart → cartInvariant (updateCartQuantity productId quantity cart).
Proof.
  intros (Hnd & Hqty & Hprice). unfold updateCartQuantity.
  destruct (Z.leb_spec quantity 0) as [Hle | Hgt].
  - split_and!.
    + eapply sublist_NoDup; [apply Hnd |]. apply fmap_sublist, sublist_filter.
    + apply Forall_forall. intros item [_ Hitem]%list_elem_of_filter.
      rewrite Forall_forall in Hqty. by apply Hqty.
    + apply Forall_forall. intros item [_ Hitem]%list_elem_of_filter.
      rewrite Forall_forall in Hprice. by apply Hprice.
  - split_and!.
    + rewrite <- list_fmap_compose.
      replace (entryId <$> cart) with
        ((entryId ∘ (λ item, if decide (entryId item = productId)
           then mkCartEntry (entry_product item) quantity (entry_price item)
           else item)) <$> cart) in Hnd; [done |].
      apply list_fmap_ext. intros _ item _. simpl. by case_decide.
    + apply Forall_fmap. eapply Forall_impl; [apply Hqty |].
      intros item Hitem. simpl in *. case_decide; simpl; lia.
    + apply Forall_fmap. eapply Forall_impl; [apply Hprice |].
      intros item Hitem. simpl in *. by case_decide.
Qed.

Lemma cartSteps_invariant actions cart :
  cartInvariant cart → cartInvariant (fold_left cartStep actions cart).
Proof.
  revert cart. induction actions as [| a actions IH]; intros cart Hinv; simpl; [done |].
  apply IH. destruct a; simpl.
  - by apply addToCart_invariant.
  - by apply updateCartQuantity_invariant.
Qed.

(** X21. However the cashier builds the cart, it never holds two entries of one
    product, every quantity is at least 1 and every entry carries the price
    of the product as it was fetched. *)
Theorem cartAfter_invariant actions : cartInvariant (cartAfter actions).
Proof. apply cartSteps_invariant. split_and!; constructor. Qed.

Lemma cartAfter_invariant_example :
  (λ e, (entryId e, entry_quantity e)) <$>
    cartAfter [AddProduct productP; AddProduct productP; SetQuantity "Q" 0; SetQuantity "P" 3]
  = [("P", 3)].
Proof. vm_compute. reflexivity. Qed.

Lemma ofInt_nonneg z : 0 ≤ z → (0 ≤ ofInt z)%Qc.
Proof.
  intros Hz. unfold ofInt, Qcle. cbn [this Q2Qc].
  rewrite !Qred_correct. unfold Qle. simpl. lia.
Qed.

Lemma Qc_mult_nonneg (a b : Qc) : (0 ≤ a)%Qc → (0 ≤ b)%Qc → (0 ≤ a * b)%Qc.
Proof.
  intros Ha Hb. replace 0%Qc with (0 * b)%Qc by ring. by apply Qcmult_le_compat_r.
Qed.

Lemma Qc_plus_nonneg (a b : Qc) : (0 ≤ a)%Qc → (0 ≤ b)%Qc → (0 ≤ a + b)%Qc.
Proof.
  intros Ha Hb. replace 0%Qc with (0 + 0)%Qc by ring. by apply Qcplus_le_compat.
Qed.

Lemma fold_left_sumQc {A} (f : A → Qc) (l : list A) (a : Qc) :
  fold_left (λ sum x, (sum + f x)%Qc) l a = (a + sumQc (f <$> l))%Qc.
Proof.
  revert a. induction l as [| x l IH]; intros a.
  - simpl. ring.
  - cbn [fold_left]. rewrite IH, fmap_cons. cbn [sumQc foldr].
    fold (sumQc (f <$> l)). ring.
Qed.

Lemma sumQc_nonneg (l : list Qc) : Forall (λ x, (0 ≤ x)%Qc) l → (0 ≤ sumQc l)%Qc.
Proof.
  induction 1 as [| x l Hx _ IH]; simpl; [apply Qcle_refl |]. by apply Qc_plus_nonneg.
Qed.

Lemma calculateTotal_vat_nonneg cart :
  Forall (λ item, (0 ≤ entry_price item)%Qc) cart →
  Forall (λ item, 1 ≤ entry_quantity item) cart →
  (0 ≤ ct_vat (calculateTotal cart))%Qc.
Proof.
  intros Hprice Hqty. unfold calculateTotal. cbn [ct_vat].
  apply Qc_mult_nonneg; [| by_compute].
  rewrite fold_left_sumQc.
  apply Qc_plus_nonneg; [apply Qcle_refl |]. apply sumQc_nonneg.
  apply Forall_fmap. rewrite Forall_forall in Hprice, Hqty. apply Forall_forall.
  intros item Hitem. simpl. apply Qc_mult_nonneg; [by apply Hprice |].
  apply ofInt_nonneg. specialize (Hqty item Hitem). simpl in Hqty. lia.
Qed.

(** X22. What the sales page posts for a cart built on the page always
    passes the validators of the route on the items, the payment method, the
    discount and the tax, provided no price is negative and the chosen
    payment method is one of the four: the cart is not empty, every quantity
    is at least 1, the discount is 0 and the tax is not negative; and no
    product is named on two lines, so createSale does not turn the cart down
    as a repeated product. *)
Theorem saleData_passes_validation form actions body :
  Forall (λ item, (0 ≤ entry_price item)%Qc) (cartAfter actions) →
  form_paymentMethod form ∈ paymentMethods →
  saleData form (cartAfter actions) = Some body →
  validSaleBody body = true
  ∧ NoDup (item_product <$> body_items body).
Proof.
  intros Hprice Hpay Hbody.
  assert (Hinv : cartInvariant (cartAfter actions))
    by (apply cartSteps_invariant; split_and!; constructor).
  destruct Hinv as (Hnd & Hqty & _).
  destruct (cartAfter actions) as [| e cart] eqn:Hcart; [done |].
  cbn [saleData] in Hbody. inversion Hbody; subst body. clear Hbody.
  split.
  - unfold validSaleBody. cbn [body_items body_paymentMethod body_discount body_tax].
    rewrite !andb_true_iff. split_and!.
    + done.
    + apply forallb_forall. intros it Hit. apply Z.leb_le.
      apply list_elem_of_In in Hit.
      change (it ∈ (λ item, mkCartItem (entryId item) (entry_quantity item)) <$> (e :: cart))
        in Hit.
      apply list_elem_of_fmap in Hit as (item & -> & Hitem). simpl.
      rewrite Forall_forall in Hqty. by apply Hqty.
    + by apply bool_decide_eq_true.
    + vm_compute. reflexivity.
    + apply bool_decide_eq_true. by apply (calculateTotal_vat_nonneg (e :: cart)).
  - change (NoDup (item_product <$>
              ((λ item, mkCartItem (entryId item) (entry_quantity item)) <$> (e :: cart)))).
    by rewrite <- list_fmap_compose.
Qed.

Lemma saleData_passes_validation_witness :
  ∃ body, saleData cashForm (cartAfter [AddProduct productP; AddProduct productP]) = Some body
          ∧ validSaleBody body = true.
Proof.
  destruct (saleData cashForm (cartAfter [AddProduct productP; AddProduct productP]))
    as [body |] eqn:Hbody; [| vm_compute in Hbody; discriminate].
  exists body. split; [reflexivity |].
  apply (saleData_passes_validation cashForm [AddProduct productP; AddProduct productP] body).
  - vm_compute. repeat constructor. discriminate.
  - vm_compute. left.
  - exact Hbody.
Defined.

(** X23. When the sale is created and every product of the cart is stored at the
    price the cart carries, the persisted sale has the subtotal, discount,
    tax and total that the page computed for the cart. *)
Theorem cart_totals_match_sale tz ctx form cart body st :
  (∀ e, e ∈ cart → ∃ p, products st !! entryId e = Some p ∧ price p = entry_price e) →
  saleData form cart = Some body →
  isCreated (createSale tz ctx body st).1 = true →
  ∃ s, (createSale tz ctx body st).1 = Created s
       ∧ subtotal s = ct_subtotal (calculateTotal cart)
       ∧ discount s = ct_discount (calculateTotal cart)
       ∧ tax s = ct_vat (calculateTotal cart)
       ∧ total s = ct_total (calculateTotal cart).
Proof.
  intros Hstored Hbody Hok.
  destruct (createSale_created tz ctx body st Hok)
    as (final & new & _ & Hlines & _ & Hsub & E).
  assert (Hitems : body_items body
            = (λ item, mkCartItem (entryId item) (entry_quantity item)) <$> cart).
  { destruct cart; [done |]. cbn [saleData] in Hbody. by inversion Hbody. }
  rewrite Hitems in Hlines.
  assert (Hsame : acc_subtotal final = ct_subtotal (calculateTotal cart)).
  { rewrite Hsub. unfold calculateTotal. cbn [ct_subtotal].
    rewrite fold_left_sumQc.
    replace (line_subtotal <$> new)
      with ((λ item, (entry_price item * ofInt (entry_quantity item))%Qc) <$> cart);
      [ring |].
    rewrite Forall2_fmap_l in Hlines.
    set (pm := list_to_map _ : gmap string Product) in Hlines.
    assert (Hpm : ∀ e, e ∈ cart → pm !! entryId e = products st !! entryId e).
    { intros e He. unfold pm. rewrite lookup_productMap, decide_True; [done |].
      rewrite <- list_fmap_compose. by apply (list_elem_of_fmap_2 entryId). }
    clearbody pm. clear -Hlines Hstored Hpm. revert Hstored Hpm.
    induction Hlines as [| e si cart' new' Hline _ IH]; intros Hstored Hpm; [done |].
    rewrite !fmap_cons. f_equal.
    - destruct Hline as (p & Hp & _ & -> & _). simpl in *.
      rewrite Hpm in Hp by left.
      destruct (Hstored e) as (p' & Hp' & Hprice); [left |].
      rewrite Hp' in Hp. inversion Hp; subst p'. by rewrite Hprice.
    - apply IH; intros e' He'; [apply Hstored | apply Hpm]; by right. }
  rewrite E. simpl. eexists. split; [reflexivity |]. simpl.
  rewrite Hsame. unfold calculateTotal, vatRate. simpl. done.
Qed.

Lemma cart_totals_match_sale_witness :
  ∃ body s,
    saleData cashForm (cartAfter [AddProduct productP; AddProduct productP]) = Some body
    ∧ (createSale 0 morning body storeA).1 = Created s
    ∧ total s = ct_total (calculateTotal (cartAfter [AddProduct productP; AddProduct productP])).
Proof.
  destruct (saleData cashForm (cartAfter [AddProduct productP; AddProduct productP]))
    as [body |] eqn:Hbody; [| vm_compute in Hbody; discriminate].
  destruct (cart_totals_match_sale 0 morning cashForm
              (cartAfter [AddProduct productP; AddProduct productP]) body storeA)
    as (s & Hs & _ & _ & _ & Htotal).
  - intros e He. vm_compute in He. apply list_elem_of_singleton in He as ->.
    exists (mkProduct "P" (money 100) 10 true). split; vm_compute; reflexivity.
  - exact Hbody.
  - vm_compute in Hbody. inversion Hbody. vm_compute. reflexivity.
  - exists body, s. split_and!; [reflexivity | exact Hs | exact Htotal].
Defined.

(** * Properties of the inventory *)

(** ** updateStock *)

Lemma updateStock_cases user suppliers id body docs :
  (∃ status message,
     updateStock user suppliers id body docs = (StockSent (Refused status message), docs)
     ∧ (status = 404 ∨ status = 403)
     ∧ (status = 404 ↔ docs !! id = None))
  ∨ (∃ d message, docs !! id = Some d
          ∧ (if decide (default "set" (stock_operation body) = "add")
             then docStock d + stock_quantity body
             else stock_quantity body) < 0
          ∧ updateStock user suppliers id body docs = (StockInvalid message, docs))
  ∨ (∃ d, docs !! id = Some d
          ∧ (user_role user = "supplier" →
             findSupplier suppliers (user_id user) = Some (doc_supplier d))
          ∧ 0 ≤ (if decide (default "set" (stock_operation body) = "add")
                 then docStock d + stock_quantity body
                 else stock_quantity body)
          ∧ updateStock user suppliers id body docs
            = (StockSent (Answered (setDocStock d
                           (if decide (default "set" (stock_operation body) = "add")
                            then docStock d + stock_quantity body
                            else stock_quantity body))),
               <[id := setDocStock d
                         (if decide (default "set" (stock_operation body) = "add")
                          then docStock d + stock_quantity body
                          else stock_quantity body)]> docs)).
Proof.
  assert (Hsaved : ∀ d,
    docs !! id = Some d →
    (user_role user = "supplier" →
     findSupplier suppliers (user_id user) = Some (doc_supplier d)) →
    ∀ r,
    r = (let product' :=
           if decide (default "set" (stock_operation body) = "add")
           then setDocStock d (docStock d + stock_quantity body)
           else setDocStock d (stock_quantity body) in
         if decide (docStock product' < 0)
         then (StockInvalid "Stock quantity cannot be negative", docs)
         else (StockSent (Answered product'), <[id := product']> docs)) →
    (∃ d message, docs !! id = Some d
          ∧ (if decide (default "set" (stock_operation body) = "add")
             then docStock d + stock_quantity body
             else stock_quantity body) < 0
          ∧ r = (StockInvalid message, docs))
    ∨ (∃ d, docs !! id = Some d
          ∧ (user_role user = "supplier" →
             findSupplier suppliers (user_id user) = Some (doc_supplier d))
          ∧ 0 ≤ (if decide (default "set" (stock_operation body) = "add")
                 then docStock d + stock_quantity body
                 else stock_quantity body)
          ∧ r = (StockSent (Answered (setDocStock d
                           (if decide (default "set" (stock_operation body) = "add")
                            then docStock d + stock_quantity body
                            else stock_quantity body))),
               <[id := setDocStock d
                         (if decide (default "set" (stock_operation body) = "add")
                          then docStock d + stock_quantity body
                          else stock_quantity body)]> docs))).
  { intros d Hd Hown r ->. cbv zeta.
    destruct (decide (default "set" (stock_operation body) = "add")); unfold docStock; simpl;
      case_decide.
    - left. eexists d, _. by split_and!.
    - right. exists d. split_and!; [done | done | lia | done].
    - left. eexists d, _. by split_and!.
    - right. exists d. split_and!; [done | done | lia | done]. }
  unfold updateStock.
  destruct (docs !! id) as [d |] eqn:Hd.
  - destruct (decide (user_role user = "supplier")) as [Hrole | Hrole].
    + destruct (findSupplier suppliers (user_id user)) as [rec |] eqn:Hrec.
      * destruct (decide (doc_supplier d = rec)) as [Heq | Hne].
        -- right. eapply Hsaved; [done | by rewrite Heq | done].
        -- left. eexists _, _. split_and!; [done | by right |]. split; [done | done].
      * left. eexists _, _. split_and!; [done | by right |]. split; [done | done].
    + right. eapply Hsaved; [done | done | done].
  - left. eexists _, _. split_and!; [done | by left | done].
Qed.

(** X24. A stock update that is answered with the product has set its stock to
    the quantity, or added the quantity when the operation is add, and has
    changed nothing else: the name, price, active flag, supplier, category
    and low stock threshold of the product are kept, and every other product
    is as it was.  The stock stored is never negative, and a supplier has
    been answered so only for a product of their own. *)
Theorem updateStock_effect user suppliers id body docs d' :
  (updateStock user suppliers id body docs).1 = StockSent (Answered d') →
  ∃ d, docs !! id = Some d
       ∧ docStock d' = (if decide (stock_operation body = Some "add")
                        then docStock d + stock_quantity body
                        else stock_quantity body)
       ∧ 0 ≤ docStock d'
       ∧ name (doc_core d') = name (doc_core d)
       ∧ price (doc_core d') = price (doc_core d)
       ∧ isActive (doc_core d') = isActive (doc_core d)
       ∧ doc_supplier d' = doc_supplier d
       ∧ doc_category d' = doc_category d
       ∧ doc_lowStockThreshold d' = doc_lowStockThreshold d
       ∧ (user_role user = "supplier" →
          findSupplier suppliers (user_id user) = Some (doc_supplier d))
       ∧ (updateStock user suppliers id body docs).2 !! id = Some d'
       ∧ ∀ k, k ≠ id → (updateStock user suppliers id body docs).2 !! k = docs !! k.
Proof.
  intros Hr.
  destruct (updateStock_cases user suppliers id body docs)
    as [(status & message & E & _) | [(d & message & _ & _ & E) | (d & Hd & Hown & Hpos & E)]];
    rewrite E in *; [done | done |].
  simpl in Hr. inversion Hr; subst d'. clear Hr. exists d. simpl.
  split_and!; [done | | done | done | done | done | done | done | done | done
              | apply lookup_insert_eq |].
  - destruct (stock_operation body) as [op |]; simpl;
      repeat case_decide; simplify_eq; done.
  - intros k Hk. by apply lookup_insert_ne.
Qed.

Lemma updateStock_effect_witness :
  ∃ d', (updateStock admin [] "b" (mkStockBody 4 (Some "add")) shelf).1 = StockSent (Answered d')
        ∧ docStock d' = 7
        ∧ doc_category d' = Some "pens" ∧ doc_lowStockThreshold d' = 5
        ∧ (updateStock admin [] "b" (mkStockBody 4 (Some "add")) shelf).2 !! "a"
          = shelf !! "a".
Proof.
  destruct (updateStock admin [] "b" (mkStockBody 4 (Some "add")) shelf).1
    as [[d' | ? ?] | ?] eqn:Hr; try (vm_compute in Hr; discriminate).
  exists d'.
  destruct (updateStock_effect admin [] "b" (mkStockBody 4 (Some "add")) shelf d' Hr)
    as (d & Hd & Hstock & _ & _ & _ & _ & _ & Hcat & Hthr & _ & _ & Hrest).
  vm_compute in Hd. inversion Hd; subst d.
  split_and!; [reflexivity | by rewrite Hstock | by rewrite Hcat | by rewrite Hthr
              | by apply Hrest].
Defined.

(** X25. A stock update that is not answered with the product (unknown product,
    supplier without a record, product of another supplier, stock that would
    become negative) changes nothing; and whatever product a supplier aims
    at, a product that is not the supplier's own stays exactly as it was. *)
Theorem updateStock_respects_ownership user suppliers id body docs :
  ((∀ d', (updateStock user suppliers id body docs).1 ≠ StockSent (Answered d')) →
   (updateStock user suppliers id body docs).2 = docs)
  ∧ (user_role user = "supplier" →
     ∀ k d, docs !! k = Some d →
            findSupplier suppliers (user_id user) ≠ Some (doc_supplier d) →
            (updateStock user suppliers id body docs).2 !! k = Some d).
Proof.
  destruct (updateStock_cases user suppliers id body docs)
    as [(status & message & E & _)
       | [(d0 & message & _ & _ & E) | (d0 & Hd0 & Hown & _ & E)]]; rewrite E; simpl.
  - split; [done |]. by intros.
  - split; [done |]. by intros.
  - split.
    + intros Hfail. exfalso. by eapply Hfail.
    + intros Hrole k d Hd Hother.
      destruct (decide (k = id)) as [-> | Hne].
      * rewrite Hd0 in Hd. inversion Hd; subst d0. destruct Hother. by apply Hown.
      * by rewrite lookup_insert_ne.
Qed.

Lemma updateStock_respects_ownership_witness :
  (updateStock (mkUser "u2" "supplier") [("s2", "u2")] "a"
               (mkStockBody 5 (Some "add")) shelf).2 !! "a"
  = shelf !! "a".
Proof.
  destruct (updateStock_respects_ownership (mkUser "u2" "supplier") [("s2", "u2")] "a"
              (mkStockBody 5 (Some "add")) shelf) as [_ Hown].
  destruct (shelf !! "a") as [d |] eqn:Hd; [| vm_compute in Hd; discriminate].
  apply (Hown eq_refl "a" d Hd).
  vm_compute in Hd. inversion Hd. vm_compute. discriminate.
Defined.

(** X26. Whatever quantity and operation are sent, a stock update never makes a
    stock negative: an update that would is rejected by the schema and
    nothing is stored. *)
Theorem updateStock_keeps_stock_non_negative user suppliers id body docs :
  map_Forall (λ _ d, 0 ≤ docStock d) docs →
  map_Forall (λ _ d, 0 ≤ docStock d) (updateStock user suppliers id body docs).2.
Proof.
  intros Hdocs.
  destruct (updateStock_cases user suppliers id body docs)
    as [(status & message & E & _)
       | [(d & message & _ & _ & E) | (d & Hd & _ & Hpos & E)]]; rewrite E; simpl;
    [done | done |].
  apply map_Forall_insert_2; [| done]. done.
Qed.

Lemma updateStock_keeps_stock_non_negative_witness :
  (updateStock admin [] "b" (mkStockBody (-4) (Some "add")) shelf).1
  = StockInvalid "Stock quantity cannot be negative"
  ∧ map_Forall (λ _ d, 0 ≤ docStock d)
               (updateStock admin [] "b" (mkStockBody (-4) (Some "add")) shelf).2.
Proof.
  split; [vm_compute; reflexivity |].
  apply (updateStock_keeps_stock_non_negative admin [] "b" (mkStockBody (-4) (Some "add")) shelf).
  apply map_Forall_to_list. vm_compute. repeat constructor; discriminate.
Defined.

(** ** getInventory and getLowStockAlerts *)

Lemma filter_length_mono {A} (f g : A → bool) (l : list A) :
  (∀ x, x ∈ l → f x = true → g x = true) →
  (length (List.filter f l) ≤ length (List.filter g l))%nat.
Proof.
  induction l as [| x l IH]; intros Himp; simpl; [done |].
  assert (Hl : (length (List.filter f l) ≤ length (List.filter g l))%nat).
  { apply IH. intros y Hy. apply Himp. by right. }
  destruct (f x) eqn:Hf.
  - rewrite (Himp x ltac:(left) Hf). simpl. lia.
  - destruct (g x); simpl; lia.
Qed.

Lemma filter_length_le {A} (f : A → bool) (l : list A) :
  (length (List.filter f l) ≤ length l)%nat.
Proof. induction l as [| x l IH]; simpl; [done |]. destruct (f x); simpl; lia. Qed.

Lemma filter_all {A} (f : A → bool) (l : list A) :
  (∀ x, x ∈ l → f x = true) → List.filter f l = l.
Proof.
  induction l as [| x l IH]; intros Hall; simpl; [done |].
  rewrite (Hall x ltac:(left)). f_equal. apply IH. intros y Hy. apply Hall. by right.
Qed.

Lemma filter_length_Permutation {A} (f : A → bool) (l1 l2 : list A) :
  l1 ≡ₚ l2 → length (List.filter f l1) = length (List.filter f l2).
Proof.
  induction 1 as [| x l1 l2 _ IH | x y l | l1 l2 l3 _ IH1 _ IH2]; simpl.
  - done.
  - destruct (f x); simpl; by rewrite IH.
  - destruct (f x), (f y); done.
  - by rewrite IH1.
Qed.

Lemma elem_of_findInventory scope lowOnly docs k d :
  (k, d) ∈ findInventory scope lowOnly docs
  ↔ docs !! k = Some d
    ∧ isActive (doc_core d) = true
    ∧ (∀ s, scope = Some s → doc_supplier d = s)
    ∧ (lowOnly = true → isLow d = true).
Proof.
  unfold findInventory. rewrite sortBy_Permutation.
  rewrite list_elem_of_In, filter_In, <- list_elem_of_In, elem_of_map_to_list.
  simpl. rewrite !andb_true_iff. split.
  - intros (Hd & (Hact & Hscope) & Hlow). split_and!; [done | done | |].
    + intros s ->. simpl in Hscope. by apply bool_decide_eq_true in Hscope.
    + intros ->. by destruct (isLow d).
  - intros (Hd & Hact & Hscope & Hlow). split_and!; [done | done | |].
    + destruct scope as [s |]; simpl; [| done]. apply bool_decide_eq_true. by apply Hscope.
    + destruct lowOnly; simpl; [by apply Hlow | done].
Qed.

Lemma byStock_sorted l :
  StronglySorted (λ a b : string * ProductDoc, docStock a.2 ≤ docStock b.2) (sortBy byStock l).
Proof.
  apply (StronglySorted_weaken (λ a b, byStock a b = true)).
  - intros a b Hab. by apply Z.leb_le.
  - apply sortBy_sorted.
    + intros x y Hxy. unfold byStock in *. apply Z.leb_le. apply Z.leb_gt in Hxy. lia.
    + intros x y z Hxy Hyz. unfold byStock in *. apply Z.leb_le.
      apply Z.leb_le in Hxy, Hyz. lia.
Qed.

(** X27. The inventory lists exactly the active products, for a supplier
    exactly the active products of that supplier, and with lowStock=true only
    those whose stock is at most their threshold; each is listed once, lowest
    stock first.  totalProducts and count are the length of the list,
    lowStockProducts counts the listed products with stock at most the
    threshold and outOfStockProducts those with stock 0; with thresholds that
    are not negative outOfStockProducts <= lowStockProducts <=
    totalProducts. *)
Theorem getInventory_summary user suppliers lowStock docs a :
  getInventory user suppliers lowStock docs = Answered a →
  map_Forall (λ _ d, 0 ≤ doc_lowStockThreshold d) docs →
  (∀ k d, (k, d) ∈ inv_data a
          ↔ docs !! k = Some d
            ∧ isActive (doc_core d) = true
            ∧ (user_role user = "supplier" →
               findSupplier suppliers (user_id user) = Some (doc_supplier d))
            ∧ (lowStock = Some "true" → docStock d ≤ doc_lowStockThreshold d))
  ∧ NoDup (inv_data a).*1
  ∧ StronglySorted (λ x y, docStock x.2 ≤ docStock y.2) (inv_data a)
  ∧ inv_count a = length (inv_data a) ∧ inv_totalProducts a = length (inv_data a)
  ∧ inv_lowStockProducts a
    = length (filter (λ kd, docStock kd.2 ≤ doc_lowStockThreshold kd.2) (inv_data a))
  ∧ inv_outOfStockProducts a = length (filter (λ kd, docStock kd.2 = 0) (inv_data a))
  ∧ (inv_outOfStockProducts a ≤ inv_lowStockProducts a ≤ inv_totalProducts a)%nat
  ∧ (lowStock = Some "true" → inv_lowStockProducts a = inv_totalProducts a).
Proof.
  unfold getInventory. intros Hans Hthr.
  destruct (supplierScope user suppliers) as [refusal | scope] eqn:Hscope.
  { unfold supplierScope in Hscope. repeat case_match; simplify_eq. }
  inversion Hans; subst a. clear Hans. simpl.
  set (products := findInventory scope (bool_decide (lowStock = Some "true")) docs).
  assert (Hin : ∀ k d, (k, d) ∈ products → docs !! k = Some d ∧ isActive (doc_core d) = true).
  { intros k d Hkd. apply elem_of_findInventory in Hkd. tauto. }
  assert (Hlowf : ∀ l : list (string * ProductDoc),
            List.filter (λ kd, isLow kd.2) l
            = filter (λ kd, docStock kd.2 ≤ doc_lowStockThreshold kd.2) l).
  { induction l as [| x l IH]; [done |]. simpl. unfold isLow at 1.
    destruct (Z.leb_spec (docStock x.2) (doc_lowStockThreshold x.2)).
    - rewrite filter_cons_True by done. by rewrite IH.
    - rewrite filter_cons_False by lia. done. }
  assert (Houtf : ∀ l : list (string * ProductDoc),
            List.filter (λ kd, isOut kd.2) l = filter (λ kd, docStock kd.2 = 0) l).
  { induction l as [| x l IH]; [done |]. simpl. unfold isOut at 1.
    destruct (Z.eqb_spec (docStock x.2) 0).
    - rewrite filter_cons_True by done. by rewrite IH.
    - rewrite filter_cons_False by done. done. }
  split_and!; try done.
  - intros k d. unfold products. rewrite elem_of_findInventory.
    unfold supplierScope in Hscope.
    destruct (decide (user_role user = "supplier")) as [Hrole | Hrole].
    + destruct (findSupplier suppliers (user_id user)) as [rec |] eqn:Hrec; [| done].
      inversion Hscope; subst scope. rewrite bool_decide_eq_true, <- Z.leb_le.
      fold (isLow d). split.
      * intros (Hd & Hact & Hsup & Hlow). split_and!; [done | done | | done].
        intros _. by rewrite (Hsup rec eq_refl).
      * intros (Hd & Hact & Hsup & Hlow). split_and!; [done | done | | done].
        intros s' [= <-]. specialize (Hsup Hrole). by inversion Hsup.
    + inversion Hscope; subst scope. rewrite bool_decide_eq_true, <- Z.leb_le.
      fold (isLow d). split.
      * intros (Hd & Hact & _ & Hlow). split_and!; [done | done | done | done].
      * intros (Hd & Hact & _ & Hlow). split_and!; [done | done | done | done].
  - unfold products, findInventory. rewrite sortBy_Permutation.
    eapply sublist_NoDup; [apply (NoDup_fst_map_to_list docs) |].
    apply fmap_sublist.
    induction (map_to_list docs) as [| x l IH]; simpl; [constructor |].
    destruct (_ && _); by constructor.
  - apply byStock_sorted.
  - by rewrite Hlowf.
  - by rewrite Houtf.
  - apply filter_length_mono. intros [k d] Hkd Hout. simpl in *.
    destruct (Hin k d Hkd) as [Hd _]. apply Hthr in Hd. simpl in Hd.
    unfold isOut, isLow in *. apply Z.eqb_eq in Hout. apply Z.leb_le. lia.
  - apply filter_length_le.
  - intros ->. rewrite filter_all; [done |]. intros [k d] Hkd.
    apply elem_of_findInventory in Hkd as (_ & _ & _ & Hlow). by apply Hlow.
Qed.

Lemma getInventory_summary_witness :
  ∃ a, getInventory (mkUser "u1" "supplier") [("s1", "u1"); ("s2", "u2")] None shelf
       = Answered a
       ∧ (inv_data a).*1 = ["a"; "b"]
       ∧ (inv_outOfStockProducts a, inv_lowStockProducts a, inv_totalProducts a)
         = (1%nat, 2%nat, 2%nat)
       ∧ (∀ k d, (k, d) ∈ inv_data a → doc_supplier d = "s1")
       ∧ (inv_outOfStockProducts a ≤ inv_lowStockProducts a ≤ inv_totalProducts a)%nat.
Proof.
  destruct (getInventory (mkUser "u1" "supplier") [("s1", "u1"); ("s2", "u2")] None shelf)
    as [a | ? ?] eqn:Ha; [| vm_compute in Ha; discriminate].
  exists a.
  destruct (getInventory_summary (mkUser "u1" "supplier") [("s1", "u1"); ("s2", "u2")]
              None shelf a Ha) as (Hlisted & _ & _ & _ & _ & _ & _ & Hle & _).
  - by_compute.
  - split_and!; [reflexivity | | | | exact (proj1 Hle) | exact (proj2 Hle)].
    + vm_compute in Ha. inversion Ha. reflexivity.
    + vm_compute in Ha. inversion Ha. reflexivity.
    + intros k d Hkd. apply Hlisted in Hkd as (_ & _ & Hsup & _).
      specialize (Hsup eq_refl). vm_compute in Hsup. by inversion Hsup.
Defined.

(** The low stock alerts are the inventory asked for with lowStock=true:
    the same products in the same order, or the same refusal. *)
Theorem getLowStockAlerts_is_low_inventory user suppliers docs :
  getLowStockAlerts user suppliers docs
  = match getInventory user suppliers (Some "true") docs with
    | Answered a => Answered (inv_count a, inv_data a)
    | Refused status message => Refused status message
    end.
Proof.
  unfold getLowStockAlerts, getInventory, supplierScope.
  repeat case_match; simplify_eq; done.
Qed.

(** ** getInventoryReport *)

Lemma categoryOf_inCategory c d : inCategory c d ↔ categoryOf d = c.
Proof.
  unfold inCategory, categoryOf. destruct (doc_category d) as [c' |].
  - destruct (decide (c' = "")) as [-> | Hne]; split.
    + intros [[[= <-] Hc] | [-> _]]; done.
    + intros <-. right. split; [done | by right].
    + intros [[[= <-] Hc] | [-> [? | [= ->]]]]; done.
    + intros <-. by left.
  - split; [intros [[? _] | [-> _]]; done |]. intros <-. right. split; [done | by left].
Qed.

Lemma productsOfCategory_categoryOf c (l : list (string * ProductDoc)) :
  productsOfCategory c l = filter (λ kd, categoryOf kd.2 = c) l.
Proof.
  unfold productsOfCategory. apply list_filter_iff. intros kd. apply categoryOf_inCategory.
Qed.

Lemma countInCategory_counts ops d cs :
  sum_list (cat_count <$> countInCategory ops d cs) = S (sum_list (cat_count <$> cs)).
Proof.
  induction cs as [| c rest IH]; [done |].
  cbn [countInCategory]. destruct (decide (cat_name c = categoryOf d)).
  - rewrite !fmap_cons. cbn [sum_list_with cat_count]. simpl. lia.
  - rewrite !fmap_cons. cbn [sum_list_with]. simpl in *. lia.
Qed.

Lemma countInCategory_names ops d cs :
  cat_name <$> countInCategory ops d cs
  = (cat_name <$> cs) ++ (if decide (categoryOf d ∈ cat_name <$> cs) then [] else [categoryOf d]).
Proof.
  induction cs as [| c rest IH].
  - rewrite decide_False; [done |]. apply not_elem_of_nil.
  - cbn [countInCategory]. rewrite !fmap_cons.
    destruct (decide (cat_name c = categoryOf d)) as [Heq | Hne].
    + rewrite decide_True by (rewrite Heq; left). by rewrite app_nil_r.
    + rewrite fmap_cons, IH. simpl. f_equal.
      destruct (decide (categoryOf d ∈ cat_name <$> rest)) as [Hin | Hout].
      * rewrite decide_True; [done |]. by right.
      * rewrite decide_False; [done |]. rewrite not_elem_of_cons. split; [congruence | done].
Qed.

Lemma productsOfCategory_snoc_other c l kd :
  categoryOf kd.2 ≠ c → productsOfCategory c (l ++ [kd]) = productsOfCategory c l.
Proof.
  intros Hne. rewrite !productsOfCategory_categoryOf.
  rewrite filter_app, filter_cons_False, filter_nil, app_nil_r; done.
Qed.

Lemma productsOfCategory_snoc_same l kd :
  productsOfCategory (categoryOf kd.2) (l ++ [kd])
  = productsOfCategory (categoryOf kd.2) l ++ [kd].
Proof.
  rewrite !productsOfCategory_categoryOf.
  by rewrite filter_app, filter_cons_True, filter_nil.
Qed.

Lemma productsOfCategory_nil c (l : list (string * ProductDoc)) :
  c ∉ (λ kd, categoryOf kd.2) <$> l → productsOfCategory c l = [].
Proof.
  intros Hc. rewrite productsOfCategory_categoryOf. induction l as [| kd l IH]; [done |].
  rewrite fmap_cons, not_elem_of_cons in Hc. destruct Hc as [Hne Hc].
  rewrite filter_cons_False by congruence. auto.
Qed.

Lemma valueOf_snoc ops l kd :
  valueOf ops (l ++ [kd]) = num_add ops (valueOf ops l) (stockValue ops kd.2).
Proof. unfold valueOf. by rewrite fold_left_app. Qed.

Lemma countInCategory_entries ops seen kd cs :
  NoDup (cat_name <$> cs) →
  (∀ e, e ∈ cs →
     cat_count e = length (productsOfCategory (cat_name e) seen)
     ∧ cat_totalValue e = valueOf ops (productsOfCategory (cat_name e) seen)) →
  (categoryOf kd.2 ∉ cat_name <$> cs →
   categoryOf kd.2 ∉ (λ kd, categoryOf kd.2) <$> seen) →
  ∀ e', e' ∈ countInCategory ops kd.2 cs →
        cat_count e' = length (productsOfCategory (cat_name e') (seen ++ [kd]))
        ∧ cat_totalValue e' = valueOf ops (productsOfCategory (cat_name e') (seen ++ [kd])).
Proof.
  induction cs as [| c rest IH]; intros Hnd Hcs Hfresh e' He'; simpl in He'.
  - apply list_elem_of_singleton in He' as ->. cbn [cat_name cat_count cat_totalValue].
    rewrite productsOfCategory_snoc_same.
    rewrite productsOfCategory_nil by (apply Hfresh, not_elem_of_nil). done.
  - rewrite fmap_cons in Hnd. apply NoDup_cons in Hnd as [Hhd Hnd].
    destruct (decide (cat_name c = categoryOf kd.2)) as [Heq | Hne].
    + apply elem_of_cons in He' as [-> | He']; cbn [cat_name cat_count cat_totalValue].
      * rewrite Heq, productsOfCategory_snoc_same, length_app, valueOf_snoc.
        destruct (Hcs c ltac:(left)) as [-> ->]. by rewrite Heq.
      * rewrite productsOfCategory_snoc_other; [apply Hcs; by right |].
        intros Hsame. apply Hhd. rewrite Heq, Hsame. by apply list_elem_of_fmap_2.
    + apply elem_of_cons in He' as [-> | He'].
      * rewrite productsOfCategory_snoc_other by congruence. apply Hcs. left.
      * apply IH; [done | | | done].
        -- intros e0 He0. apply Hcs. by right.
        -- intros Hout. apply Hfresh. rewrite fmap_cons, not_elem_of_cons.
           split; [congruence | done].
Qed.

(** What [byCategory] holds once the products [seen] have gone through the
    loop. *)
Lemma byCategory_entries ops (products : list (string * ProductDoc)) :
  NoDup (cat_name <$> fold_left (λ cs kd, addToCategories ops kd.2 cs) products [])
  ∧ (∀ e, e ∈ fold_left (λ cs kd, addToCategories ops kd.2 cs) products [] →
       cat_count e = length (productsOfCategory (cat_name e) products)
       ∧ cat_totalValue e = valueOf ops (productsOfCategory (cat_name e) products))
  ∧ (∀ c, c ∈ cat_name <$> fold_left (λ cs kd, addToCategories ops kd.2 cs) products []
          ↔ (c ∉ inheritedKeys) ∧ c ∈ (λ kd, categoryOf kd.2) <$> products)
  ∧ sum_list (cat_count <$> fold_left (λ cs kd, addToCategories ops kd.2 cs) products [])
    = length (List.filter (λ kd, bool_decide (categoryOf kd.2 ∉ inheritedKeys)) products).
Proof.
  assert (Hgen : ∀ seen cs,
    NoDup (cat_name <$> cs) →
    (∀ e, e ∈ cs →
       cat_count e = length (productsOfCategory (cat_name e) seen)
       ∧ cat_totalValue e = valueOf ops (productsOfCategory (cat_name e) seen)) →
    (∀ c, c ∈ cat_name <$> cs
          ↔ (c ∉ inheritedKeys) ∧ c ∈ (λ kd, categoryOf kd.2) <$> seen) →
    NoDup (cat_name <$> fold_left (λ cs kd, addToCategories ops kd.2 cs) products cs)
    ∧ (∀ e, e ∈ fold_left (λ cs kd, addToCategories ops kd.2 cs) products cs →
         cat_count e = length (productsOfCategory (cat_name e) (seen ++ products))
         ∧ cat_totalValue e = valueOf ops (productsOfCategory (cat_name e) (seen ++ products)))
    ∧ (∀ c, c ∈ cat_name <$> fold_left (λ cs kd, addToCategories ops kd.2 cs) products cs
            ↔ (c ∉ inheritedKeys) ∧ c ∈ (λ kd, categoryOf kd.2) <$> (seen ++ products))
    ∧ sum_list (cat_count <$> fold_left (λ cs kd, addToCategories ops kd.2 cs) products cs)
      = (sum_list (cat_count <$> cs)
         + length (List.filter (λ kd, bool_decide (categoryOf kd.2 ∉ inheritedKeys)) products))%nat).
  { induction products as [| kd products IH]; intros seen cs Hnd Hcs Hnames.
    - simpl. rewrite app_nil_r. split_and!; [done | done | done | lia].
    - cbn [fold_left List.filter].
      replace (seen ++ kd :: products) with ((seen ++ [kd]) ++ products)
        by (by rewrite <- app_assoc).
      destruct (decide (categoryOf kd.2 ∈ inheritedKeys)) as [Hin | Hout].
      + replace (addToCategories ops kd.2 cs) with cs
          by (unfold addToCategories; by rewrite decide_True).
        rewrite bool_decide_eq_false_2 by tauto.
        apply IH; [done | |].
        * intros e He. rewrite productsOfCategory_snoc_other; [by apply Hcs |].
          intros Hsame. assert (Hname : cat_name e ∈ cat_name <$> cs)
            by (by apply list_elem_of_fmap_2).
          apply Hnames in Hname as [Hno _]. by rewrite Hsame in Hin.
        * intros c. rewrite Hnames, fmap_app, elem_of_app. simpl.
          rewrite list_elem_of_singleton. split; [tauto |].
          intros [Hno [? | ->]]; done.
      + replace (addToCategories ops kd.2 cs) with (countInCategory ops kd.2 cs)
          by (unfold addToCategories; by rewrite decide_False).
        rewrite bool_decide_eq_true_2 by done.
        destruct (IH (seen ++ [kd]) (countInCategory ops kd.2 cs)) as (H1 & H2 & H3 & H4).
        * rewrite countInCategory_names. case_decide; [by rewrite app_nil_r |].
          apply NoDup_app. split_and!; [done | | apply NoDup_singleton].
          intros x Hx ->%list_elem_of_singleton. done.
        * apply countInCategory_entries; [done | done |].
          intros Hfresh Hseen. apply Hfresh, Hnames. done.
        * intros c. rewrite countInCategory_names, !fmap_app, !elem_of_app, Hnames. simpl.
          rewrite list_elem_of_singleton. case_decide as Hc.
          -- rewrite elem_of_nil. apply Hnames in Hc. split; [tauto |].
             intros [Hno [? | ->]]; auto.
          -- rewrite list_elem_of_singleton. split; [| tauto].
             intros [? | ->]; tauto.
        * split_and!; [done | done | done |].
          rewrite H4, countInCategory_counts. simpl. lia. }
  destruct (Hgen [] []) as (H1 & H2 & H3 & H4).
  - constructor.
  - intros e He. by apply elem_of_nil in He.
  - intros c. simpl. rewrite !elem_of_nil. tauto.
  - split_and!; done.
Qed.

Lemma elem_of_report_data ops docs k d :
  (k, d) ∈ ir_data (getInventoryReport ops docs)
  ↔ docs !! k = Some d ∧ isActive (doc_core d) = true.
Proof.
  unfold getInventoryReport. simpl. rewrite sortBy_Permutation.
  by rewrite list_elem_of_In, filter_In, <- list_elem_of_In, elem_of_map_to_list.
Qed.

Lemma active_filter (l : list (string * ProductDoc)) :
  List.filter (λ kd, isActive (doc_core kd.2)) l
  = filter (λ kd, isActive (doc_core kd.2) = true) l.
Proof.
  induction l as [| x l IH]; [done |]. simpl.
  destruct (isActive (doc_core x.2)) eqn:Hx.
  - rewrite filter_cons_True by done. by rewrite IH.
  - rewrite filter_cons_False by congruence. done.
Qed.

(** X28. In the inventory report, provided no active product has a category
    that bears a name every object inherits (constructor, toString, ...), the
    categories partition the active products: there is one entry per
    category that an active product has, a missing or empty category being
    'Uncategorized'; each entry counts the active products of its category
    and values them as the handler adds them up; and the counts of the
    entries add up to totalProducts, the number of active products. *)
Theorem getInventoryReport_categories_add_up ops docs :
  map_Forall (λ _ d, isActive (doc_core d) = true →
                     ∀ c, doc_category d = Some c → c ∉ inheritedKeys) docs →
  sum_list (cat_count <$> ir_byCategory (getInventoryReport ops docs))
  = ir_totalProducts (getInventoryReport ops docs)
  ∧ ir_totalProducts (getInventoryReport ops docs)
    = length (filter (λ kd, isActive (doc_core kd.2) = true) (map_to_list docs))
  ∧ NoDup (cat_name <$> ir_byCategory (getInventoryReport ops docs))
  ∧ (∀ c, c ∈ cat_name <$> ir_byCategory (getInventoryReport ops docs)
          ↔ ∃ k d, docs !! k = Some d ∧ isActive (doc_core d) = true ∧ inCategory c d)
  ∧ (∀ e, e ∈ ir_byCategory (getInventoryReport ops docs) →
       cat_count e
       = length (filter (λ kd, inCategory (cat_name e) kd.2)
                   (ir_data (getInventoryReport ops docs)))
       ∧ cat_totalValue e
         = valueOf ops (filter (λ kd, inCategory (cat_name e) kd.2)
                          (ir_data (getInventoryReport ops docs)))).
Proof.
  intros Hnames.
  destruct (byCategory_entries ops (ir_data (getInventoryReport ops docs)))
    as (Hnd & Hentries & Hcs & Hn).
  assert (Hown : ∀ k d, (k, d) ∈ ir_data (getInventoryReport ops docs) →
                        categoryOf d ∉ inheritedKeys).
  { intros k d Hkd. apply elem_of_report_data in Hkd as [Hd Hact].
    pose proof (Hnames k d Hd Hact) as Hcat. unfold categoryOf.
    destruct (doc_category d) as [c |]; [| by_compute].
    destruct (decide (c = "")); [by_compute | by apply Hcat]. }
  split_and!.
  - etransitivity; [exact Hn |]. rewrite filter_all; [done |].
    intros [k d] Hkd. apply bool_decide_eq_true. by apply (Hown k d).
  - unfold getInventoryReport. simpl. by rewrite sortBy_Permutation, active_filter.
  - exact Hnd.
  - intros c. etransitivity; [apply Hcs |]. rewrite list_elem_of_fmap. split.
    + intros (_ & [k d] & -> & Hkd). apply elem_of_report_data in Hkd as [Hd Hact].
      exists k, d. split_and!; [done | done |]. by apply categoryOf_inCategory.
    + intros (k & d & Hd & Hact & Hc). apply categoryOf_inCategory in Hc.
      assert (Hkd : (k, d) ∈ ir_data (getInventoryReport ops docs))
        by (by apply elem_of_report_data).
      split; [rewrite <- Hc; by apply (Hown k d) |]. by exists (k, d).
  - exact Hentries.
Qed.

Lemma getInventoryReport_categories_add_up_witness :
  (λ c, (cat_name c, cat_count c)) <$> ir_byCategory (getInventoryReport exactArith shelf)
  = [("Uncategorized", 1%nat); ("pens", 2%nat)]
  ∧ sum_list (cat_count <$> ir_byCategory (getInventoryReport exactArith shelf))
    = ir_totalProducts (getInventoryReport exactArith shelf)
  ∧ NoDup (cat_name <$> ir_byCategory (getInventoryReport exactArith shelf)).
Proof.
  split; [vm_compute; reflexivity |].
  destruct (getInventoryReport_categories_add_up exactArith shelf) as (Hn & _ & Hnd & _).
  - assert (Hcats : map_Forall (λ _ d, default "" (doc_category d) ∉ inheritedKeys) shelf)
      by by_compute.
    intros k d Hd _ c Hc. apply Hcats in Hd. simpl in Hd. by rewrite Hc in Hd.
  - split; [exact Hn | exact Hnd].
Defined.

(** X29. A product whose category bears a name that every object inherits is
    counted in totalProducts and in totalStockValue but in no category: the
    categories count exactly the other active products, each entry holds the
    number of the active products of its category and their value as the
    handler adds it up, and none of the inherited names is an entry. *)
Theorem getInventoryReport_inherited_category_uncounted ops docs :
  sum_list (cat_count <$> ir_byCategory (getInventoryReport ops docs))
  = length (List.filter (λ kd, bool_decide (categoryOf kd.2 ∉ inheritedKeys))
              (ir_data (getInventoryReport ops docs)))
  ∧ (∀ e, e ∈ ir_byCategory (getInventoryReport ops docs) →
       cat_count e
       = length (filter (λ kd, inCategory (cat_name e) kd.2)
                   (ir_data (getInventoryReport ops docs)))
       ∧ cat_totalValue e
         = valueOf ops (filter (λ kd, inCategory (cat_name e) kd.2)
                          (ir_data (getInventoryReport ops docs))))
  ∧ (∀ c, c ∈ inheritedKeys → c ∉ cat_name <$> ir_byCategory (getInventoryReport ops docs))
  ∧ ir_totalProducts (getInventoryReport ops docs)
    = length (ir_data (getInventoryReport ops docs))
  ∧ ir_totalStockValue (getInventoryReport ops docs)
    = valueOf ops (ir_data (getInventoryReport ops docs)).
Proof.
  destruct (byCategory_entries ops (ir_data (getInventoryReport ops docs)))
    as (_ & Hentries & Hcs & Hn).
  split_and!; [exact Hn | exact Hentries | | done | done].
  intros c Hc Hin. apply Hcs in Hin as [Hno _]. done.
Qed.

(** With thresholds that are not negative, every product the report lists
    as out of stock is also listed as low on stock, all of them are active
    products of the store, and outOfStockCount <= lowStockCount <=
    totalProducts. *)
Theorem getInventoryReport_low_and_out ops docs :
  map_Forall (λ _ d, 0 ≤ doc_lowStockThreshold d) docs →
  (∀ kd, kd ∈ ir_outOfStockProducts (getInventoryReport ops docs) →
         kd ∈ ir_lowStockProducts (getInventoryReport ops docs))
  ∧ (∀ k d, (k, d) ∈ ir_lowStockProducts (getInventoryReport ops docs) →
       docs !! k = Some d ∧ isActive (doc_core d) = true
       ∧ docStock d ≤ doc_lowStockThreshold d)
  ∧ ir_lowStockCount (getInventoryReport ops docs)
    = length (ir_lowStockProducts (getInventoryReport ops docs))
  ∧ ir_outOfStockCount (getInventoryReport ops docs)
    = length (ir_outOfStockProducts (getInventoryReport ops docs))
  ∧ (ir_outOfStockCount (getInventoryReport ops docs)
     ≤ ir_lowStockCount (getInventoryReport ops docs)
     ≤ ir_totalProducts (getInventoryReport ops docs))%nat.
Proof.
  intros Hthr. unfold getInventoryReport. simpl.
  set (products := sortBy byCategoryName _).
  assert (Hin : ∀ k d, (k, d) ∈ products → docs !! k = Some d ∧ isActive (doc_core d) = true).
  { intros k d Hkd. unfold products in Hkd. rewrite sortBy_Permutation in Hkd.
    apply list_elem_of_In, filter_In in Hkd as [Hkd Hact].
    apply list_elem_of_In, elem_of_map_to_list in Hkd. done. }
  assert (Himp : ∀ kd, kd ∈ products → isOut kd.2 = true → isLow kd.2 = true).
  { intros [k d] Hkd Hout. simpl in *.
    destruct (Hin k d Hkd) as [Hd _]. apply Hthr in Hd. simpl in Hd.
    unfold isOut, isLow in *. apply Z.eqb_eq in Hout. apply Z.leb_le. lia. }
  split_and!; try done.
  - intros kd Hkd. apply list_elem_of_In, filter_In in Hkd as [Hkd Hout].
    apply list_elem_of_In in Hkd.
    apply list_elem_of_In, filter_In. split; [by apply list_elem_of_In | by apply Himp].
  - intros k d Hkd. apply list_elem_of_In, filter_In in Hkd as [Hkd Hlow].
    apply list_elem_of_In in Hkd. destruct (Hin k d Hkd) as [Hd Hact].
    split_and!; [done | done |]. by apply Z.leb_le.
  - by apply filter_length_mono.
  - apply filter_length_le.
Qed.

Lemma getInventoryReport_low_and_out_witness :
  fst <$> ir_outOfStockProducts (getInventoryReport exactArith shelf) = ["a"]
  ∧ (ir_outOfStockCount (getInventoryReport exactArith shelf)
     ≤ ir_lowStockCount (getInventoryReport exactArith shelf)
     ≤ ir_totalProducts (getInventoryReport exactArith shelf))%nat.
Proof.
  split; [vm_compute; reflexivity |].
  apply (getInventoryReport_low_and_out exactArith shelf).
  by_compute.
Defined.

(** X30. The inventory report and the inventory list of an administrator count
    the same products: the same total, the same number low on stock and the
    same number out of stock. *)
Theorem getInventoryReport_agrees_with_getInventory ops user suppliers docs a :
  user_role user ≠ "supplier" →
  getInventory user suppliers None docs = Answered a →
  ir_totalProducts (getInventoryReport ops docs) = inv_totalProducts a
  ∧ ir_lowStockCount (getInventoryReport ops docs) = inv_lowStockProducts a
  ∧ ir_outOfStockCount (getInventoryReport ops docs) = inv_outOfStockProducts a.
Proof.
  intros Hrole Ha. unfold getInventory, supplierScope in Ha.
  rewrite decide_False in Ha by done. inversion Ha; subst a. clear Ha. simpl.
  unfold getInventoryReport, findInventory. simpl.
  assert (Hperm : sortBy byCategoryName
                    (List.filter (λ kd, isActive (doc_core kd.2)) (map_to_list docs))
                  ≡ₚ sortBy byStock
                    (List.filter
                       (λ kd, isActive (doc_core kd.2) && true && true) (map_to_list docs))).
  { rewrite !sortBy_Permutation.
    replace (List.filter (λ kd, isActive (doc_core kd.2) && true && true) (map_to_list docs))
      with (List.filter (λ kd, isActive (doc_core kd.2)) (map_to_list docs)); [done |].
    apply filter_ext. intros kd. by rewrite !andb_true_r. }
  split_and!.
  - by rewrite Hperm.
  - by apply filter_length_Permutation.
  - by apply filter_length_Permutation.
Qed.

Lemma getInventoryReport_agrees_with_getInventory_witness :
  ∃ a, getInventory admin [] None shelf = Answered a
       ∧ ir_totalProducts (getInventoryReport exactArith shelf) = inv_totalProducts a
       ∧ ir_lowStockCount (getInventoryReport exactArith shelf) = inv_lowStockProducts a.
Proof.
  destruct (getInventory admin [] None shelf) as [a | ? ?] eqn:Ha;
    [| vm_compute in Ha; discriminate].
  exists a.
  destruct (getInventoryReport_agrees_with_getInventory exactArith admin [] shelf a)
    as (Hn & Hlow & _); [discriminate | exact Ha |].
  split_and!; [reflexivity | exact Hn | exact Hlow].
Defined.
